(** * LedgerClaw: the rule-based classifier, the inference retry loop and the
      pipeline run, embedded from the TypeScript sources.

    Conventions of the embedding.

    - A JavaScript string is a [string] of 8-bit characters; [toLowerCase]
      lowers the ASCII letters [A]-[Z] and leaves every other character
      alone, so the development speaks about ASCII text.
    - A [number] holding a count or a millisecond timestamp is a [Z]; a
      confidence literal ([1.0], [0.85], [0.7], [0.8]) is the rational with
      that decimal expansion.
    - The SQLite tables [emails] and [classifications] have a text primary
      key and are finite maps from that key to the row; [briefings] and
      [pipeline_runs] have an AUTOINCREMENT key and are lists of rows in
      rowid order.
    - An exception is the error message it carries.
    - The collaborators outside the core (the mail connector, the inference
      backend, the delivery channel) appear through what their calls
      return or throw.
    - Records keep the fields that the embedded functions read or write;
      the [version] numbers of the rule and configuration files, and the
      [sync_state] and [actions] tables, are left out. *)

From Stdlib Require Import ZArith QArith Ascii String List Bool Lia.
From stdpp Require Import base option list gmap strings fin_maps.
From Stdlib Require Import Sorted Permutation.

Local Open Scope string_scope.
Local Open Scope list_scope.
Local Open Scope Z_scope.

(** ** JavaScript string primitives *)

Module JsString.

(** [c.toLowerCase()] on one ASCII character. *)
Definition lowerAscii (c : ascii) : ascii :=
  let n := nat_of_ascii c in
  if ((65 <=? n)%nat && (n <=? 90)%nat)%bool then ascii_of_nat (n + 32) else c.

(** [s.toLowerCase()]. *)
Fixpoint toLowerCase (s : string) : string :=
  match s with
  | EmptyString => EmptyString
  | String c s' => String (lowerAscii c) (toLowerCase s')
  end.

(** [s.startsWith(p)]. *)
Fixpoint startsWith (s p : string) {struct p} : bool :=
  match p, s with
  | EmptyString, _ => true
  | String _ _, EmptyString => false
  | String b p', String a s' => if Ascii.eqb a b then startsWith s' p' else false
  end.

(** [s.includes(sub)]: [sub] starts at some position of [s]. *)
Fixpoint includes (s sub : string) : bool :=
  startsWith s sub ||
  match s with
  | EmptyString => false
  | String _ s' => includes s' sub
  end.

(** [s.substring(n)] for a non-negative integer [n]. *)
Fixpoint substringFrom (n : nat) (s : string) : string :=
  match n, s with
  | O, _ => s
  | S n', EmptyString => EmptyString
  | S n', String _ s' => substringFrom n' s'
  end.

(** [s.substring(0, n)] for a non-negative integer [n]. *)
Fixpoint substringTo (n : nat) (s : string) : string :=
  match n, s with
  | O, _ => EmptyString
  | S n', EmptyString => EmptyString
  | S n', String c s' => String c (substringTo n' s')
  end.

(** [s.endsWith(suf)]: the last [suf.length] characters of [s] are [suf]. *)
Definition endsWith (s suf : string) : bool :=
  (String.length suf <=? String.length s)%nat &&
  String.eqb (substringFrom (String.length s - String.length suf) s) suf.

(** JavaScript truthiness of a string: only the empty string is falsy. *)
Definition truthy (s : string) : bool :=
  match s with EmptyString => false | _ => true end.

End JsString.
Import JsString.

(** ** Pattern matching (src/input/filter.ts) *)

Definition matchesSenderPattern (address pattern : string) : bool :=
  let addr := toLowerCase address in
  let pat := toLowerCase pattern in
  if startsWith pat "*" then endsWith addr (substringFrom 1 pat)
  else String.eqb addr pat.

Definition matchesSenderList (address : string) (patterns : list string) : bool :=
  existsb (fun p => matchesSenderPattern address p) patterns.

Definition containsKeyword (text : string) (keywords : list string) : bool :=
  let lower := toLowerCase text in
  existsb (fun kw => includes lower (toLowerCase kw)) keywords.

Definition countKeywordMatches (text : string) (keywords : list string) : Z :=
  let lower := toLowerCase text in
  Z.of_nat (length (List.filter (fun kw => includes lower (toLowerCase kw)) keywords)).

(** ** Rows and rule files (src/store/database.ts, src/utils/config.ts) *)

Record EmailRow := {
  id : string;
  thread_id : option string;
  sender : string;
  sender_name : option string;
  subject : string;
  body_text : option string;
  received_at : Z;
  fetched_at : Z;
  labels : option string
}.

Record ClassificationRow := {
  email_id : string;
  is_financial : Z;
  category : option string;
  confidence : Q;
  classified_by : string;
  classified_at : Z
}.

(** Delivery flag of a briefing: [0] is the column default (not yet
    delivered), [1] is set by [markBriefingDelivered], [-1] by
    [markBriefingFailed]. *)
Record BriefingRow := {
  b_id : Z;
  generated_at : Z;
  b_period_start : Z;
  b_period_end : Z;
  email_count : Z;
  content : string;
  model_used : option string;
  b_tokens_used : option Z;
  delivered : Z;
  delivered_via : option string;
  delivered_at : option Z
}.

Inductive Trigger := scheduled | manual | catchup.

Inductive RunStatus := running | success | skipped | partial | failed.

Record PipelineRunRow := {
  r_id : Z;
  started_at : Z;
  finished_at : option Z;
  status : RunStatus;
  trigger : Trigger;
  period_start : option Z;
  period_end : option Z;
  emails_fetched : option Z;
  emails_classified : option Z;
  emails_financial : option Z;
  tokens_used : option Z;
  briefing_id : option Z;
  error : option string
}.

Record CategoryHints := {
  senderHints : list string;
  keywordHints : list string
}.

(** [categories] keeps the entries of the JSON object in the order
    [Object.entries] yields them. *)
Record DefaultRules := {
  dr_financial : list string;
  dr_ignore : list string;
  dr_subject : list string;
  dr_body : list string;
  categories : list (string * CategoryHints)
}.

(** The two ISO date strings of the file are kept as the instants they
    denote. *)
Record UserRules := {
  ur_generated_at : Z;
  last_refreshed_at : Z;
  ur_financial : list string;
  ur_ignore : list string;
  pending_review : list string;
  ur_subject : list string;
  ur_body : list string
}.

Record AppConfig := {
  initialFetchDays : Z;
  channel : string;
  refreshIntervalDays : Z
}.

(** ** The mutable world: the database, the user rule file and the clock *)

Record World := {
  emails : gmap string EmailRow;
  classifications : gmap string ClassificationRow;
  briefings : list BriefingRow;
  pipeline_runs : list PipelineRunRow;
  rulesUser : option UserRules;
  ticks : nat
}.

Definition setEmails (m : gmap string EmailRow) (w : World) : World :=
  {| emails := m; classifications := classifications w; briefings := briefings w;
     pipeline_runs := pipeline_runs w; rulesUser := rulesUser w; ticks := ticks w |}.

Definition setClassifications (m : gmap string ClassificationRow) (w : World) : World :=
  {| emails := emails w; classifications := m; briefings := briefings w;
     pipeline_runs := pipeline_runs w; rulesUser := rulesUser w; ticks := ticks w |}.

Definition setBriefings (l : list BriefingRow) (w : World) : World :=
  {| emails := emails w; classifications := classifications w; briefings := l;
     pipeline_runs := pipeline_runs w; rulesUser := rulesUser w; ticks := ticks w |}.

Definition setPipelineRuns (l : list PipelineRunRow) (w : World) : World :=
  {| emails := emails w; classifications := classifications w; briefings := briefings w;
     pipeline_runs := l; rulesUser := rulesUser w; ticks := ticks w |}.

Definition setRulesUser (r : option UserRules) (w : World) : World :=
  {| emails := emails w; classifications := classifications w; briefings := briefings w;
     pipeline_runs := pipeline_runs w; rulesUser := r; ticks := ticks w |}.

Definition setTicks (n : nat) (w : World) : World :=
  {| emails := emails w; classifications := classifications w; briefings := briefings w;
     pipeline_runs := pipeline_runs w; rulesUser := rulesUser w; ticks := n |}.

(** [Date.now()] and [new Date()]: the [n]-th reading of the clock is
    [clock n]; every reading advances the counter. *)
Definition dateNow (clock : nat -> Z) (w : World) : Z * World :=
  (clock (ticks w), setTicks (S (ticks w)) w).

(** A call either returns or throws an error with a message. *)
Inductive Result (A : Type) :=
  | Ok (a : A)
  | Throw (message : string).
Arguments Ok {A} a.
Arguments Throw {A} message.

(** ** The store (src/store/database.ts) *)

Module Db.

(** [[...new Set(l)]]: the distinct elements of [l] in the order of their
    first occurrence; [seen] holds what the set already contains. *)
Fixpoint uniqFrom (seen l : list string) : list string :=
  match l with
  | [] => []
  | x :: l' =>
      if bool_decide (x ∈ seen) then uniqFrom seen l'
      else x :: uniqFrom (x :: seen) l'
  end.

Definition newSet (l : list string) : list string := uniqFrom [] l.

(** [ORDER BY received_at DESC]; rows with equal timestamps keep the
    order in which they were found. *)
Fixpoint insertByReceived (e : EmailRow) (l : list EmailRow) : list EmailRow :=
  match l with
  | [] => [e]
  | x :: l' =>
      if received_at x <? received_at e then e :: x :: l'
      else x :: insertByReceived e l'
  end.

Definition orderByReceivedDesc (l : list EmailRow) : list EmailRow :=
  foldr insertByReceived [] l.

(** [INSERT OR IGNORE INTO emails]. *)
Definition insertEmail (email : EmailRow) (w : World) : World :=
  match emails w !! id email with
  | Some _ => w
  | None => setEmails (<[id email := email]> (emails w)) w
  end.

Definition emailExists (i : string) (w : World) : bool :=
  match emails w !! i with Some _ => true | None => false end.

(** [SELECT * FROM emails WHERE id IN (...) ORDER BY received_at DESC]. *)
Definition getEmailsByIds (ids : list string) (w : World) : list EmailRow :=
  match ids with
  | [] => []
  | _ => orderByReceivedDesc (omap (fun i => emails w !! i) (newSet ids))
  end.

(** [SELECT DISTINCT sender FROM emails]. *)
Definition getAllUniqueSenders (w : World) : list string :=
  newSet (map (fun kv => sender (snd kv)) (map_to_list (emails w))).

(** [SELECT DISTINCT subject FROM emails WHERE sender IN (...)]. *)
Definition getSubjectsBySenders (senders : list string) (w : World) : list string :=
  match senders with
  | [] => []
  | _ =>
      newSet (map (fun kv => subject (snd kv))
                (List.filter (fun kv => bool_decide (sender (snd kv) ∈ senders))
                   (map_to_list (emails w))))
  end.

(** [INSERT OR REPLACE INTO classifications]: the write itself.  The
    statement is subject to the foreign key of [email_id];
    [Schema.insertClassification] below runs it against that
    constraint. *)
Definition insertClassification (c : ClassificationRow) (w : World) : World :=
  setClassifications (<[email_id c := c]> (classifications w)) w.

Definition getClassification (emailId : string) (w : World) : option ClassificationRow :=
  classifications w !! emailId.

(** The emails that the LEFT JOIN leaves without a classification. *)
Definition getUnclassifiedEmailIds (w : World) : list string :=
  map fst
    (List.filter
       (fun kv => match classifications w !! fst kv with None => true | Some _ => false end)
       (map_to_list (emails w))).

(** [... WHERE c.is_financial = 1 AND e.received_at >= ? ORDER BY
    e.received_at DESC]. *)
Definition getFinancialEmailIdsSince (sinceTs : Z) (w : World) : list string :=
  map id
    (orderByReceivedDesc
       (map snd
          (List.filter
             (fun kv =>
                match classifications w !! fst kv with
                | Some c => (is_financial c =? 1) && (sinceTs <=? received_at (snd kv))
                | None => false
                end)
             (map_to_list (emails w))))).

(** The rowid an AUTOINCREMENT table hands out next: one more than the
    largest rowid in use (no row is ever deleted). *)
Definition nextRowid (ids : list Z) : Z := 1 + foldr Z.max 0 ids.

Record NewBriefing := {
  nb_generated_at : Z;
  nb_period_start : Z;
  nb_period_end : Z;
  nb_email_count : Z;
  nb_content : string;
  nb_model_used : option string;
  nb_tokens_used : Z
}.

Definition insertBriefing (b : NewBriefing) (w : World) : Z * World :=
  let rowid := nextRowid (map b_id (briefings w)) in
  (rowid,
   setBriefings
     (briefings w ++
      [{| b_id := rowid; generated_at := nb_generated_at b;
          b_period_start := nb_period_start b; b_period_end := nb_period_end b;
          email_count := nb_email_count b; content := nb_content b;
          model_used := nb_model_used b; b_tokens_used := Some (nb_tokens_used b);
          delivered := 0; delivered_via := None; delivered_at := None |}]) w).

Definition updateBriefing (i : Z) (f : BriefingRow -> BriefingRow) (w : World) : World :=
  setBriefings (map (fun b => if b_id b =? i then f b else b) (briefings w)) w.

Definition markBriefingDelivered (clock : nat -> Z) (i : Z) (ch : string) (w : World) : World :=
  let '(t, w) := dateNow clock w in
  updateBriefing i
    (fun b =>
       {| b_id := b_id b; generated_at := generated_at b;
          b_period_start := b_period_start b; b_period_end := b_period_end b;
          email_count := email_count b; content := content b;
          model_used := model_used b; b_tokens_used := b_tokens_used b;
          delivered := 1; delivered_via := Some ch; delivered_at := Some t |}) w.

Definition markBriefingFailed (i : Z) (w : World) : World :=
  updateBriefing i
    (fun b =>
       {| b_id := b_id b; generated_at := generated_at b;
          b_period_start := b_period_start b; b_period_end := b_period_end b;
          email_count := email_count b; content := content b;
          model_used := model_used b; b_tokens_used := b_tokens_used b;
          delivered := -1; delivered_via := delivered_via b;
          delivered_at := delivered_at b |}) w.

Definition getBriefing (i : Z) (w : World) : option BriefingRow :=
  List.find (fun b => b_id b =? i) (briefings w).

(** [INSERT INTO pipeline_runs (started_at, status, trigger) VALUES (?,
    'running', ?)]; the four counters take their column default [0]. *)
Definition createPipelineRun (clock : nat -> Z) (tr : Trigger) (w : World) : Z * World :=
  let '(t, w) := dateNow clock w in
  let rowid := nextRowid (map r_id (pipeline_runs w)) in
  (rowid,
   setPipelineRuns
     (pipeline_runs w ++
      [{| r_id := rowid; started_at := t; finished_at := None; status := running;
          trigger := tr; period_start := None; period_end := None;
          emails_fetched := Some 0; emails_classified := Some 0;
          emails_financial := Some 0; tokens_used := Some 0;
          briefing_id := None; error := None |}]) w).

(** The [updates] object of [updatePipelineRun]: a column is set exactly
    when its key is present. *)
Record RunUpdate := {
  u_status : option RunStatus;
  u_finished_at : option Z;
  u_period_start : option Z;
  u_period_end : option Z;
  u_emails_fetched : option Z;
  u_emails_classified : option Z;
  u_emails_financial : option Z;
  u_tokens_used : option Z;
  u_briefing_id : option Z;
  u_error : option string
}.

Definition noUpdate : RunUpdate :=
  {| u_status := None; u_finished_at := None; u_period_start := None;
     u_period_end := None; u_emails_fetched := None; u_emails_classified := None;
     u_emails_financial := None; u_tokens_used := None; u_briefing_id := None;
     u_error := None |}.

Definition orKeep {A} (new : option A) (old : option A) : option A :=
  match new with Some v => Some v | None => old end.

Definition applyUpdate (u : RunUpdate) (r : PipelineRunRow) : PipelineRunRow :=
  {| r_id := r_id r; started_at := started_at r;
     finished_at := orKeep (u_finished_at u) (finished_at r);
     status := match u_status u with Some s => s | None => status r end;
     trigger := trigger r;
     period_start := orKeep (u_period_start u) (period_start r);
     period_end := orKeep (u_period_end u) (period_end r);
     emails_fetched := orKeep (u_emails_fetched u) (emails_fetched r);
     emails_classified := orKeep (u_emails_classified u) (emails_classified r);
     emails_financial := orKeep (u_emails_financial u) (emails_financial r);
     tokens_used := orKeep (u_tokens_used u) (tokens_used r);
     briefing_id := orKeep (u_briefing_id u) (briefing_id r);
     error := orKeep (u_error u) (error r) |}.

Definition updatePipelineRun (i : Z) (u : RunUpdate) (w : World) : World :=
  setPipelineRuns
    (map (fun r => if r_id r =? i then applyUpdate u r else r) (pipeline_runs w)) w.

Definition getPipelineRun (i : Z) (w : World) : option PipelineRunRow :=
  List.find (fun r => r_id r =? i) (pipeline_runs w).

Definition successOrSkipped (s : RunStatus) : bool :=
  match s with success | skipped => true | _ => false end.

(** [a] sorts strictly before [b] under [ORDER BY finished_at DESC]
    (NULL is the smallest value). *)
Definition finishedLater (a b : option Z) : bool :=
  match a, b with
  | Some x, Some y => y <? x
  | Some _, None => true
  | None, _ => false
  end.

Fixpoint pickLatest (best : option PipelineRunRow) (l : list PipelineRunRow)
  : option PipelineRunRow :=
  match l with
  | [] => best
  | r :: l' =>
      pickLatest
        (match best with
         | None => Some r
         | Some b => if finishedLater (finished_at r) (finished_at b) then Some r else Some b
         end) l'
  end.

(** [SELECT * FROM pipeline_runs WHERE status IN ('success','skipped')
    ORDER BY finished_at DESC LIMIT 1]; among rows with the same
    [finished_at] the one with the smallest rowid is returned. *)
Definition getLastSuccessfulRun (w : World) : option PipelineRunRow :=
  pickLatest None (List.filter (fun r => successOrSkipped (status r)) (pipeline_runs w)).

End Db.

(** ** The filter engine (src/input/filter.ts) *)

Module Filter.

(** *** Category detection *)

Definition hintsMatch (senderLower subjectLower : string) (hints : CategoryHints) : bool :=
  let senderMatch := existsb (fun h => includes senderLower (toLowerCase h)) (senderHints hints) in
  let keywordMatch := existsb (fun h => includes subjectLower (toLowerCase h)) (keywordHints hints) in
  senderMatch || keywordMatch.

Fixpoint firstCategory (senderLower subjectLower : string)
    (entries : list (string * CategoryHints)) : option string :=
  match entries with
  | [] => None
  | (cat, hints) :: rest =>
      if hintsMatch senderLower subjectLower hints then Some cat
      else firstCategory senderLower subjectLower rest
  end.

Definition detectCategory (sender subject : string)
    (categories : list (string * CategoryHints)) : option string :=
  let senderLower := toLowerCase sender in
  let subjectLower := toLowerCase subject in
  match firstCategory senderLower subjectLower categories with
  | Some cat => Some cat
  | None => Some "other_financial"
  end.

(** *** Daily classification *)

Record ClassifyResult := {
  total : Z;
  financialCount : Z;
  financialEmailIds : list string;
  tokensUsed : Z
}.

(** [result.total++], and for a financial email also
    [result.financialCount++; result.financialEmailIds.push(emailId)]. *)
Definition counted (financial : bool) (emailId : string) (r : ClassifyResult)
  : ClassifyResult :=
  if financial then
    {| total := total r + 1; financialCount := financialCount r + 1;
       financialEmailIds := financialEmailIds r ++ [emailId];
       tokensUsed := tokensUsed r |}
  else
    {| total := total r + 1; financialCount := financialCount r;
       financialEmailIds := financialEmailIds r; tokensUsed := tokensUsed r |}.

(** The rule lists merged at the top of [classifyEmails]. *)
Record Merged := {
  financialSenders : list string;
  ignoreSenders : list string;
  subjectKeywords : list string;
  bodyKeywords : list string
}.

Definition orEmpty (u : option UserRules) (f : UserRules -> list string) : list string :=
  match u with Some r => f r | None => [] end.

Definition mergeRules (defaultRules : DefaultRules) (userRules : option UserRules) : Merged :=
  {| financialSenders := dr_financial defaultRules ++ orEmpty userRules ur_financial;
     ignoreSenders := dr_ignore defaultRules ++ orEmpty userRules ur_ignore;
     subjectKeywords := dr_subject defaultRules ++ orEmpty userRules ur_subject;
     bodyKeywords := dr_body defaultRules ++ orEmpty userRules ur_body |}.

(** CHECK 4 of the loop: a non-empty body whose first 1500 characters
    hold at least two of the body keywords. *)
Definition bodyCheck (email : EmailRow) (keywords : list string) : bool :=
  match body_text email with
  | Some body =>
      if truthy body then
        let bodyText := substringTo 1500 body in
        let matchCount := countKeywordMatches bodyText keywords in
        2 <=? matchCount
      else false
  | None => false
  end.

(** One iteration of the [for (const emailId of emailIds)] loop. *)
Definition classifyStep (clock : nat -> Z) (defaultRules : DefaultRules) (m : Merged)
    (st : ClassifyResult * World) (emailId : string) : ClassifyResult * World :=
  let '(result, w) := st in
  match Db.getClassification emailId w with
  | Some existing =>
      (counted (negb (is_financial existing =? 0)) emailId result, w)
  | None =>
      match Db.getEmailsByIds [emailId] w with
      | [] => (result, w)
      | email :: _ =>
          if matchesSenderList (sender email) (ignoreSenders m) then
            let '(t, w) := dateNow clock w in
            (counted false emailId result,
             Db.insertClassification
               {| email_id := emailId; is_financial := 0; category := None;
                  confidence := 1.0%Q; classified_by := "rules_ignore";
                  classified_at := t |} w)
          else if matchesSenderList (sender email) (financialSenders m) then
            let cat := detectCategory (sender email) (subject email) (categories defaultRules) in
            let '(t, w) := dateNow clock w in
            (counted true emailId result,
             Db.insertClassification
               {| email_id := emailId; is_financial := 1; category := cat;
                  confidence := 1.0%Q; classified_by := "rules_sender";
                  classified_at := t |} w)
          else if containsKeyword (subject email) (subjectKeywords m) then
            let cat := detectCategory (sender email) (subject email) (categories defaultRules) in
            let '(t, w) := dateNow clock w in
            (counted true emailId result,
             Db.insertClassification
               {| email_id := emailId; is_financial := 1; category := cat;
                  confidence := 0.85%Q; classified_by := "rules_keyword";
                  classified_at := t |} w)
          else if bodyCheck email (bodyKeywords m) then
            let cat := detectCategory (sender email) (subject email) (categories defaultRules) in
            let '(t, w) := dateNow clock w in
            (counted true emailId result,
             Db.insertClassification
               {| email_id := emailId; is_financial := 1; category := cat;
                  confidence := 0.7%Q; classified_by := "rules_keyword";
                  classified_at := t |} w)
          else
            let '(t, w) := dateNow clock w in
            (counted false emailId result,
             Db.insertClassification
               {| email_id := emailId; is_financial := 0; category := None;
                  confidence := 0.8%Q; classified_by := "rules_no_match";
                  classified_at := t |} w)
      end
  end.

(** The loop, from any state of the counters and the world. *)
Definition classifyLoop (clock : nat -> Z) (defaultRules : DefaultRules) (m : Merged)
    (emailIds : list string) (st : ClassifyResult * World) : ClassifyResult * World :=
  fold_left (classifyStep clock defaultRules m) emailIds st.

Definition classifyEmails (clock : nat -> Z) (defaultRules : DefaultRules)
    (emailIds : list string) (w : World) : ClassifyResult * World :=
  let m := mergeRules defaultRules (rulesUser w) in
  classifyLoop clock defaultRules m emailIds
    ({| total := 0; financialCount := 0; financialEmailIds := []; tokensUsed := 0 |}, w).

(** *** Organic filter building and periodic refresh *)

(** What the [try] block around one sender-classification call amounts
    to: [buildPrompt] or [callLLM] throws; or the call returns
    [tokensUsed] and either parsing the text (or lower-casing an entry)
    throws, or it yields [parsed.financial], kept when it is an array. *)
Inductive SenderReply :=
  | CallFailed
  | Unparsable (replyTokens : Z)
  | Parsed (replyTokens : Z) (financial : option (list string)).

(** The same for the keyword-extraction call, with
    [parsed.subject_keywords] and [parsed.body_keywords]. *)
Inductive KeywordReply :=
  | KeywordCallFailed
  | KeywordUnparsable (replyTokens : Z)
  | KeywordParsed (replyTokens : Z) (subject_keywords body_keywords : option (list string)).

(** The inference backend as the filter sees it: the reply to the
    [n]-th sender batch and the reply to a sample of subjects. *)
Record Inference := {
  classifySenders : nat -> list string -> SenderReply;
  extractKeywords : list string -> KeywordReply
}.

(** STEP 2: senders on the default ignore list are dropped, the others
    are split into known financial and unknown senders. *)
Fixpoint preFilter (defaultRules : DefaultRules) (allSenders : list string)
  : list string * list string :=
  match allSenders with
  | [] => ([], [])
  | s :: rest =>
      let '(knownFinancial, unknownSenders) := preFilter defaultRules rest in
      if matchesSenderList s (dr_ignore defaultRules) then (knownFinancial, unknownSenders)
      else if matchesSenderList s (dr_financial defaultRules) then
        (s :: knownFinancial, unknownSenders)
      else (knownFinancial, s :: unknownSenders)
  end.

Definition SENDER_BATCH_SIZE : nat := 100.
Definition SUBJECT_BATCH_SIZE : nat := 200.

(** STEP 3: the batches of [unknownSenders.slice(i, i + 100)];
    [remaining] is the part of the list from index [i] on, and [fuel]
    bounds the number of batches. *)
Fixpoint senderBatches (llm : Inference) (fuel batchIndex : nat) (remaining : list string)
    (llmFinancial : list string) (totalTokens : Z) : list string * Z :=
  match fuel, remaining with
  | O, _ => (llmFinancial, totalTokens)
  | _, [] => (llmFinancial, totalTokens)
  | S fuel', _ =>
      let batch := take SENDER_BATCH_SIZE remaining in
      let rest := drop SENDER_BATCH_SIZE remaining in
      match classifySenders llm batchIndex batch with
      | CallFailed =>
          senderBatches llm fuel' (S batchIndex) rest llmFinancial totalTokens
      | Unparsable tokens =>
          senderBatches llm fuel' (S batchIndex) rest llmFinancial (totalTokens + tokens)
      | Parsed tokens None =>
          senderBatches llm fuel' (S batchIndex) rest llmFinancial (totalTokens + tokens)
      | Parsed tokens (Some financial) =>
          senderBatches llm fuel' (S batchIndex) rest
            (llmFinancial ++ map toLowerCase financial) (totalTokens + tokens)
      end
  end.

Definition buildOrganicFilter (clock : nat -> Z) (defaultRules : DefaultRules)
    (llm : Inference) (w : World) : Z * World :=
  let allSenders := Db.getAllUniqueSenders w in
  match allSenders with
  | [] => (0, w)
  | _ =>
      let '(knownFinancial, unknownSenders) := preFilter defaultRules allSenders in
      let '(llmFinancial, totalTokens) :=
        senderBatches llm (length unknownSenders) 0 unknownSenders [] 0 in
      let llmIgnore : list string := [] in
      let allFinancialSenders := Db.newSet (knownFinancial ++ llmFinancial) in
      let financialSubjects := Db.getSubjectsBySenders allFinancialSenders w in
      let '(extractedSubjectKeywords, extractedBodyKeywords, totalTokens) :=
        match financialSubjects with
        | [] => ([], [], totalTokens)
        | _ =>
            let subjectSample := take SUBJECT_BATCH_SIZE financialSubjects in
            match extractKeywords llm subjectSample with
            | KeywordCallFailed => ([], [], totalTokens)
            | KeywordUnparsable tokens => ([], [], totalTokens + tokens)
            | KeywordParsed tokens sk bk =>
                (default [] sk, default [] bk, totalTokens + tokens)
            end
        end in
      let '(generated, w) := dateNow clock w in
      let '(refreshed, w) := dateNow clock w in
      let userRules :=
        {| ur_generated_at := generated; last_refreshed_at := refreshed;
           ur_financial := allFinancialSenders; ur_ignore := llmIgnore;
           pending_review := []; ur_subject := extractedSubjectKeywords;
           ur_body := extractedBodyKeywords |} in
      (totalTokens, setRulesUser (Some userRules) w)
  end.

Definition withRefreshed (t : Z) (u : UserRules) : UserRules :=
  {| ur_generated_at := ur_generated_at u; last_refreshed_at := t;
     ur_financial := ur_financial u; ur_ignore := ur_ignore u;
     pending_review := pending_review u; ur_subject := ur_subject u;
     ur_body := ur_body u |}.

Definition withFinancial (l : list string) (u : UserRules) : UserRules :=
  {| ur_generated_at := ur_generated_at u; last_refreshed_at := last_refreshed_at u;
     ur_financial := l; ur_ignore := ur_ignore u;
     pending_review := pending_review u; ur_subject := ur_subject u;
     ur_body := ur_body u |}.

Definition withPending (l : list string) (u : UserRules) : UserRules :=
  {| ur_generated_at := ur_generated_at u; last_refreshed_at := last_refreshed_at u;
     ur_financial := ur_financial u; ur_ignore := ur_ignore u;
     pending_review := l; ur_subject := ur_subject u; ur_body := ur_body u |}.

Definition refreshFilter (clock : nat -> Z) (config : AppConfig)
    (defaultRules : DefaultRules) (llm : Inference) (w : World) : Z * World :=
  match rulesUser w with
  | None => buildOrganicFilter clock defaultRules llm w
  | Some userRules =>
      let lastRefresh := last_refreshed_at userRules in
      let refreshInterval := refreshIntervalDays config * 86400000 in
      let '(now, w) := dateNow clock w in
      if now - lastRefresh <? refreshInterval then (0, w)
      else
        let allSenders := Db.getAllUniqueSenders w in
        let knownSenders := ur_financial userRules ++ ur_ignore userRules in
        let newSenders :=
          List.filter (fun s => negb (bool_decide (s ∈ knownSenders))) allSenders in
        let trulyNew :=
          List.filter
            (fun s => negb (matchesSenderList s (dr_financial defaultRules)) &&
                      negb (matchesSenderList s (dr_ignore defaultRules)))
            newSenders in
        match trulyNew with
        | [] =>
            let '(t, w) := dateNow clock w in
            (0, setRulesUser (Some (withRefreshed t userRules)) w)
        | _ =>
            let '(userRules, totalTokens) :=
              match classifySenders llm 0 trulyNew with
              | CallFailed => (userRules, 0)
              | Unparsable tokens => (userRules, 0 + tokens)
              | Parsed tokens None => (userRules, 0 + tokens)
              | Parsed tokens (Some financial) =>
                  let newFinancial := map toLowerCase financial in
                  (withPending (pending_review userRules ++ newFinancial)
                     (withFinancial (ur_financial userRules ++ newFinancial) userRules),
                   0 + tokens)
              end in
            let userRules := withFinancial (Db.newSet (ur_financial userRules)) userRules in
            let '(t, w) := dateNow clock w in
            (totalTokens, setRulesUser (Some (withRefreshed t userRules)) w)
        end
  end.

End Filter.

(** ** The inference call with retry (process/llm-interface.ts) *)

Module LlmInterface.

Record LLMResponse := {
  text : string;
  tokensUsed : Z;
  model : string
}.

Definition isRetryable (msg : string) : bool :=
  includes msg "429" ||
  includes msg "500" ||
  includes msg "502" ||
  includes msg "503" ||
  includes msg "abort".

Definition defaultMaxRetries : Z := 2.

(** The [for (let attempt = 0; attempt <= maxRetries; attempt++)] loop.
    [request attempt] is what the provider call of that attempt does:
    return a response or throw.  The second component of the result lists
    the delays handed to [sleep], in order.  [fuel] bounds the number of
    iterations; [None] means the bound was too small. *)
Fixpoint attemptLoop (fuel : nat) (request : Z -> Result LLMResponse)
    (maxRetries attempt : Z) (slept : list Z) : option (Result LLMResponse * list Z) :=
  match fuel with
  | O => None
  | S fuel' =>
      if attempt <=? maxRetries then
        match request attempt with
        | Ok response => Some (Ok response, slept)
        | Throw error =>
            if negb (isRetryable error) || (attempt =? maxRetries) then
              Some (Throw error, slept)
            else
              let delayMs := 2 ^ attempt * 1000 in
              attemptLoop fuel' request maxRetries (attempt + 1) (slept ++ [delayMs])
        end
      else Some (Throw "Unreachable", slept)
  end.

(** [selectProvider] is the outcome of provider selection, which runs
    before the loop and outside its [try]. *)
Definition callLLM (selectProvider : Result unit) (request : Z -> Result LLMResponse)
    (maxRetries : Z) : option (Result LLMResponse * list Z) :=
  match selectProvider with
  | Throw error => Some (Throw error, [])
  | Ok _ => attemptLoop (S (Z.to_nat (maxRetries + 1))) request maxRetries 0 []
  end.

(** An attempt ends the loop when it returns a response, throws an
    error that is not retryable, or is the attempt number [maxRetries]. *)
Definition decisive (request : Z -> Result LLMResponse) (maxRetries attempt : Z) : bool :=
  match request attempt with
  | Ok _ => true
  | Throw error => negb (isRetryable error) || (attempt =? maxRetries)
  end.

(** The delays of the first [n] retries: 1000 ms, then twice the
    previous one each time. *)
Fixpoint backoff (n : nat) : list Z :=
  match n with
  | O => []
  | S k => backoff k ++ [2 ^ Z.of_nat k * 1000]
  end.

End LlmInterface.

(** ** The pipeline run (src/pipeline.ts) *)

Module Pipeline.

(** What the mail connector does in one [fetchEmails] call: it throws
    before any message is stored, or it lists message ids, each with the
    row built from the fetched message ([None] when that message is
    skipped), and then the closing profile request returns or throws. *)
Inductive Gmail :=
  | ListingThrows (message : string)
  | Listed (messages : list (string * option EmailRow)) (profile : Result unit).

(** The collaborators of one run.  [summary] is the outcome of the
    inference calls of [generateBriefing]: the briefing text with the
    tokens used, or the error thrown; [delivery] is the outcome of
    [sendBriefing]; [toDateString t] is [new Date(t).toDateString()]. *)
Record Env := {
  clock : nat -> Z;
  toDateString : Z -> string;
  config : AppConfig;
  defaultRules : DefaultRules;
  gmail : Gmail;
  llm : Filter.Inference;
  summary : Result (string * Z);
  delivery : Result unit
}.

Record FetchResult := {
  count : Z;
  emailIds : list string
}.

Definition withFetchedAt (t : Z) (e : EmailRow) : EmailRow :=
  {| id := id e; thread_id := thread_id e; sender := sender e;
     sender_name := sender_name e; subject := subject e; body_text := body_text e;
     received_at := received_at e; fetched_at := t; labels := labels e |}.

(** [fetchMessagesBatched] (src/input/gmail.ts). *)
Fixpoint fetchMessagesBatched (clock : nat -> Z) (messages : list (string * option EmailRow))
    (count : Z) (w : World) : Z * World :=
  match messages with
  | [] => (count, w)
  | (msgId, fetched) :: rest =>
      if Db.emailExists msgId w then fetchMessagesBatched clock rest count w
      else
        match fetched with
        | None => fetchMessagesBatched clock rest count w
        | Some row =>
            let '(t, w) := dateNow clock w in
            fetchMessagesBatched clock rest (count + 1) (Db.insertEmail (withFetchedAt t row) w)
        end
  end.

(** [fetchEmails]; the [sync_state] table is left out. *)
Definition fetchEmails (env : Env) (w : World) : Result FetchResult * World :=
  match gmail env with
  | ListingThrows e => (Throw e, w)
  | Listed messages profile =>
      let '(fetchedCount, w) := fetchMessagesBatched (clock env) messages 0 w in
      match profile with
      | Throw e => (Throw e, w)
      | Ok _ => (Ok {| count := fetchedCount; emailIds := map fst messages |}, w)
      end
  end.

Record BriefingResult := {
  briefingId : Z;
  briefingContent : string;
  briefingTokens : Z
}.

(** [generateBriefing] (process/intelligence.ts); the [actions] table is
    left out. *)
Definition generateBriefing (env : Env) (financialEmailIds : list string)
    (periodStart periodEnd : Z) (w : World) : Result BriefingResult * World :=
  let '(now, w) := dateNow (clock env) w in
  match summary env with
  | Throw e => (Throw e, w)
  | Ok (briefingText, totalTokens) =>
      let '(rowid, w) :=
        Db.insertBriefing
          {| Db.nb_generated_at := now; Db.nb_period_start := periodStart;
             Db.nb_period_end := periodEnd;
             Db.nb_email_count := Z.of_nat (length financialEmailIds);
             Db.nb_content := briefingText; Db.nb_model_used := None;
             Db.nb_tokens_used := totalTokens |} w in
      (Ok {| briefingId := rowid; briefingContent := briefingText;
             briefingTokens := totalTokens |}, w)
  end.

(** Truthiness of [lastRun?.period_end] and [lastRun?.finished_at]:
    [undefined], [null] and [0] are falsy. *)
Definition truthyField (lastRun : option PipelineRunRow)
    (field : PipelineRunRow -> option Z) : option Z :=
  match lastRun with
  | None => None
  | Some r =>
      match field r with
      | None => None
      | Some v => if v =? 0 then None else Some v
      end
  end.

(** How far the [try] block got before the delivery step: it finished
    (returned, or threw and was handled by the outer [catch]), or it
    generated a briefing and stands before Step 4 with [totalTokens]
    used so far. *)
Inductive Progress :=
  | Finished (outcome : Result unit)
  | Generated (totalTokens : Z) (briefingResult : BriefingResult).

(** The outer [catch]: record the failure on the run and rethrow. *)
Definition failRun (env : Env) (runId totalTokens : Z) (message : string) (w : World)
  : Progress * World :=
  let '(t, w) := dateNow (clock env) w in
  (Finished (Throw message),
   Db.updatePipelineRun runId
     {| Db.u_status := Some failed; Db.u_finished_at := Some t;
        Db.u_period_start := None; Db.u_period_end := None;
        Db.u_emails_fetched := None; Db.u_emails_classified := None;
        Db.u_emails_financial := None; Db.u_tokens_used := Some totalTokens;
        Db.u_briefing_id := None; Db.u_error := Some message |} w).

(** Step 4 and the closing update: deliver the briefing; a delivery
    error is caught and leaves the run [partial]. *)
Definition deliver (env : Env) (runId totalTokens : Z) (briefingResult : BriefingResult)
    (w : World) : Result unit * World :=
  match delivery env with
  | Ok _ =>
      let w := Db.markBriefingDelivered (clock env) (briefingId briefingResult)
                 (channel (config env)) w in
      let '(t, w) := dateNow (clock env) w in
      (Ok tt,
       Db.updatePipelineRun runId
         {| Db.u_status := Some success; Db.u_finished_at := Some t;
            Db.u_period_start := None; Db.u_period_end := None;
            Db.u_emails_fetched := None; Db.u_emails_classified := None;
            Db.u_emails_financial := None; Db.u_tokens_used := Some totalTokens;
            Db.u_briefing_id := None; Db.u_error := None |} w)
  | Throw deliveryError =>
      let w := Db.markBriefingFailed (briefingId briefingResult) w in
      let '(t, w) := dateNow (clock env) w in
      (Ok tt,
       Db.updatePipelineRun runId
         {| Db.u_status := Some partial; Db.u_finished_at := Some t;
            Db.u_period_start := None; Db.u_period_end := None;
            Db.u_emails_fetched := None; Db.u_emails_classified := None;
            Db.u_emails_financial := None; Db.u_tokens_used := Some totalTokens;
            Db.u_briefing_id := None;
            Db.u_error := Some (String.append "Delivery failed: " deliveryError) |} w)
  end.

(** Steps 1 to 3 of the [try] block, from the fetch up to the update
    that records the generated briefing on the run. *)
Definition runStages (env : Env) (runId periodStart periodEnd : Z) (w : World)
  : Progress * World :=
  let totalTokens := 0 in
  match fetchEmails env w with
  | (Throw e, w) => failRun env runId totalTokens e w
  | (Ok fetchResult, w) =>
      let w :=
        Db.updatePipelineRun runId
          {| Db.u_status := None; Db.u_finished_at := None;
             Db.u_period_start := None; Db.u_period_end := None;
             Db.u_emails_fetched := Some (count fetchResult);
             Db.u_emails_classified := None; Db.u_emails_financial := None;
             Db.u_tokens_used := None; Db.u_briefing_id := None;
             Db.u_error := None |} w in
      let '(refreshTokens, w) :=
        Filter.refreshFilter (clock env) (config env) (defaultRules env) (llm env) w in
      let totalTokens := totalTokens + refreshTokens in
      let unclassifiedIds := Db.getUnclassifiedEmailIds w in
      let '(classifyResult, w) :=
        Filter.classifyEmails (clock env) (defaultRules env) unclassifiedIds w in
      let w :=
        Db.updatePipelineRun runId
          {| Db.u_status := None; Db.u_finished_at := None;
             Db.u_period_start := None; Db.u_period_end := None;
             Db.u_emails_fetched := None;
             Db.u_emails_classified := Some (Filter.total classifyResult);
             Db.u_emails_financial := Some (Filter.financialCount classifyResult);
             Db.u_tokens_used := None; Db.u_briefing_id := None;
             Db.u_error := None |} w in
      let financialIds := Db.getFinancialEmailIdsSince periodStart w in
      match financialIds with
      | [] =>
          let '(t, w) := dateNow (clock env) w in
          (Finished (Ok tt),
           Db.updatePipelineRun runId
             {| Db.u_status := Some skipped; Db.u_finished_at := Some t;
                Db.u_period_start := None; Db.u_period_end := None;
                Db.u_emails_fetched := None; Db.u_emails_classified := None;
                Db.u_emails_financial := None; Db.u_tokens_used := Some totalTokens;
                Db.u_briefing_id := None; Db.u_error := None |} w)
      | _ =>
          match generateBriefing env financialIds periodStart periodEnd w with
          | (Throw e, w) => failRun env runId totalTokens e w
          | (Ok briefingResult, w) =>
              let totalTokens := totalTokens + briefingTokens briefingResult in
              let w :=
                Db.updatePipelineRun runId
                  {| Db.u_status := None; Db.u_finished_at := None;
                     Db.u_period_start := None; Db.u_period_end := None;
                     Db.u_emails_fetched := None; Db.u_emails_classified := None;
                     Db.u_emails_financial := None;
                     Db.u_tokens_used := Some totalTokens;
                     Db.u_briefing_id := Some (briefingId briefingResult);
                     Db.u_error := None |} w in
              (Generated totalTokens briefingResult, w)
          end
      end
  end.

(** The period covered by a run that reads the clock at [now]. *)
Definition periodStartOf (env : Env) (lastRun : option PipelineRunRow) (now : Z) : Z :=
  match truthyField lastRun period_end with
  | Some periodEnd => periodEnd
  | None => now - initialFetchDays (config env) * 86400000
  end.

Definition isScheduled (tr : Trigger) : bool :=
  match tr with scheduled => true | _ => false end.

(** The run up to the delivery step: the run row is created, the period
    is determined, a scheduled run on a day that already has a run is
    skipped, and otherwise Steps 1 to 3 are executed. *)
Definition beforeDelivery (env : Env) (tr : Trigger) (w : World) : Z * (Progress * World) :=
  let '(runId, w) := Db.createPipelineRun (clock env) tr w in
  let lastRun := Db.getLastSuccessfulRun w in
  let '(now, w) := dateNow (clock env) w in
  let '(todayStart, w) := dateNow (clock env) w in
  let periodStart := periodStartOf env lastRun now in
  let periodEnd := now in
  let '(alreadyRanToday, w) :=
    match truthyField lastRun finished_at with
    | Some finishedAt =>
        let lastRunDate := toDateString env finishedAt in
        let '(today, w) := dateNow (clock env) w in
        let todayDate := toDateString env today in
        (String.eqb lastRunDate todayDate && isScheduled tr, w)
    | None => (false, w)
    end in
  if alreadyRanToday then
    (runId,
     (Finished (Ok tt),
      Db.updatePipelineRun runId
        {| Db.u_status := Some skipped; Db.u_finished_at := Some now;
           Db.u_period_start := Some periodStart; Db.u_period_end := Some periodEnd;
           Db.u_emails_fetched := None; Db.u_emails_classified := None;
           Db.u_emails_financial := None; Db.u_tokens_used := None;
           Db.u_briefing_id := None; Db.u_error := None |} w))
  else
    let w :=
      Db.updatePipelineRun runId
        {| Db.u_status := None; Db.u_finished_at := None;
           Db.u_period_start := Some periodStart; Db.u_period_end := Some periodEnd;
           Db.u_emails_fetched := None; Db.u_emails_classified := None;
           Db.u_emails_financial := None; Db.u_tokens_used := None;
           Db.u_briefing_id := None; Db.u_error := None |} w in
    (runId, runStages env runId periodStart periodEnd w).

Definition runPipeline (env : Env) (tr : Trigger) (w : World) : Result unit * World :=
  match beforeDelivery env tr w with
  | (runId, (Finished outcome, w)) => (outcome, w)
  | (runId, (Generated totalTokens briefingResult, w)) =>
      deliver env runId totalTokens briefingResult w
  end.

Definition samePeriod (r r' : PipelineRunRow) : Prop :=
  period_start r' = period_start r /\ period_end r' = period_end r.

End Pipeline.

(** ** The classifier as the specification words it

    The five tiers in their fixed order, what each tier decides, and the
    tag each tier writes.  These definitions follow the specification; the
    theorems below compare them with [Filter.classifyEmails]. *)

Module Tiers.

Inductive Tier :=
  | IgnoreSender
  | RelevantSender
  | SubjectKeyword
  | BodyKeyword
  | NoMatch.

Definition inOrder : list Tier :=
  [IgnoreSender; RelevantSender; SubjectKeyword; BodyKeyword; NoMatch].

Definition matches (m : Filter.Merged) (email : EmailRow) (t : Tier) : bool :=
  match t with
  | IgnoreSender => matchesSenderList (sender email) (Filter.ignoreSenders m)
  | RelevantSender => matchesSenderList (sender email) (Filter.financialSenders m)
  | SubjectKeyword => containsKeyword (subject email) (Filter.subjectKeywords m)
  | BodyKeyword => Filter.bodyCheck email (Filter.bodyKeywords m)
  | NoMatch => true
  end.

(** First match wins. *)
Definition firstMatch (m : Filter.Merged) (email : EmailRow) : Tier :=
  match List.find (matches m email) inOrder with
  | Some t => t
  | None => NoMatch
  end.

Definition relevant (t : Tier) : bool :=
  match t with
  | IgnoreSender | NoMatch => false
  | RelevantSender | SubjectKeyword | BodyKeyword => true
  end.

Definition confidenceOf (t : Tier) : Q :=
  match t with
  | IgnoreSender => 1.0%Q
  | RelevantSender => 1.0%Q
  | SubjectKeyword => 0.85%Q
  | BodyKeyword => 0.7%Q
  | NoMatch => 0.8%Q
  end.

(** The tag the specification gives each tier. *)
Definition specTag (t : Tier) : string :=
  match t with
  | IgnoreSender => "rule:ignore"
  | RelevantSender => "rule:sender"
  | SubjectKeyword => "rule:subject"
  | BodyKeyword => "rule:body"
  | NoMatch => "rule:none"
  end.

(** The tag the code writes into [classified_by] for each tier. *)
Definition codeTag (t : Tier) : string :=
  match t with
  | IgnoreSender => "rules_ignore"
  | RelevantSender => "rules_sender"
  | SubjectKeyword => "rules_keyword"
  | BodyKeyword => "rules_keyword"
  | NoMatch => "rules_no_match"
  end.

(** The row a tier stands for. *)
Definition rowOf (defaultRules : DefaultRules) (emailId : string) (email : EmailRow)
    (t : Tier) (at_ : Z) : ClassificationRow :=
  {| email_id := emailId;
     is_financial := if relevant t then 1 else 0;
     category :=
       if relevant t then
         Filter.detectCategory (sender email) (subject email) (categories defaultRules)
       else None;
     confidence := confidenceOf t;
     classified_by := codeTag t;
     classified_at := at_ |}.

(** A body keyword hits when, lower-cased, it occurs in the lower-cased
    first 1500 characters of the body. *)
Definition hits (body keyword : string) : bool :=
  includes (toLowerCase (substringTo 1500 body)) (toLowerCase keyword).

(** The number of distinct keywords that hit. *)
Definition distinctHits (body : string) (keywords : list string) : Z :=
  Z.of_nat (length (Db.newSet (List.filter (hits body) keywords))).

(** The number of entries of the keyword list that hit, each entry
    counted as often as the list holds it. *)
Definition entryHits (body : string) (keywords : list string) : Z :=
  Z.of_nat (length (List.filter (hits body) keywords)).

(** An id is handled by the classifier when it has a stored
    classification or an email row; the others are skipped. *)
Definition handled (w : World) (i : string) : bool :=
  match Db.getClassification i w, emails w !! i with
  | None, None => false
  | _, _ => true
  end.

(** The place of a tier in the fixed order. *)
Definition rank (t : Tier) : nat :=
  match t with
  | IgnoreSender => 1
  | RelevantSender => 2
  | SubjectKeyword => 3
  | BodyKeyword => 4
  | NoMatch => 5
  end.

(** The number of counted hits of CHECK 4: a missing or empty body has
    none. *)
Definition countedHits (email : EmailRow) (keywords : list string) : Z :=
  match body_text email with
  | Some body => if truthy body then entryHits body keywords else 0
  | None => 0
  end.

End Tiers.

(** ** The relevant-sender list of the user rule file *)

Module RuleFile.

(** No two entries at different positions are equal ignoring case. *)
Definition distinctIgnoringCase (l : list string) : Prop :=
  NoDup (map toLowerCase l).

(** An entry is in lower case. *)
Definition lowerCased (s : string) : Prop := toLowerCase s = s.

(** Every stored sender address is in lower case, as the connector
    stores it ([extractSenderAddress] lower-cases the address). *)
Definition lowerCasedStore (w : World) : Prop :=
  forall i e, emails w !! i = Some e -> lowerCased (sender e).

(** A relevant-sender list in lower case without repeated entries, as
    the builder writes it. *)
Definition normalised (l : list string) : Prop :=
  Forall lowerCased l /\ NoDup l.

Definition normalisedRules (rules : option UserRules) : Prop :=
  match rules with
  | Some u => normalised (ur_financial u)
  | None => True
  end.

End RuleFile.

(** ** Sample data

    A small inbox, rule files and collaborators on which the theorems
    below are exercised. *)

Module Sample.

Definition clock (n : nat) : Z := 1700000000000 + 1000 * Z.of_nat n.

(** 1700006400000 is midnight of 15 November 2023 (UTC). *)
Definition toDateString (t : Z) : string :=
  if t <? 1700006400000 then "Tue Nov 14 2023" else "Wed Nov 15 2023".

Definition appConfig : AppConfig :=
  {| initialFetchDays := 90; channel := "whatsapp"; refreshIntervalDays := 7 |}.

Definition rules : DefaultRules :=
  {| dr_financial := ["*@bank.example"];
     dr_ignore := ["offers@bank.example"];
     dr_subject := ["statement"];
     dr_body := ["emi"; "due"];
     categories :=
       [("bank_alert", {| senderHints := ["bank"]; keywordHints := ["statement"] |})] |}.

Definition mail (i from subj : string) (body : option string) (received : Z) : EmailRow :=
  {| id := i; thread_id := None; sender := from; sender_name := None; subject := subj;
     body_text := body; received_at := received; fetched_at := received; labels := None |}.

Definition offer : EmailRow :=
  mail "m1" "offers@bank.example" "Festive offers" (Some "Shop now") 1699990000000.
Definition alert : EmailRow :=
  mail "m2" "alerts@bank.example" "Account update" (Some "Balance changed") 1699990001000.
Definition bill : EmailRow :=
  mail "m3" "news@shop.example" "Your statement is ready" None 1699990002000.
Definition reminder : EmailRow :=
  mail "m4" "care@shop.example" "Reminder" (Some "Your EMI is due on Monday") 1699990003000.
Definition note : EmailRow :=
  mail "m5" "care@shop.example" "Hello" (Some "EMI plans for everyone") 1699990004000.

Definition emptyWorld : World :=
  {| emails := ∅; classifications := ∅; briefings := []; pipeline_runs := [];
     rulesUser := None; ticks := 0 |}.

Definition inbox : World :=
  foldr Db.insertEmail emptyWorld [offer; alert; bill; reminder; note].

(** The inbox after a first classification pass. *)
Definition sorted : World :=
  snd (Filter.classifyEmails clock rules ["m1"; "m2"; "m3"; "m4"; "m5"] inbox).

(** A user rule file whose body keywords repeat the baseline keyword
    [emi]. *)
Definition grown : UserRules :=
  {| ur_generated_at := 1699000000000; last_refreshed_at := 1699990000000;
     ur_financial := []; ur_ignore := []; pending_review := [];
     ur_subject := []; ur_body := ["emi"] |}.

Definition inboxGrown : World := setRulesUser (Some grown) inbox.

(** A user rule file to which a sender was added by hand, with capitals. *)
Definition edited : UserRules :=
  {| ur_generated_at := 1699000000000; last_refreshed_at := 1699000000000;
     ur_financial := ["Billing@Power.Example"]; ur_ignore := []; pending_review := [];
     ur_subject := []; ur_body := [] |}.

Definition power : EmailRow :=
  mail "m6" "billing@power.example" "Your bill" None 1699990005000.

Definition inboxEdited : World :=
  setRulesUser (Some edited) (Db.insertEmail power inbox).

(** An inference backend that answers every sender batch by calling the
    whole batch financial, and finds no keywords. *)
Definition agreeing : Filter.Inference :=
  {| Filter.classifySenders := fun _ batch => Filter.Parsed 10 (Some batch);
     Filter.extractKeywords := fun _ => Filter.KeywordCallFailed |}.

Definition silent : Filter.Inference :=
  {| Filter.classifySenders := fun _ _ => Filter.CallFailed;
     Filter.extractKeywords := fun _ => Filter.KeywordCallFailed |}.

(** A run whose delivery fails after the briefing was generated. *)
Definition undeliverable : Pipeline.Env :=
  {| Pipeline.clock := clock; Pipeline.toDateString := toDateString;
     Pipeline.config := appConfig; Pipeline.defaultRules := rules;
     Pipeline.gmail := Pipeline.Listed [] (Ok tt);
     Pipeline.llm := silent;
     Pipeline.summary := Ok ("Two items need attention.", 420);
     Pipeline.delivery := Throw "socket closed" |}.

Definition pastRun (endedAt : Z) : PipelineRunRow :=
  {| r_id := 1; started_at := 1699900000000; finished_at := Some 1699900060000;
     status := success; trigger := scheduled;
     period_start := Some 1699800000000; period_end := Some endedAt;
     emails_fetched := Some 0; emails_classified := Some 0; emails_financial := Some 0;
     tokens_used := Some 0; briefing_id := None; error := None |}.

Definition afterRun (endedAt : Z) : World :=
  setPipelineRuns [pastRun endedAt] inbox.

(** Three attempts that fail with a retryable status, then a response. *)
Definition answer : LlmInterface.LLMResponse :=
  {| LlmInterface.text := "ok"; LlmInterface.tokensUsed := 12;
     LlmInterface.model := "llama3.2:7b" |}.

Definition flaky (attempt : Z) : Result LlmInterface.LLMResponse :=
  if attempt <? 3 then Throw "Ollama returned 503: busy" else Ok answer.

End Sample.

(** ** Three statements as the specification words them

    Each is refuted below on the sample data, and replaced by the
    statement the code satisfies. *)

Module AsStated.

(** A message that reaches the body-keyword tier with exactly one
    distinct keyword hit is stored as not relevant with confidence 0.80. *)
Definition oneDistinctHitIsNoMatch : Prop :=
  forall (clock : nat -> Z) (defaultRules : DefaultRules) (w : World)
         (emailId body : string) (email : EmailRow) (c : ClassificationRow),
    Db.getClassification emailId w = None ->
    emails w !! emailId = Some email ->
    let m := Filter.mergeRules defaultRules (rulesUser w) in
    Tiers.matches m email Tiers.IgnoreSender = false ->
    Tiers.matches m email Tiers.RelevantSender = false ->
    Tiers.matches m email Tiers.SubjectKeyword = false ->
    body_text email = Some body ->
    Tiers.distinctHits body (Filter.bodyKeywords m) = 1 ->
    Db.getClassification emailId
      (snd (Filter.classifyEmails clock defaultRules [emailId] w)) = Some c ->
    is_financial c = 0 /\ confidence c = 0.8%Q.

(** The subject-keyword tier and the body-keyword tier write different
    tags. *)
Definition subjectAndBodyTagsDiffer : Prop :=
  forall (clock : nat -> Z) (defaultRules : DefaultRules) (w : World)
         (i1 i2 : string) (e1 e2 : EmailRow) (c1 c2 : ClassificationRow),
    Db.getClassification i1 w = None -> emails w !! i1 = Some e1 ->
    Db.getClassification i2 w = None -> emails w !! i2 = Some e2 ->
    let m := Filter.mergeRules defaultRules (rulesUser w) in
    Tiers.firstMatch m e1 = Tiers.SubjectKeyword ->
    Tiers.firstMatch m e2 = Tiers.BodyKeyword ->
    let w' := snd (Filter.classifyEmails clock defaultRules [i1; i2] w) in
    Db.getClassification i1 w' = Some c1 ->
    Db.getClassification i2 w' = Some c2 ->
    classified_by c1 <> classified_by c2.

(** After a periodic refresh that is due, the persisted relevant-sender
    list has no two entries equal ignoring case. *)
Definition refreshDeduplicatesIgnoringCase : Prop :=
  forall (clock : nat -> Z) (config : AppConfig) (defaultRules : DefaultRules)
         (llm : Filter.Inference) (w : World) (stored persisted : UserRules),
    rulesUser w = Some stored ->
    refreshIntervalDays config * 86400000 <= clock (ticks w) - last_refreshed_at stored ->
    rulesUser (snd (Filter.refreshFilter clock config defaultRules llm w)) = Some persisted ->
    RuleFile.distinctIgnoringCase (ur_financial persisted).

End AsStated.

(** ** Measures used to state bounds *)

Module Measures.

(** The total time spent sleeping. *)
Definition totalDelay (slept : list Z) : Z := foldr Z.add 0 slept.

End Measures.

(** ** The counters of the classifier read off a world *)

Module Tally.

(** What one id adds to the counters when its classification is taken
    from the world [w]: an id without one adds nothing. *)
Definition step (w : World) (r : Filter.ClassifyResult) (emailId : string)
  : Filter.ClassifyResult :=
  match Db.getClassification emailId w with
  | Some c => Filter.counted (negb (is_financial c =? 0)) emailId r
  | None => r
  end.

Definition over (w : World) (ids : list string) (r : Filter.ClassifyResult)
  : Filter.ClassifyResult :=
  fold_left (step w) ids r.

(** The counters agree with one another and with the world: the
    relevant count is the length of the relevant list and at most the
    total, no tokens are used, and every listed id is one of [ids] and is
    stored as relevant. *)
Definition consistent (ids : list string) (r : Filter.ClassifyResult) (w : World) : Prop :=
  Filter.financialCount r = Z.of_nat (length (Filter.financialEmailIds r)) /\
  Filter.financialCount r <= Filter.total r /\
  Filter.tokensUsed r = 0 /\
  forall i, i ∈ Filter.financialEmailIds r ->
    i ∈ ids /\ exists c, Db.getClassification i w = Some c /\ is_financial c <> 0.

End Tally.

(** ** Orders used to state what the queries return *)

Module Order.

(** [a] does not come after [b] in time: rows in this relation, read
    left to right, are newest first. *)
Definition notOlder (a b : EmailRow) : Prop := received_at b <= received_at a.

(** Newest first. *)
Definition newestFirst (rows : list EmailRow) : Prop := StronglySorted notOlder rows.

(** [a] does not sort before [b] under [ORDER BY finished_at DESC]. *)
Definition notFinishedLater (a b : PipelineRunRow) : Prop :=
  Db.finishedLater (finished_at a) (finished_at b) = false.

End Order.

(** ** What a run row says about its run *)

Module RunLog.

(** The three counters of a run row are set and make sense together:
    nothing is negative and no more emails are relevant than were
    classified. *)
Definition countersOk (r : PipelineRunRow) : Prop :=
  exists fetched classified financial,
    emails_fetched r = Some fetched /\
    emails_classified r = Some classified /\
    emails_financial r = Some financial /\
    0 <= fetched /\ 0 <= financial <= classified.

(** The run is over. *)
Definition terminal (s : RunStatus) : Prop := s <> running.

(** The run [r] beats every stored [success] or [skipped] run of [w] on
    [finished_at]. *)
Definition latest (r : PipelineRunRow) (w : World) : Prop :=
  forall x, x ∈ pipeline_runs w -> Db.successOrSkipped (status x) = true ->
    Db.finishedLater (finished_at r) (finished_at x) = true.

(** A [success] or [skipped] run carries the period end its writer
    recorded: every writer of such a row stores a clock reading there,
    and the clock never reads 0. *)
Definition periodRecorded (r : PipelineRunRow) : bool :=
  negb (Db.successOrSkipped (status r)) ||
  match period_end r with
  | Some T => negb (T =? 0)
  | None => false
  end.

(** Every stored run is as its writer left it. *)
Definition periodsRecorded (w : World) : bool :=
  forallb periodRecorded (pipeline_runs w).

End RunLog.

(** ** The foreign key of the classifications table *)

Module Schema.

Definition foreignKeyFailed : string := "FOREIGN KEY constraint failed".

(** [insertClassification] as the database runs it.  The schema declares
    [classifications.email_id REFERENCES emails(id)] and [initDatabase]
    sets [foreign_keys = ON], so the statement throws, and writes
    nothing, unless an email with that id is stored; the conflict clause
    [OR REPLACE] does not cover this constraint. *)
Definition insertClassification (c : ClassificationRow) (w : World) : Result unit * World :=
  if Db.emailExists (email_id c) w then (Ok tt, Db.insertClassification c w)
  else (Throw foreignKeyFailed, w).

End Schema.

(** ** Further sample runs *)

Module Scenario.

(** A run during which the mail listing cannot be reached. *)
Definition offline : Pipeline.Env :=
  {| Pipeline.clock := Sample.clock; Pipeline.toDateString := Sample.toDateString;
     Pipeline.config := Sample.appConfig; Pipeline.defaultRules := Sample.rules;
     Pipeline.gmail := Pipeline.ListingThrows "network unreachable";
     Pipeline.llm := Sample.silent;
     Pipeline.summary := Ok ("Two items need attention.", 420);
     Pipeline.delivery := Ok tt |}.

(** A run in which every collaborator answers. *)
Definition online : Pipeline.Env :=
  {| Pipeline.clock := Sample.clock; Pipeline.toDateString := Sample.toDateString;
     Pipeline.config := Sample.appConfig; Pipeline.defaultRules := Sample.rules;
     Pipeline.gmail := Pipeline.Listed [] (Ok tt);
     Pipeline.llm := Sample.silent;
     Pipeline.summary := Ok ("Two items need attention.", 420);
     Pipeline.delivery := Ok tt |}.

(** The store after an earlier successful run whose period ended before
    the sample emails arrived. *)
Definition morning : World := Sample.afterRun 1699980000000.

(** The row a manual run leaves when everything answers. *)
Definition firstRun : PipelineRunRow :=
  {| r_id := 2; started_at := 1700000000000; finished_at := Some 1700000013000;
     status := success; trigger := manual;
     period_start := Some 1699980000000; period_end := Some 1700000001000;
     emails_fetched := Some 0; emails_classified := Some 5; emails_financial := Some 3;
     tokens_used := Some 420; briefing_id := Some 1; error := None |}.

End Scenario.

(** ** The answers of the mail service *)

Module Mailbox.

(** The service answers a request for a message with that message: a
    fetched row carries the id it was asked for. *)
Definition answersInKind (messages : list (string * option EmailRow)) : Prop :=
  forall msgId row, (msgId, Some row) ∈ messages -> id row = msgId.

End Mailbox.

(** ** Batches *)

Module Batching.

(** The slices [list.slice(i, i + size)] for [i = 0, size, 2 * size, ...]
    below [list.length]; [fuel] bounds their number. *)
Fixpoint slicesFrom {A : Type} (fuel size : nat) (remaining : list A) : list (list A) :=
  match fuel, remaining with
  | O, _ => []
  | _, [] => []
  | S fuel', _ => take size remaining :: slicesFrom fuel' size (drop size remaining)
  end.

Definition slices {A : Type} (size : nat) (l : list A) : list (list A) :=
  slicesFrom (length l) size l.

(** What the reply to one batch of senders adds to the senders found
    and to the tokens used. *)
Definition absorb (llm : Filter.Inference) (st : nat * (list string * Z))
    (batch : list string) : nat * (list string * Z) :=
  let '(batchIndex, (llmFinancial, totalTokens)) := st in
  (S batchIndex,
   match Filter.classifySenders llm batchIndex batch with
   | Filter.CallFailed => (llmFinancial, totalTokens)
   | Filter.Unparsable tokens => (llmFinancial, totalTokens + tokens)
   | Filter.Parsed tokens None => (llmFinancial, totalTokens + tokens)
   | Filter.Parsed tokens (Some financial) =>
       (llmFinancial ++ map toLowerCase financial, totalTokens + tokens)
   end).

(** [s] is an answer of the model: the lower-cased form of a sender
    named as relevant in the reply to one of the batches of the unknown
    senders. *)
Definition answered (llm : Filter.Inference) (unknownSenders : list string) (s : string)
  : Prop :=
  exists k batch tokens financial x,
    slices 100 unknownSenders !! k = Some batch /\
    Filter.classifySenders llm k batch = Filter.Parsed tokens (Some financial) /\
    x ∈ financial /\ s = toLowerCase x.

End Batching.

(** ** The scheduler (scheduler.ts) *)

Module Scheduler.

(** [checkCatchUp], run once when the daemon starts.  A [finished_at]
    that is NULL reaches [new Date(null)], which is the time 0; the
    second clock reading is the one of [daysSince], used for the log line
    only; an error thrown by the pipeline is caught and logged. *)
Definition checkCatchUp (env : Pipeline.Env) (w : World) : World :=
  match Db.getLastSuccessfulRun w with
  | None => w
  | Some lastRun =>
      let lastRunDate := Pipeline.toDateString env (default 0 (finished_at lastRun)) in
      let '(today, w) := dateNow (Pipeline.clock env) w in
      let todayDate := Pipeline.toDateString env today in
      if String.eqb lastRunDate todayDate then w
      else
        let '(_, w) := dateNow (Pipeline.clock env) w in
        snd (Pipeline.runPipeline env catchup w)
  end.

(** The callback the cron schedule fires: an error thrown by the
    pipeline is caught and logged. *)
Definition scheduledTick (env : Pipeline.Env) (w : World) : World :=
  snd (Pipeline.runPipeline env scheduled w).

End Scheduler.

(** ** Provider selection (src/process/llm-router.ts) *)

Module LlmRouter.

Inductive ProviderType := ollama | anthropic | openai.

Record ProviderInfo := {
  type : ProviderType;
  model : string;
  baseUrl : option string;
  apiKey : option string
}.

(** The models file: [provider] and [fallback] are read from JSON, so
    they are strings whatever the declared type says; a [fallback] that is
    absent or [null] is [None]. *)
Record ModelsConfig := {
  provider : string;
  ollamaBaseUrl : string;
  ollamaModel : string;
  anthropicModel : string;
  openaiModel : string;
  fallback : option string
}.

(** [process.env] after [loadEnv]: a variable that is not set is
    [None]. *)
Record Environment := {
  ANTHROPIC_API_KEY : option string;
  OPENAI_API_KEY : option string
}.

Definition resolveProvider (config : ModelsConfig) (env : Environment)
    (providerName : string) : Result ProviderInfo :=
  if String.eqb providerName "ollama" then
    Ok {| type := ollama; model := ollamaModel config;
          baseUrl := Some (ollamaBaseUrl config); apiKey := None |}
  else if String.eqb providerName "anthropic" then
    Ok {| type := anthropic; model := anthropicModel config;
          baseUrl := None; apiKey := ANTHROPIC_API_KEY env |}
  else if String.eqb providerName "openai" then
    Ok {| type := openai; model := openaiModel config;
          baseUrl := None; apiKey := OPENAI_API_KEY env |}
  else Throw (String.append "Unknown LLM provider: " providerName).

(** Truthiness of a string that may be missing. *)
Definition present (s : option string) : bool :=
  match s with
  | Some v => negb (String.eqb v "")
  | None => false
  end.

(** [isOllamaRunning] is the answer of the probe of the local server. *)
Definition selectProvider (config : ModelsConfig) (env : Environment)
    (isOllamaRunning : bool) : Result ProviderInfo :=
  let primary := provider config in
  if String.eqb primary "ollama" then
    if isOllamaRunning then resolveProvider config env "ollama"
    else
      match fallback config with
      | Some name =>
          if present (Some name) then resolveProvider config env name
          else
            Throw (String.append "Ollama is not running at "
                     (String.append (ollamaBaseUrl config)
                        " and no fallback provider configured."))
      | None =>
          Throw (String.append "Ollama is not running at "
                   (String.append (ollamaBaseUrl config)
                      " and no fallback provider configured."))
      end
  else
    match resolveProvider config env primary with
    | Throw e => Throw e
    | Ok provider =>
        if (String.eqb primary "anthropic" || String.eqb primary "openai")
           && negb (present (apiKey provider))
        then
          Throw (String.append "API key for "
                   (String.append primary " not found. Set it in ~/.ledgerclaw/.env"))
        else Ok provider
    end.

End LlmRouter.

(** ** Requests to the mail service (src/input/gmail.ts) *)

Module GmailApi.

(** An error thrown by a request.  [statusOrCode] is the value of
    [error?.response?.status || error?.code] when that is a number, and
    [None] when it is anything else. *)
Record ApiError := {
  statusOrCode : option Z;
  message : string
}.

Inductive Outcome (T : Type) :=
  | Returned (value : T)
  | Thrown (error : ApiError).

Arguments Returned {T} value.
Arguments Thrown {T} error.

Definition retryable (error : ApiError) : bool :=
  match statusOrCode error with
  | Some status => (status =? 429) || (status =? 500) || (status =? 502) || (status =? 503)
  | None => false
  end.

Definition unreachable : ApiError :=
  {| statusOrCode := None; message := "Unreachable" |}.

(** The loop of [fetchWithRetry]: [fn attempt] is what the request does
    at that attempt, the second component of the result lists the delays
    handed to [sleep], and [fuel] bounds the number of iterations. *)
Fixpoint retryLoop {T : Type} (fuel : nat) (fn : Z -> Outcome T) (maxRetries attempt : Z)
    (slept : list Z) : option (Outcome T * list Z) :=
  match fuel with
  | O => None
  | S fuel' =>
      if attempt <=? maxRetries then
        match fn attempt with
        | Returned value => Some (Returned value, slept)
        | Thrown error =>
            if negb (retryable error) || (attempt =? maxRetries) then
              Some (Thrown error, slept)
            else
              let delay := 2 ^ attempt * 1000 in
              retryLoop fuel' fn maxRetries (attempt + 1) (slept ++ [delay])
        end
      else Some (Thrown unreachable, slept)
  end.

Definition fetchWithRetry {T : Type} (fn : Z -> Outcome T) (maxRetries : Z)
  : option (Outcome T * list Z) :=
  retryLoop (S (Z.to_nat (maxRetries + 1))) fn maxRetries 0 [].

End GmailApi.

(** ** Messages (src/output/whatsapp.ts, src/input/gmail.ts) *)

(** More of the string primitives, on ASCII text. *)
Module JsText.

(** White space and line terminators, as [trim] sees them: tab, line
    feed, vertical tab, form feed, carriage return and space. *)
Definition isSpace (c : ascii) : bool :=
  let n := nat_of_ascii c in
  ((9 <=? n)%nat && (n <=? 13)%nat) || (n =? 32)%nat.

Fixpoint trimStart (s : string) : string :=
  match s with
  | EmptyString => EmptyString
  | String c s' => if isSpace c then trimStart s' else s
  end.

Fixpoint trimEnd (s : string) : string :=
  match s with
  | EmptyString => EmptyString
  | String c s' =>
      match trimEnd s' with
      | EmptyString => if isSpace c then EmptyString else String c EmptyString
      | String d r => String c (String d r)
      end
  end.

(** [s.trim()]. *)
Definition trim (s : string) : string := trimEnd (trimStart s).

(** [parts.join("")]. *)
Definition joined (parts : list string) : string := foldr String.append EmptyString parts.

End JsText.

Module Whatsapp.

Definition star : ascii := "*"%char.
Definition lineFeed : ascii := "010"%char.

(** The rest of a match of [\*[^*\n]+\*\n] once the opening star and
    one character of the run are read: the run goes on up to the next
    star, which a line feed must follow. *)
Fixpoint closesHeading (s : string) : bool :=
  match s with
  | EmptyString => false
  | String c s' =>
      if Ascii.eqb c star then
        match s' with
        | String d _ => Ascii.eqb d lineFeed
        | EmptyString => false
        end
      else if Ascii.eqb c lineFeed then false
      else closesHeading s'
  end.

(** [/\*[^*\n]+\*\n/] matches at the start of [s]. *)
Definition headingAt (s : string) : bool :=
  match s with
  | String c0 (String c1 s') =>
      Ascii.eqb c0 star && negb (Ascii.eqb c1 star) && negb (Ascii.eqb c1 lineFeed) &&
      closesHeading s'
  | _ => false
  end.

(** [text.split(/(?=\*[^*\n]+\*\n)/)]: the text is cut before every
    position, other than the start of a piece, at which the pattern
    matches; [current] is the piece read so far. *)
Fixpoint splitBeforeHeadings (current rest : string) : list string :=
  match rest with
  | EmptyString => [current]
  | String c rest' =>
      if headingAt rest && JsString.truthy current then
        current :: splitBeforeHeadings (String c EmptyString) rest'
      else splitBeforeHeadings (String.append current (String c EmptyString)) rest'
  end.

Definition sections (text : string) : list string := splitBeforeHeadings EmptyString text.

(** One turn of the loop over the sections. *)
Definition packSection (maxLength : nat) (st : list string * string) (section : string)
  : list string * string :=
  let '(messages, current) := st in
  if (maxLength <? String.length current + String.length section)%nat then
    ((if JsString.truthy current then messages ++ [JsText.trim current] else messages),
     section)
  else (messages, String.append current section).

(** [splitMessage], for a maximum length that is a natural number. *)
Definition splitMessage (text : string) (maxLength : nat) : list string :=
  if (String.length text <=? maxLength)%nat then [text]
  else
    let '(messages, current) :=
      fold_left (packSection maxLength) (sections text) ([], EmptyString) in
    if JsString.truthy current then messages ++ [JsText.trim current] else messages.

(** A piece of the text fits: it is within the limit, or it is one of
    the sections [all], which are never cut. *)
Definition fits (maxLength : nat) (all : list string) (piece : string) : Prop :=
  (String.length piece <= maxLength)%nat \/ piece ∈ all.

End Whatsapp.

(** ** The sender of a message (src/input/gmail.ts) *)

Module GmailHeaders.

Definition lessThan : ascii := "<"%char.
Definition greaterThan : ascii := ">"%char.

(** What [.] does not match: line feed and carriage return. *)
Definition isLineTerminator (c : ascii) : bool :=
  let n := nat_of_ascii c in (n =? 10)%nat || (n =? 13)%nat.

(** Some character of [s] satisfies [p]. *)
Fixpoint has (p : ascii -> bool) (s : string) : bool :=
  match s with
  | EmptyString => false
  | String c s' => p c || has p s'
  end.

(** The rest of the group of [(.+?)>] once its first character is
    taken: the shortest run of characters of the line that a [>]
    follows. *)
Fixpoint upToClose (s : string) : option string :=
  match s with
  | EmptyString => None
  | String c s' =>
      if Ascii.eqb c greaterThan then Some EmptyString
      else if isLineTerminator c then None
      else option_map (String c) (upToClose s')
  end.

(** The group of [(.+?)>] matched at the start of [s]. *)
Definition group (s : string) : option string :=
  match s with
  | EmptyString => None
  | String c s' =>
      if isLineTerminator c then None else option_map (String c) (upToClose s')
  end.

(** [from.match(/<(.+?)>/)]: the group of the leftmost match. *)
Fixpoint matchAngle (from : string) : option string :=
  match from with
  | EmptyString => None
  | String c s' =>
      if Ascii.eqb c lessThan then
        match group s' with
        | Some g => Some g
        | None => matchAngle s'
        end
      else matchAngle s'
  end.

Definition extractSenderAddress (from : string) : string :=
  JsText.trim
    (toLowerCase
       (match matchAngle from with
        | Some g => g
        | None => from
        end)).

(** Every fetched row carries a sender that [extractSenderAddress]
    produced. *)
Definition sendersExtracted (messages : list (string * option EmailRow)) : Prop :=
  forall msgId row, (msgId, Some row) ∈ messages ->
    exists from, sender row = extractSenderAddress from.

End GmailHeaders.

(** * Properties *)

Import Db Filter.

(** ** Strings *)

Section StringFacts.

Lemma lowerAscii_idem (c : ascii) : lowerAscii (lowerAscii c) = lowerAscii c.
Proof.
  destruct c as [[] [] [] [] [] [] [] []]; reflexivity.
Qed.

Lemma toLowerCase_idem (s : string) : toLowerCase (toLowerCase s) = toLowerCase s.
Proof.
  induction s as [|c s IH]; simpl; [reflexivity|].
  now rewrite lowerAscii_idem, IH.
Qed.

Lemma toLowerCase_append (s t : string) :
  toLowerCase (String.append s t) = String.append (toLowerCase s) (toLowerCase t).
Proof.
  induction s as [|c s IH]; simpl; [reflexivity|]. now rewrite IH.
Qed.

Lemma startsWith_spec (s p : string) :
  startsWith s p = true <-> exists rest, s = String.append p rest.
Proof.
  revert s; induction p as [|b p IH]; intros s; simpl.
  - split; [intros _; now exists s | reflexivity].
  - destruct s as [|a s].
    + split; [discriminate | intros [rest H]; discriminate].
    + destruct (Ascii.eqb_spec a b) as [->|Hne].
      * rewrite IH. split; intros [rest H]; exists rest; [now rewrite H | now inversion H].
      * split; [discriminate | intros [rest H]; inversion H; contradiction].
Qed.

Lemma includes_spec (s sub : string) :
  includes s sub = true <->
  exists before after, s = String.append before (String.append sub after).
Proof.
  induction s as [|a s IH]; simpl.
  - rewrite orb_false_r, startsWith_spec. split.
    + intros [rest H]. now exists EmptyString, rest.
    + intros [before [after H]]. destruct before; [now exists after | discriminate].
  - rewrite orb_true_iff, startsWith_spec, IH. split.
    + intros [[rest H] | [before [after H]]].
      * now exists EmptyString, rest.
      * exists (String a before), after. simpl. now rewrite H.
    + intros [before [after H]]. destruct before as [|b before]; simpl in H.
      * left. now exists after.
      * right. inversion H. now exists before, after.
Qed.

Lemma substringFrom_append (pre suf : string) :
  substringFrom (String.length pre) (String.append pre suf) = suf.
Proof. induction pre as [|c pre IH]; simpl; [now destruct suf | exact IH]. Qed.

Lemma split_at (n : nat) (s : string) :
  s = String.append (substringTo n s) (substringFrom n s).
Proof.
  revert s; induction n as [|n IH]; intros s; [reflexivity|].
  destruct s as [|c s]; simpl; [reflexivity|].
  change (String c s = String c (String.append (substringTo n s) (substringFrom n s))).
  f_equal. apply IH.
Qed.

Lemma length_append (s t : string) :
  String.length (String.append s t) = (String.length s + String.length t)%nat.
Proof. induction s as [|c s IH]; simpl; [reflexivity | now rewrite IH]. Qed.

Lemma endsWith_spec (s suf : string) :
  endsWith s suf = true <-> exists before, s = String.append before suf.
Proof.
  unfold endsWith. rewrite andb_true_iff, Nat.leb_le, String.eqb_eq. split.
  - intros [_ H]. set (n := (String.length s - String.length suf)%nat) in *.
    exists (substringTo n s). rewrite <- H. apply split_at.
  - intros [before ->]. rewrite length_append. split; [lia|].
    replace (String.length before + String.length suf - String.length suf)%nat
      with (String.length before) by lia.
    apply substringFrom_append.
Qed.

Lemma substringTo_length (n : nat) (s : string) :
  (String.length (substringTo n s) <= n)%nat.
Proof.
  revert s; induction n as [|n IH]; intros [|c s]; simpl; try lia.
  specialize (IH s). lia.
Qed.

End StringFacts.

(** ** Sender patterns *)

(** C8. Sender matching depends on the address and the pattern only
    through their lower-case forms; a pattern with a leading [*] matches
    exactly the addresses that end with the rest of the pattern, any other
    pattern matches exactly the addresses equal to it, both ignoring case;
    [*@bank.example] matches [alerts@bank.example] and
    [Alerts@Bank.Example], and neither [bank.example] nor
    [x@notbank.example]. *)
Theorem C8_sender_pattern (address pattern : string) :
  matchesSenderPattern address pattern
    = matchesSenderPattern (toLowerCase address) (toLowerCase pattern)
  /\ (matchesSenderPattern address pattern = true <->
      if startsWith (toLowerCase pattern) "*" then
        exists before,
          toLowerCase address
            = String.append before (substringFrom 1 (toLowerCase pattern))
      else toLowerCase address = toLowerCase pattern)
  /\ matchesSenderPattern "alerts@bank.example" "*@bank.example" = true
  /\ matchesSenderPattern "Alerts@Bank.Example" "*@bank.example" = true
  /\ matchesSenderPattern "bank.example" "*@bank.example" = false
  /\ matchesSenderPattern "x@notbank.example" "*@bank.example" = false.
Proof.
  split; [|split; [|repeat split; reflexivity]].
  - unfold matchesSenderPattern. now rewrite !toLowerCase_idem.
  - unfold matchesSenderPattern.
    destruct (startsWith (toLowerCase pattern) "*").
    + apply endsWith_spec.
    + apply String.eqb_eq.
Qed.

(** ** The classification loop *)

Section ClassifierFacts.

Variable clock : nat -> Z.
Variable defaultRules : DefaultRules.
Variable m : Merged.

Lemma newSet_single (x : string) : newSet [x] = [x].
Proof. reflexivity. Qed.

Lemma getEmailsByIds_single (i : string) (w : World) :
  getEmailsByIds [i] w = match emails w !! i with Some e => [e] | None => [] end.
Proof.
  unfold getEmailsByIds. rewrite newSet_single. simpl.
  destruct (emails w !! i); reflexivity.
Qed.

(** What one iteration does to the world: nothing, or one insert for an
    email that has a row and no classification yet. *)
Lemma classifyStep_world (r : ClassifyResult) (w : World) (i : string) :
  snd (classifyStep clock defaultRules m (r, w) i) = w \/
  (getClassification i w = None /\ is_Some (emails w !! i) /\
   exists c, email_id c = i /\
     snd (classifyStep clock defaultRules m (r, w) i)
       = insertClassification c (setTicks (S (ticks w)) w)).
Proof.
  unfold classifyStep.
  destruct (getClassification i w) eqn:Hc; [now left|].
  rewrite getEmailsByIds_single.
  destruct (emails w !! i) as [e|] eqn:He; [|now left].
  right. split; [reflexivity|]. split; [now exists e|].
  unfold dateNow.
  repeat match goal with |- context [if ?b then _ else _] => destruct b end;
    simpl; eexists; (split; [|reflexivity]); reflexivity.
Qed.

Lemma classifyStep_keeps (r : ClassifyResult) (w : World) (i j : string)
    (c : ClassificationRow) :
  getClassification j w = Some c ->
  getClassification j (snd (classifyStep clock defaultRules m (r, w) i)) = Some c.
Proof.
  intros Hj.
  destruct (classifyStep_world r w i) as [E | (Hi & _ & c' & Hid & E)];
    rewrite E; [exact Hj|].
  unfold getClassification, insertClassification in *. simpl.
  rewrite lookup_insert_ne; [exact Hj|]. congruence.
Qed.

Lemma classifyStep_other (r : ClassifyResult) (w : World) (i j : string) :
  i <> j ->
  getClassification j (snd (classifyStep clock defaultRules m (r, w) i))
    = getClassification j w.
Proof.
  intros Hne.
  destruct (classifyStep_world r w i) as [E | (_ & _ & c' & Hid & E)];
    rewrite E; [reflexivity|].
  unfold getClassification, insertClassification. simpl.
  rewrite lookup_insert_ne; [reflexivity | congruence].
Qed.

Lemma classifyStep_frame (r : ClassifyResult) (w : World) (i : string) :
  emails (snd (classifyStep clock defaultRules m (r, w) i)) = emails w /\
  briefings (snd (classifyStep clock defaultRules m (r, w) i)) = briefings w /\
  pipeline_runs (snd (classifyStep clock defaultRules m (r, w) i)) = pipeline_runs w /\
  rulesUser (snd (classifyStep clock defaultRules m (r, w) i)) = rulesUser w.
Proof.
  destruct (classifyStep_world r w i) as [E | (_ & _ & c' & _ & E)];
    rewrite E; now repeat split.
Qed.

Lemma classifyStep_absent (r : ClassifyResult) (w : World) (i j : string) :
  getClassification j w = None -> emails w !! j = None ->
  getClassification j (snd (classifyStep clock defaultRules m (r, w) i)) = None.
Proof.
  intros Hc He.
  destruct (classifyStep_world r w i) as [E | (_ & [e Hi] & c' & Hid & E)];
    rewrite E; [exact Hc|].
  unfold getClassification, insertClassification in *. simpl.
  rewrite lookup_insert_ne; [exact Hc | congruence].
Qed.

(** The iteration for an email that has a row and no classification
    writes the row of the first matching tier. *)
Lemma classifyStep_fresh (r : ClassifyResult) (w : World) (i : string) (e : EmailRow) :
  getClassification i w = None -> emails w !! i = Some e ->
  classifyStep clock defaultRules m (r, w) i
    = (counted (Tiers.relevant (Tiers.firstMatch m e)) i r,
       insertClassification
         (Tiers.rowOf defaultRules i e (Tiers.firstMatch m e) (clock (ticks w)))
         (setTicks (S (ticks w)) w)).
Proof.
  intros Hc He. unfold classifyStep. rewrite Hc, getEmailsByIds_single, He.
  unfold Tiers.firstMatch, Tiers.inOrder, dateNow. simpl.
  destruct (matchesSenderList (sender e) (ignoreSenders m)); [reflexivity|].
  destruct (matchesSenderList (sender e) (financialSenders m)); [reflexivity|].
  destruct (containsKeyword (subject e) (subjectKeywords m)); [reflexivity|].
  destruct (bodyCheck e (bodyKeywords m)); reflexivity.
Qed.

Lemma loop_cons (i : string) (ids : list string) (st : ClassifyResult * World) :
  classifyLoop clock defaultRules m (i :: ids) st = classifyLoop clock defaultRules m ids (classifyStep clock defaultRules m st i).
Proof. reflexivity. Qed.

Lemma loop_keeps (ids : list string) (r : ClassifyResult) (w : World) (j : string)
    (c : ClassificationRow) :
  getClassification j w = Some c ->
  getClassification j (snd (classifyLoop clock defaultRules m ids (r, w))) = Some c.
Proof.
  revert r w; induction ids as [|i ids IH]; intros r w Hj; [exact Hj|].
  rewrite loop_cons.
  pose proof (classifyStep_keeps r w i j c Hj) as H.
  destruct (classifyStep clock defaultRules m (r, w) i) as [r' w'].
  now apply IH.
Qed.

Lemma loop_absent (ids : list string) (r : ClassifyResult) (w : World) (j : string) :
  getClassification j w = None -> emails w !! j = None ->
  getClassification j (snd (classifyLoop clock defaultRules m ids (r, w))) = None.
Proof.
  revert r w; induction ids as [|i ids IH]; intros r w Hc He; [exact Hc|].
  rewrite loop_cons.
  pose proof (classifyStep_absent r w i j Hc He) as H1.
  pose proof (classifyStep_frame r w i) as (H2 & _).
  destruct (classifyStep clock defaultRules m (r, w) i) as [r' w'].
  simpl in H1, H2. apply IH; [exact H1 | now rewrite H2].
Qed.

Lemma loop_frame (ids : list string) (r : ClassifyResult) (w : World) :
  emails (snd (classifyLoop clock defaultRules m ids (r, w))) = emails w /\
  briefings (snd (classifyLoop clock defaultRules m ids (r, w))) = briefings w /\
  pipeline_runs (snd (classifyLoop clock defaultRules m ids (r, w))) = pipeline_runs w /\
  rulesUser (snd (classifyLoop clock defaultRules m ids (r, w))) = rulesUser w.
Proof.
  revert r w; induction ids as [|i ids IH]; intros r w; [now repeat split|].
  rewrite loop_cons.
  pose proof (classifyStep_frame r w i) as (H1 & H2 & H3 & H4).
  destruct (classifyStep clock defaultRules m (r, w) i) as [r' w'].
  simpl in H1, H2, H3, H4.
  destruct (IH r' w') as (I1 & I2 & I3 & I4).
  repeat split; congruence.
Qed.

(** The first occurrence of an email that has a row and no
    classification decides its row, whatever follows in the list. *)
Lemma loop_decides (ids : list string) (r : ClassifyResult) (w : World) (i : string)
    (e : EmailRow) :
  i ∈ ids -> getClassification i w = None -> emails w !! i = Some e ->
  exists at_,
    getClassification i (snd (classifyLoop clock defaultRules m ids (r, w)))
      = Some (Tiers.rowOf defaultRules i e (Tiers.firstMatch m e) at_).
Proof.
  revert r w; induction ids as [|k ids IH]; intros r w Hin Hc He.
  - now apply not_elem_of_nil in Hin.
  - rewrite loop_cons. destruct (decide (k = i)) as [->|Hne].
    + rewrite (classifyStep_fresh r w i e Hc He).
      exists (clock (ticks w)). apply loop_keeps.
      unfold getClassification, insertClassification. simpl.
      apply lookup_insert_eq.
    + pose proof (classifyStep_other r w k i Hne) as H1.
      pose proof (classifyStep_frame r w k) as (H2 & _).
      destruct (classifyStep clock defaultRules m (r, w) k) as [r' w'].
      simpl in H1, H2. apply IH.
      * apply elem_of_cons in Hin as [Hin|Hin]; [congruence | exact Hin].
      * now rewrite H1.
      * now rewrite H2.
Qed.

Lemma classifyStep_total (r : ClassifyResult) (w : World) (i : string) :
  total (fst (classifyStep clock defaultRules m (r, w) i))
    = total r + (if Tiers.handled w i then 1 else 0).
Proof.
  unfold Tiers.handled. destruct (getClassification i w) as [c|] eqn:Hc.
  - unfold classifyStep. rewrite Hc. simpl.
    destruct (negb (is_financial c =? 0)); reflexivity.
  - destruct (emails w !! i) as [e|] eqn:He.
    + rewrite (classifyStep_fresh r w i e Hc He). simpl.
      destruct (Tiers.relevant (Tiers.firstMatch m e)); reflexivity.
    + unfold classifyStep. rewrite Hc, getEmailsByIds_single, He. simpl. lia.
Qed.

Lemma classifyStep_handled (r : ClassifyResult) (w : World) (i j : string) :
  Tiers.handled (snd (classifyStep clock defaultRules m (r, w) i)) j = Tiers.handled w j.
Proof.
  pose proof (classifyStep_frame r w i) as (He & _).
  unfold Tiers.handled. rewrite He.
  destruct (classifyStep_world r w i) as [E | (Hc & [e Hi] & c' & Hid & E)];
    rewrite E; [reflexivity|].
  unfold getClassification, insertClassification in *. simpl.
  destruct (decide (i = j)) as [<-|Hne].
  - rewrite Hid, lookup_insert_eq, Hc, Hi. reflexivity.
  - rewrite lookup_insert_ne; [reflexivity | congruence].
Qed.

Lemma loop_total (ids : list string) (r : ClassifyResult) (w : World) :
  total (fst (classifyLoop clock defaultRules m ids (r, w)))
    = total r + Z.of_nat (length (List.filter (Tiers.handled w) ids)).
Proof.
  revert r w; induction ids as [|i ids IH]; intros r w; [simpl; lia|].
  rewrite loop_cons.
  pose proof (classifyStep_total r w i) as Ht.
  assert (Hh : forall j, Tiers.handled (snd (classifyStep clock defaultRules m (r, w) i)) j
                         = Tiers.handled w j) by (intros j; apply classifyStep_handled).
  destruct (classifyStep clock defaultRules m (r, w) i) as [r' w'].
  simpl in Ht, Hh. rewrite IH, Ht.
  rewrite (List.filter_ext _ _ Hh). simpl.
  destruct (Tiers.handled w i); simpl length; lia.
Qed.

End ClassifierFacts.

(** ** The classifier *)

Lemma classifyEmails_loop (clock : nat -> Z) (defaultRules : DefaultRules)
    (ids : list string) (w : World) :
  classifyEmails clock defaultRules ids w
    = classifyLoop clock defaultRules (mergeRules defaultRules (rulesUser w)) ids
        ({| total := 0; financialCount := 0; financialEmailIds := []; tokensUsed := 0 |}, w).
Proof. reflexivity. Qed.

Lemma firstMatch_first (m : Merged) (email : EmailRow) :
  Tiers.matches m email (Tiers.firstMatch m email) = true /\
  forall t, (Tiers.rank t < Tiers.rank (Tiers.firstMatch m email))%nat ->
            Tiers.matches m email t = false.
Proof.
  unfold Tiers.firstMatch, Tiers.inOrder. simpl.
  destruct (matchesSenderList (sender email) (ignoreSenders m)) eqn:H1;
    [split; [exact H1 | intros [] Hr; simpl in Hr; lia]|].
  destruct (matchesSenderList (sender email) (financialSenders m)) eqn:H2;
    [split; [exact H2 | intros [] Hr; simpl in Hr; try lia; assumption]|].
  destruct (containsKeyword (subject email) (subjectKeywords m)) eqn:H3;
    [split; [exact H3 | intros [] Hr; simpl in Hr; try lia; assumption]|].
  destruct (bodyCheck email (bodyKeywords m)) eqn:H4;
    (split; [first [exact H4 | reflexivity] | intros [] Hr; simpl in Hr; try lia; assumption]).
Qed.

Lemma firstMatch_ignore (m : Merged) (email : EmailRow) :
  matchesSenderList (sender email) (ignoreSenders m) = true ->
  Tiers.firstMatch m email = Tiers.IgnoreSender.
Proof.
  intros H. unfold Tiers.firstMatch, Tiers.inOrder, List.find, Tiers.matches.
  now rewrite H.
Qed.

(** C1. A message that has a row and no stored classification gets the
    row of the first tier that matches it in the order ignore-sender,
    relevant-sender, subject keyword, body keyword, no-match: that tier
    matches and no earlier tier does.  In particular a sender on both the
    ignore list and the relevant list is stored as not relevant with
    confidence 1.0. *)
Theorem C1_tiers_in_order (clock : nat -> Z) (defaultRules : DefaultRules)
    (ids : list string) (w : World) (emailId : string) (email : EmailRow) :
  emailId ∈ ids ->
  getClassification emailId w = None ->
  emails w !! emailId = Some email ->
  let m := mergeRules defaultRules (rulesUser w) in
  let tier := Tiers.firstMatch m email in
  exists c,
    getClassification emailId (snd (classifyEmails clock defaultRules ids w)) = Some c /\
    (exists at_, c = Tiers.rowOf defaultRules emailId email tier at_) /\
    Tiers.matches m email tier = true /\
    (forall t, (Tiers.rank t < Tiers.rank tier)%nat -> Tiers.matches m email t = false) /\
    is_financial c = (if Tiers.relevant tier then 1 else 0) /\
    confidence c = Tiers.confidenceOf tier /\
    (matchesSenderList (sender email) (ignoreSenders m) = true ->
     matchesSenderList (sender email) (financialSenders m) = true ->
     is_financial c = 0 /\ confidence c = 1.0%Q).
Proof.
  intros Hin Hc He m tier.
  destruct (loop_decides clock defaultRules m ids
              {| total := 0; financialCount := 0; financialEmailIds := []; tokensUsed := 0 |}
              w emailId email Hin Hc He) as [at_ Hrow].
  exists (Tiers.rowOf defaultRules emailId email tier at_).
  destruct (firstMatch_first m email) as [Hm Hfirst].
  split; [exact Hrow|]. split; [now exists at_|]. split; [exact Hm|].
  split; [exact Hfirst|]. split; [reflexivity|]. split; [reflexivity|].
  intros Hi _.
  assert (Ht : tier = Tiers.IgnoreSender) by (apply firstMatch_ignore; exact Hi).
  rewrite Ht. split; reflexivity.
Qed.

Lemma bodyCheck_counted (email : EmailRow) (keywords : list string) :
  bodyCheck email keywords = (2 <=? Tiers.countedHits email keywords).
Proof.
  unfold bodyCheck, Tiers.countedHits.
  destruct (body_text email) as [body|]; [|reflexivity].
  destruct (truthy body); reflexivity.
Qed.

Lemma firstMatch_body (m : Merged) (email : EmailRow) :
  Tiers.matches m email Tiers.IgnoreSender = false ->
  Tiers.matches m email Tiers.RelevantSender = false ->
  Tiers.matches m email Tiers.SubjectKeyword = false ->
  Tiers.firstMatch m email
    = if 2 <=? Tiers.countedHits email (bodyKeywords m)
      then Tiers.BodyKeyword else Tiers.NoMatch.
Proof.
  intros H1 H2 H3. unfold Tiers.firstMatch, Tiers.inOrder, List.find.
  rewrite H1, H2, H3. unfold Tiers.matches. rewrite bodyCheck_counted.
  destruct (2 <=? Tiers.countedHits email (bodyKeywords m)); reflexivity.
Qed.

Lemma uniqFrom_fresh (seen l : list string) :
  NoDup l -> (forall x, x ∈ l -> x ∉ seen) -> uniqFrom seen l = l.
Proof.
  revert seen; induction l as [|x l IH]; intros seen Hnd Hfresh; [reflexivity|].
  simpl. apply NoDup_cons in Hnd as [Hx Hnd].
  rewrite bool_decide_eq_false_2 by (apply Hfresh; left).
  f_equal. apply IH; [exact Hnd|].
  intros y Hy Hin. apply elem_of_cons in Hin as [->|Hin]; [contradiction|].
  apply (Hfresh y); [now right | exact Hin].
Qed.

Lemma filter_NoDup (f : string -> bool) (l : list string) :
  NoDup l -> NoDup (List.filter f l).
Proof.
  induction 1 as [|x l Hx Hnd IH]; simpl; [constructor|].
  destruct (f x); [|exact IH].
  constructor; [|exact IH].
  rewrite list_elem_of_In, List.filter_In, <- list_elem_of_In. tauto.
Qed.

Lemma entryHits_distinct (body : string) (keywords : list string) :
  NoDup keywords -> Tiers.entryHits body keywords = Tiers.distinctHits body keywords.
Proof.
  intros Hnd. unfold Tiers.entryHits, Tiers.distinctHits, newSet.
  rewrite uniqFrom_fresh; [reflexivity | now apply filter_NoDup |].
  intros x _ Hin. now apply not_elem_of_nil in Hin.
Qed.

(** C5 as amended. For a message that reaches the body-keyword tier, the
    hits counted are the entries of the merged body-keyword list that,
    lower-cased, occur in the lower-cased first 1500 characters of a
    non-empty body, an entry counting as often as the list holds it: two
    or more counted hits store the message as relevant with confidence
    0.70, at most one stores it as not relevant with confidence 0.80.  When
    no entry of the list is repeated, the counted hits are the distinct
    keywords that hit. *)
Theorem C5_body_hits_counted (clock : nat -> Z) (defaultRules : DefaultRules)
    (ids : list string) (w : World) (emailId : string) (email : EmailRow) :
  emailId ∈ ids ->
  getClassification emailId w = None ->
  emails w !! emailId = Some email ->
  let m := mergeRules defaultRules (rulesUser w) in
  Tiers.matches m email Tiers.IgnoreSender = false ->
  Tiers.matches m email Tiers.RelevantSender = false ->
  Tiers.matches m email Tiers.SubjectKeyword = false ->
  exists c,
    getClassification emailId (snd (classifyEmails clock defaultRules ids w)) = Some c /\
    (2 <= Tiers.countedHits email (bodyKeywords m) ->
     is_financial c = 1 /\ confidence c = 0.7%Q) /\
    (Tiers.countedHits email (bodyKeywords m) <= 1 ->
     is_financial c = 0 /\ confidence c = 0.8%Q) /\
    (NoDup (bodyKeywords m) ->
     forall body, Tiers.entryHits body (bodyKeywords m)
                  = Tiers.distinctHits body (bodyKeywords m)).
Proof.
  intros Hin Hc He m H1 H2 H3.
  destruct (loop_decides clock defaultRules m ids
              {| total := 0; financialCount := 0; financialEmailIds := []; tokensUsed := 0 |}
              w emailId email Hin Hc He) as [at_ Hrow].
  rewrite (firstMatch_body m email H1 H2 H3) in Hrow.
  eexists. split; [exact Hrow|].
  split; [|split].
  - intros Hn. apply Z.leb_le in Hn. rewrite Hn. split; reflexivity.
  - intros Hn.
    destruct (2 <=? Tiers.countedHits email (bodyKeywords m)) eqn:Hb;
      [apply Z.leb_le in Hb; lia|]. split; reflexivity.
  - intros Hnd body. now apply entryHits_distinct.
Qed.

Lemma codeTag_classes (t t' : Tiers.Tier) :
  Tiers.codeTag t' = Tiers.codeTag t ->
  t' = t \/
  (t = Tiers.SubjectKeyword /\ t' = Tiers.BodyKeyword) \/
  (t = Tiers.BodyKeyword /\ t' = Tiers.SubjectKeyword).
Proof. destruct t, t'; simpl; intros H; try discriminate H; tauto. Qed.

Lemma codeTag_confidence (t t' : Tiers.Tier) :
  Tiers.codeTag t' = Tiers.codeTag t -> Tiers.confidenceOf t' = Tiers.confidenceOf t ->
  t' = t.
Proof. destruct t, t'; simpl; intros H H'; try discriminate H; try discriminate H'; reflexivity. Qed.

(** C6 as amended. The row stored for a message carries the tag of the
    tier that fired: [rules_ignore] for tier 1, [rules_sender] for tier 2,
    [rules_keyword] for tier 3 and for tier 4 alike, [rules_no_match] for
    tier 5.  The tag tells the tier apart from every other tier except
    that the subject-keyword and the body-keyword tier share one tag; the
    tag together with the confidence identifies the tier. *)
Theorem C6_decided_by_tag (clock : nat -> Z) (defaultRules : DefaultRules)
    (ids : list string) (w : World) (emailId : string) (email : EmailRow) :
  emailId ∈ ids ->
  getClassification emailId w = None ->
  emails w !! emailId = Some email ->
  let tier := Tiers.firstMatch (mergeRules defaultRules (rulesUser w)) email in
  exists c,
    getClassification emailId (snd (classifyEmails clock defaultRules ids w)) = Some c /\
    classified_by c
      = match tier with
        | Tiers.IgnoreSender => "rules_ignore"
        | Tiers.RelevantSender => "rules_sender"
        | Tiers.SubjectKeyword => "rules_keyword"
        | Tiers.BodyKeyword => "rules_keyword"
        | Tiers.NoMatch => "rules_no_match"
        end /\
    (forall t, Tiers.codeTag t = classified_by c ->
       t = tier \/
       (tier = Tiers.SubjectKeyword /\ t = Tiers.BodyKeyword) \/
       (tier = Tiers.BodyKeyword /\ t = Tiers.SubjectKeyword)) /\
    (forall t, Tiers.codeTag t = classified_by c ->
               Tiers.confidenceOf t = confidence c -> t = tier).
Proof.
  intros Hin Hc He tier.
  destruct (loop_decides clock defaultRules (mergeRules defaultRules (rulesUser w)) ids
              {| total := 0; financialCount := 0; financialEmailIds := []; tokensUsed := 0 |}
              w emailId email Hin Hc He) as [at_ Hrow].
  eexists. split; [exact Hrow|]. fold tier. simpl.
  split; [now destruct tier|]. split.
  - intros t. apply codeTag_classes.
  - intros t. apply codeTag_confidence.
Qed.

(** C7. An id with a stored classification is not classified again: the
    classifier run on it leaves the whole world as it was, counts it once
    and reports it as relevant exactly when the stored flag says so; and
    whatever list of ids the classifier is run on, the stored relevance,
    category, confidence, tag and time of that id stay as they were. *)
Theorem C7_replay_keeps_stored (clock : nat -> Z) (defaultRules : DefaultRules)
    (w : World) (emailId : string) (c : ClassificationRow) :
  getClassification emailId w = Some c ->
  snd (classifyEmails clock defaultRules [emailId] w) = w /\
  total (fst (classifyEmails clock defaultRules [emailId] w)) = 1 /\
  financialEmailIds (fst (classifyEmails clock defaultRules [emailId] w))
    = (if is_financial c =? 0 then [] else [emailId]) /\
  forall ids,
    getClassification emailId (snd (classifyEmails clock defaultRules ids w)) = Some c.
Proof.
  intros Hc. repeat split.
  - unfold classifyEmails, classifyLoop, fold_left, classifyStep. now rewrite Hc.
  - unfold classifyEmails, classifyLoop, fold_left, classifyStep. rewrite Hc.
    simpl. now destruct (is_financial c =? 0).
  - unfold classifyEmails, classifyLoop, fold_left, classifyStep. rewrite Hc.
    simpl. now destruct (is_financial c =? 0).
  - intros ids. rewrite classifyEmails_loop. now apply loop_keeps.
Qed.

Lemma filter_shorter (f : string -> bool) (l : list string) (x : string) :
  x ∈ l -> f x = false -> (length (List.filter f l) < length l)%nat.
Proof.
  intros Hin Hf. induction l as [|y l IH]; [now apply not_elem_of_nil in Hin|].
  simpl. pose proof (List.filter_length_le f l) as Hle.
  apply elem_of_cons in Hin as [<-|Hin].
  - rewrite Hf. lia.
  - specialize (IH Hin). destruct (f y); simpl; lia.
Qed.

(** C10. An id with neither a stored classification nor an email row is
    skipped: no classification is written for it, and the returned total
    counts only the ids that have one of the two, so it is strictly less
    than the length of the input list. *)
Theorem C10_missing_row_skipped (clock : nat -> Z) (defaultRules : DefaultRules)
    (ids : list string) (w : World) (emailId : string) :
  emailId ∈ ids ->
  getClassification emailId w = None ->
  emails w !! emailId = None ->
  getClassification emailId (snd (classifyEmails clock defaultRules ids w)) = None /\
  total (fst (classifyEmails clock defaultRules ids w))
    = Z.of_nat (length (List.filter (Tiers.handled w) ids)) /\
  total (fst (classifyEmails clock defaultRules ids w)) < Z.of_nat (length ids).
Proof.
  intros Hin Hc He. rewrite classifyEmails_loop.
  split; [now apply loop_absent|].
  rewrite loop_total. simpl total. split; [lia|].
  assert (Hh : Tiers.handled w emailId = false)
    by (unfold Tiers.handled; now rewrite Hc, He).
  pose proof (filter_shorter (Tiers.handled w) ids emailId Hin Hh). lia.
Qed.

(** ** The inference call *)

Section RetryFacts.

Import LlmInterface.

Variable request : Z -> Result LLMResponse.
Variable maxRetries : Z.

Lemma attemptLoop_decides (n : nat) :
  forall (fuel : nat) (attempt : Z) (slept : list Z) (k : nat),
    attempt = Z.of_nat k ->
    (n < fuel)%nat ->
    attempt + Z.of_nat n <= maxRetries ->
    (forall i, (i < n)%nat -> decisive request maxRetries (attempt + Z.of_nat i) = false) ->
    decisive request maxRetries (attempt + Z.of_nat n) = true ->
    exists delays,
      attemptLoop fuel request maxRetries attempt slept
        = Some (request (attempt + Z.of_nat n), slept ++ delays) /\
      backoff (k + n) = backoff k ++ delays.
Proof.
  induction n as [|n IH]; intros fuel attempt slept k Hk Hfuel Hle Hbefore Hdec.
  - destruct fuel as [|fuel]; [lia|]. simpl.
    replace (attempt + Z.of_nat 0) with attempt in * by lia.
    exists []. rewrite !app_nil_r, Nat.add_0_r. split; [|reflexivity].
    assert (Hc : (attempt <=? maxRetries) = true) by (apply Z.leb_le; lia).
    rewrite Hc. unfold decisive in Hdec.
    destruct (request attempt) as [r|e]; [reflexivity|]. now rewrite Hdec.
  - destruct fuel as [|fuel]; [lia|]. simpl.
    assert (Hc : (attempt <=? maxRetries) = true) by (apply Z.leb_le; lia).
    rewrite Hc.
    pose proof (Hbefore 0%nat ltac:(lia)) as H0.
    replace (attempt + Z.of_nat 0) with attempt in H0 by lia.
    unfold decisive in H0. destruct (request attempt) as [r|e]; [discriminate|].
    rewrite H0.
    destruct (IH fuel (attempt + 1) (slept ++ [2 ^ attempt * 1000]) (S k))
      as (delays & Hrun & Hback); try lia.
    + intros i Hi. replace (attempt + 1 + Z.of_nat i) with (attempt + Z.of_nat (S i)) by lia.
      apply Hbefore. lia.
    + now replace (attempt + 1 + Z.of_nat n) with (attempt + Z.of_nat (S n)) by lia.
    + exists ((2 ^ attempt * 1000) :: delays).
      replace (attempt + Z.of_nat (S n)) with (attempt + 1 + Z.of_nat n) by lia.
      split.
      * rewrite Hrun. now rewrite <- app_assoc.
      * replace (k + S n)%nat with (S k + n)%nat by lia. rewrite Hback. simpl.
        rewrite <- app_assoc. simpl. now rewrite Hk.
Qed.

Lemma attemptLoop_total (n : nat) :
  forall (fuel : nat) (attempt : Z) (slept : list Z),
    (n < fuel)%nat -> maxRetries - attempt < Z.of_nat n ->
    exists out, attemptLoop fuel request maxRetries attempt slept = Some out.
Proof.
  induction n as [|n IH]; intros fuel attempt slept Hfuel Hrem.
  - destruct fuel as [|fuel]; [lia|]. simpl.
    assert (Hc : (attempt <=? maxRetries) = false) by (apply Z.leb_gt; lia).
    rewrite Hc. now eexists.
  - destruct fuel as [|fuel]; [lia|]. simpl.
    destruct (attempt <=? maxRetries); [|now eexists].
    destruct (request attempt) as [r|e]; [now eexists|].
    destruct (negb (isRetryable e) || (attempt =? maxRetries)); [now eexists|].
    apply IH; lia.
Qed.

End RetryFacts.

Lemma backoff_length (n : nat) : length (LlmInterface.backoff n) = n.
Proof. induction n as [|n IH]; simpl; [reflexivity|]. rewrite length_app, IH. simpl. lia. Qed.

Lemma backoff_lookup (n i : nat) (d : Z) :
  LlmInterface.backoff n !! i = Some d -> d = 2 ^ Z.of_nat i * 1000.
Proof.
  induction n as [|n IH]; simpl; intros H; [discriminate|].
  destruct (decide (i < n)%nat) as [Hlt|Hge].
  - rewrite lookup_app_l in H by (now rewrite backoff_length). now apply IH.
  - rewrite lookup_app_r in H by (rewrite backoff_length; lia).
    rewrite backoff_length in H.
    destruct (i - n)%nat as [|j] eqn:Hj; simpl in H; [|discriminate].
    assert (i = n) by lia. subst i. now inversion H.
Qed.

Lemma callLLM_decides (request : Z -> Result LlmInterface.LLMResponse)
    (maxRetries : Z) (n : nat) :
  Z.of_nat n <= maxRetries ->
  (forall i, (i < n)%nat ->
     exists e, request (Z.of_nat i) = Throw e /\ LlmInterface.isRetryable e = true) ->
  LlmInterface.decisive request maxRetries (Z.of_nat n) = true ->
  LlmInterface.callLLM (Ok tt) request maxRetries
    = Some (request (Z.of_nat n), LlmInterface.backoff n).
Proof.
  intros Hle Hretry Hdec. unfold LlmInterface.callLLM.
  destruct (attemptLoop_decides request maxRetries n
              (S (Z.to_nat (maxRetries + 1))) 0 [] 0%nat)
    as (delays & Hrun & Hback); try lia.
  - intros i Hi. destruct (Hretry i Hi) as (e & He & Hr).
    rewrite Z.add_0_l. unfold LlmInterface.decisive. rewrite He, Hr.
    apply Z.eqb_neq. lia.
  - now rewrite Z.add_0_l.
  - rewrite Z.add_0_l in Hrun. rewrite Hrun. simpl in Hback. now rewrite Hback.
Qed.

(** C4. When the first [n] attempts fail with retryable errors and
    attempt [n] (within the cap) returns, or throws an error that is not
    retryable, or is the last attempt the cap allows, the call ends with
    exactly what attempt [n] did, a thrown error unchanged, after sleeping
    1000 ms, 2000 ms, 4000 ms and so on, each delay twice the one
    before, once per retry.  The call always ends.  Three retryable
    failures followed by a success return the success when the cap is at
    least 4; with a cap of 2, three retryable failures end with the third
    error. *)
Theorem C4_retry_with_backoff (request : Z -> Result LlmInterface.LLMResponse)
    (maxRetries : Z) (n : nat) :
  Z.of_nat n <= maxRetries ->
  (forall i, (i < n)%nat ->
     exists e, request (Z.of_nat i) = Throw e /\ LlmInterface.isRetryable e = true) ->
  LlmInterface.decisive request maxRetries (Z.of_nat n) = true ->
  LlmInterface.callLLM (Ok tt) request maxRetries
    = Some (request (Z.of_nat n), LlmInterface.backoff n) /\
  length (LlmInterface.backoff n) = n /\
  (forall d, LlmInterface.backoff n !! 0%nat = Some d -> d = 1000) /\
  (forall i d d', LlmInterface.backoff n !! i = Some d ->
                  LlmInterface.backoff n !! S i = Some d' -> d' = 2 * d) /\
  (forall provider req cap, exists out, LlmInterface.callLLM provider req cap = Some out) /\
  (forall req cap e1 e2 e3 r,
     4 <= cap ->
     req 0 = Throw e1 -> LlmInterface.isRetryable e1 = true ->
     req 1 = Throw e2 -> LlmInterface.isRetryable e2 = true ->
     req 2 = Throw e3 -> LlmInterface.isRetryable e3 = true ->
     req 3 = Ok r ->
     LlmInterface.callLLM (Ok tt) req cap = Some (Ok r, [1000; 2000; 4000])) /\
  (forall req e1 e2 e3,
     req 0 = Throw e1 -> LlmInterface.isRetryable e1 = true ->
     req 1 = Throw e2 -> LlmInterface.isRetryable e2 = true ->
     req 2 = Throw e3 -> LlmInterface.isRetryable e3 = true ->
     LlmInterface.callLLM (Ok tt) req 2 = Some (Throw e3, [1000; 2000])).
Proof.
  intros Hle Hretry Hdec.
  split; [now apply callLLM_decides|].
  split; [apply backoff_length|].
  split; [intros d H; now apply backoff_lookup in H|].
  split.
  { intros i d d' H H'. apply backoff_lookup in H, H'. subst.
    replace (Z.of_nat (S i)) with (Z.of_nat i + 1) by lia.
    rewrite Z.pow_add_r by lia. lia. }
  split.
  { intros [u|e] req cap; unfold LlmInterface.callLLM; [|now eexists].
    apply (attemptLoop_total req cap (Z.to_nat (cap + 1))); lia. }
  split.
  - intros req cap e1 e2 e3 r Hcap H0 R0 H1 R1 H2 R2 H3.
    rewrite (callLLM_decides req cap 3).
    + change (Z.of_nat 3) with 3. now rewrite H3.
    + lia.
    + intros [|[|[|i]]] Hi; try lia.
      * change (Z.of_nat 0) with 0. eauto.
      * change (Z.of_nat 1) with 1. eauto.
      * change (Z.of_nat 2) with 2. eauto.
    + unfold LlmInterface.decisive. change (Z.of_nat 3) with 3. now rewrite H3.
  - intros req e1 e2 e3 H0 R0 H1 R1 H2 R2.
    rewrite (callLLM_decides req 2 2).
    + change (Z.of_nat 2) with 2. now rewrite H2.
    + lia.
    + intros [|[|i]] Hi; try lia.
      * change (Z.of_nat 0) with 0. eauto.
      * change (Z.of_nat 1) with 1. eauto.
    + unfold LlmInterface.decisive. change (Z.of_nat 2) with 2. rewrite H2.
      apply orb_true_r.
Qed.

(** ** The pipeline run *)

Section PipelineFacts.

Import Pipeline.

(** *** What each stage leaves alone *)

Ltac case_all :=
  repeat match goal with
         | |- context [match ?x with _ => _ end] => destruct x eqn:?
         end.

Lemma buildOrganicFilter_frame (clock : nat -> Z) (dr : DefaultRules) (llm : Inference)
    (w : World) :
  pipeline_runs (snd (buildOrganicFilter clock dr llm w)) = pipeline_runs w /\
  briefings (snd (buildOrganicFilter clock dr llm w)) = briefings w /\
  emails (snd (buildOrganicFilter clock dr llm w)) = emails w /\
  classifications (snd (buildOrganicFilter clock dr llm w)) = classifications w.
Proof.
  unfold buildOrganicFilter, dateNow. case_all; simpl; repeat split; reflexivity.
Qed.

Lemma refreshFilter_frame (clock : nat -> Z) (cfg : AppConfig) (dr : DefaultRules)
    (llm : Inference) (w : World) :
  pipeline_runs (snd (refreshFilter clock cfg dr llm w)) = pipeline_runs w /\
  briefings (snd (refreshFilter clock cfg dr llm w)) = briefings w /\
  emails (snd (refreshFilter clock cfg dr llm w)) = emails w /\
  classifications (snd (refreshFilter clock cfg dr llm w)) = classifications w.
Proof.
  unfold refreshFilter.
  destruct (rulesUser w); [|apply buildOrganicFilter_frame].
  unfold dateNow. case_all; simpl; repeat split; reflexivity.
Qed.

Lemma classifyEmails_frame (clock : nat -> Z) (dr : DefaultRules) (ids : list string)
    (w : World) :
  pipeline_runs (snd (classifyEmails clock dr ids w)) = pipeline_runs w /\
  briefings (snd (classifyEmails clock dr ids w)) = briefings w.
Proof.
  rewrite classifyEmails_loop.
  destruct (loop_frame clock dr (mergeRules dr (rulesUser w)) ids
              {| total := 0; financialCount := 0; financialEmailIds := []; tokensUsed := 0 |} w)
    as (_ & H1 & H2 & _).
  now split.
Qed.

Lemma insertEmail_frame (e : EmailRow) (w : World) :
  pipeline_runs (insertEmail e w) = pipeline_runs w /\
  briefings (insertEmail e w) = briefings w.
Proof. unfold insertEmail. destruct (emails w !! id e); now split. Qed.

Lemma fetchMessagesBatched_frame (clock : nat -> Z) (msgs : list (string * option EmailRow)) :
  forall (n : Z) (w : World),
    pipeline_runs (snd (fetchMessagesBatched clock msgs n w)) = pipeline_runs w /\
    briefings (snd (fetchMessagesBatched clock msgs n w)) = briefings w.
Proof.
  induction msgs as [|[msgId fetched] msgs IH]; intros n w; [now split|].
  simpl. destruct (emailExists msgId w); [apply IH|].
  destruct fetched as [row|]; [|apply IH].
  unfold dateNow.
  destruct (IH (n + 1) (insertEmail (withFetchedAt (clock (ticks w)) row)
                          (setTicks (S (ticks w)) w))) as [H1 H2].
  destruct (insertEmail_frame (withFetchedAt (clock (ticks w)) row)
              (setTicks (S (ticks w)) w)) as [H3 H4].
  simpl in H3, H4. split; [now rewrite H1, H3 | now rewrite H2, H4].
Qed.

Lemma fetchEmails_frame (env : Env) (w : World) :
  pipeline_runs (snd (fetchEmails env w)) = pipeline_runs w /\
  briefings (snd (fetchEmails env w)) = briefings w.
Proof.
  unfold fetchEmails. destruct (gmail env) as [e|msgs profile]; [now split|].
  pose proof (fetchMessagesBatched_frame (clock env) msgs 0 w) as H.
  destruct (fetchMessagesBatched (clock env) msgs 0 w) as [n w1].
  destruct profile; exact H.
Qed.

(** *** Rows of [pipeline_runs] and [briefings] *)

Lemma max_bound (ids : list Z) (x : Z) : x ∈ ids -> x <= foldr Z.max 0 ids.
Proof.
  induction ids as [|y ids IH]; intros Hin; [now apply not_elem_of_nil in Hin|].
  simpl. apply elem_of_cons in Hin as [->|Hin]; [lia|]. specialize (IH Hin). lia.
Qed.

Lemma find_fresh_run (l : list PipelineRunRow) (r : PipelineRunRow) :
  r_id r = nextRowid (map r_id l) ->
  List.find (fun x => r_id x =? r_id r) (l ++ [r]) = Some r.
Proof.
  intros Hid.
  assert (Hlt : forall x, x ∈ l -> r_id x < r_id r).
  { intros x Hx. rewrite Hid. unfold nextRowid.
    pose proof (max_bound (map r_id l) (r_id x)) as H.
    assert (r_id x ∈ map r_id l) by (apply list_elem_of_fmap; eauto).
    specialize (H H0). lia. }
  clear Hid. induction l as [|y l IH]; simpl.
  - now rewrite Z.eqb_refl.
  - assert (Hy : (r_id y =? r_id r) = false)
      by (apply Z.eqb_neq; specialize (Hlt y ltac:(left)); lia).
    rewrite Hy. apply IH. intros x Hx. apply Hlt. now right.
Qed.

Lemma find_fresh_briefing (l : list BriefingRow) (b : BriefingRow) :
  b_id b = nextRowid (map b_id l) ->
  List.find (fun x => b_id x =? b_id b) (l ++ [b]) = Some b.
Proof.
  intros Hid.
  assert (Hlt : forall x, x ∈ l -> b_id x < b_id b).
  { intros x Hx. rewrite Hid. unfold nextRowid.
    pose proof (max_bound (map b_id l) (b_id x)) as H.
    assert (b_id x ∈ map b_id l) by (apply list_elem_of_fmap; eauto).
    specialize (H H0). lia. }
  clear Hid. induction l as [|y l IH]; simpl.
  - now rewrite Z.eqb_refl.
  - assert (Hy : (b_id y =? b_id b) = false)
      by (apply Z.eqb_neq; specialize (Hlt y ltac:(left)); lia).
    rewrite Hy. apply IH. intros x Hx. apply Hlt. now right.
Qed.

Lemma find_map_run (i : Z) (f : PipelineRunRow -> PipelineRunRow) (l : list PipelineRunRow) :
  (forall r, r_id (f r) = r_id r) ->
  List.find (fun r => r_id r =? i) (map (fun r => if r_id r =? i then f r else r) l)
    = option_map f (List.find (fun r => r_id r =? i) l).
Proof.
  intros Hf. induction l as [|r l IH]; [reflexivity|]. simpl.
  destruct (r_id r =? i) eqn:E.
  - now rewrite Hf, E.
  - now rewrite E.
Qed.

Lemma getPipelineRun_update (i : Z) (u : RunUpdate) (w : World) :
  getPipelineRun i (updatePipelineRun i u w)
    = option_map (applyUpdate u) (getPipelineRun i w).
Proof.
  unfold getPipelineRun, updatePipelineRun. simpl. now apply find_map_run.
Qed.

Lemma getPipelineRun_frame (i : Z) (w w' : World) :
  pipeline_runs w' = pipeline_runs w -> getPipelineRun i w' = getPipelineRun i w.
Proof. unfold getPipelineRun. now intros ->. Qed.

Lemma pickLatest_app_nil (best : option PipelineRunRow) (l : list PipelineRunRow) :
  pickLatest best (l ++ []) = pickLatest best l.
Proof. now rewrite app_nil_r. Qed.

Lemma getLastSuccessfulRun_create (clock : nat -> Z) (tr : Trigger) (w : World) :
  getLastSuccessfulRun (snd (createPipelineRun clock tr w)) = getLastSuccessfulRun w.
Proof.
  unfold getLastSuccessfulRun, createPipelineRun, dateNow. simpl.
  rewrite List.filter_app. simpl. now rewrite app_nil_r.
Qed.

(** *** The run row and the briefing table *)

Lemma markBriefingFailed_runs (b : Z) (w : World) :
  pipeline_runs (markBriefingFailed b w) = pipeline_runs w.
Proof. reflexivity. Qed.

Lemma markBriefingDelivered_runs (clock : nat -> Z) (b : Z) (ch : string) (w : World) :
  pipeline_runs (markBriefingDelivered clock b ch w) = pipeline_runs w.
Proof. reflexivity. Qed.

Lemma createPipelineRun_row (clock : nat -> Z) (tr : Trigger) (w : World) :
  fst (createPipelineRun clock tr w) = nextRowid (map r_id (pipeline_runs w)) /\
  exists r,
    getPipelineRun (nextRowid (map r_id (pipeline_runs w)))
      (snd (createPipelineRun clock tr w)) = Some r /\
    status r = running /\ briefing_id r = None /\ trigger r = tr /\
    ticks (snd (createPipelineRun clock tr w)) = S (ticks w) /\
    briefings (snd (createPipelineRun clock tr w)) = briefings w.
Proof.
  unfold createPipelineRun, dateNow, getPipelineRun. cbn [fst snd].
  split; [reflexivity|]. eexists. split.
  - cbn [pipeline_runs setPipelineRuns setTicks].
    match goal with
    | |- List.find _ (_ ++ [?row]) = _ => apply (find_fresh_run (pipeline_runs w) row)
    end.
    reflexivity.
  - repeat split.
Qed.

(** *** Generation followed by a failed delivery *)

Lemma find_map_briefing (i : Z) (f : BriefingRow -> BriefingRow) (l : list BriefingRow) :
  (forall b, b_id (f b) = b_id b) ->
  List.find (fun b => b_id b =? i) (map (fun b => if b_id b =? i then f b else b) l)
    = option_map f (List.find (fun b => b_id b =? i) l).
Proof.
  intros Hf. induction l as [|b l IH]; [reflexivity|]. simpl.
  destruct (b_id b =? i) eqn:E.
  - now rewrite Hf, E.
  - now rewrite E.
Qed.

Lemma getBriefing_frame (i : Z) (w w' : World) :
  briefings w' = briefings w -> getBriefing i w' = getBriefing i w.
Proof. unfold getBriefing. now intros ->. Qed.

Lemma generateBriefing_ok (env : Env) (ids : list string) (ps pe : Z) (w w' : World)
    (br : BriefingResult) :
  generateBriefing env ids ps pe w = (Ok br, w') ->
  summary env = Ok (briefingContent br, briefingTokens br) /\
  pipeline_runs w' = pipeline_runs w /\
  exists b,
    getBriefing (briefingId br) w' = Some b /\
    content b = briefingContent br /\ b_tokens_used b = Some (briefingTokens br) /\
    delivered b = 0 /\ delivered_via b = None /\ delivered_at b = None /\
    b_period_start b = ps /\ b_period_end b = pe.
Proof.
  unfold generateBriefing, dateNow, insertBriefing.
  destruct (summary env) as [[txt tok]|e]; [|discriminate].
  intros H. inversion H; subst; clear H. cbn [briefingContent briefingTokens briefingId].
  split; [reflexivity|]. split; [reflexivity|].
  eexists. split.
  - unfold getBriefing. cbn [briefings setBriefings setTicks].
    match goal with
    | |- List.find _ (_ ++ [?row]) = _ => apply (find_fresh_briefing (briefings w) row)
    end.
    reflexivity.
  - repeat split.
Qed.

Lemma failRun_finished (env : Env) (i tokens : Z) (msg : string) (w : World) :
  exists outcome w', failRun env i tokens msg w = (Finished outcome, w').
Proof. unfold failRun, dateNow. now eexists _, _. Qed.

(** When Steps 1 to 3 end with a generated briefing, the run row carries
    the tokens and the briefing id, is still [running], and the briefing
    is stored, not yet delivered. *)
Lemma runStages_generated (env : Env) (i ps pe tokens : Z) (br : BriefingResult)
    (r0 : PipelineRunRow) (w w3 : World) :
  getPipelineRun i w = Some r0 ->
  runStages env i ps pe w = (Generated tokens br, w3) ->
  summary env = Ok (briefingContent br, briefingTokens br) /\
  exists r3 b,
    getPipelineRun i w3 = Some r3 /\
    status r3 = status r0 /\ samePeriod r0 r3 /\
    tokens_used r3 = Some tokens /\ briefing_id r3 = Some (briefingId br) /\
    is_Some (emails_classified r3) /\ is_Some (emails_financial r3) /\
    getBriefing (briefingId br) w3 = Some b /\
    content b = briefingContent br /\ b_tokens_used b = Some (briefingTokens br) /\
    delivered b = 0 /\ delivered_via b = None /\ delivered_at b = None.
Proof.
  intros Hr0 Heq. unfold runStages in Heq.
  pose proof (fetchEmails_frame env w) as [Hf _].
  destruct (fetchEmails env w) as [[fetchResult|e] w1]; cbn [snd] in Hf;
    [|destruct (failRun_finished env i 0 e w1) as (o & w' & E); rewrite E in Heq;
      discriminate].
  match type of Heq with
  | context [refreshFilter ?c ?cfg ?dr ?l ?x] =>
      pose proof (refreshFilter_frame c cfg dr l x) as [Hr _];
      destruct (refreshFilter c cfg dr l x) as [refreshTokens w2]; cbn [snd] in Hr
  end.
  match type of Heq with
  | context [classifyEmails ?c ?dr ?l ?x] =>
      pose proof (classifyEmails_frame c dr l x) as [Hc _];
      destruct (classifyEmails c dr l x) as [classifyResult w4]; cbn [snd] in Hc
  end.
  match type of Heq with
  | context [getFinancialEmailIdsSince ?a ?b] => destruct (getFinancialEmailIdsSince a b)
  end; [unfold dateNow in Heq; discriminate|].
  match type of Heq with
  | context [generateBriefing ?e ?l ?a ?b ?x] =>
      destruct (generateBriefing e l a b x) as [[briefingResult|err] w5] eqn:Hg
  end;
    [|match type of Heq with
      | context [failRun ?e ?j ?t ?m ?x] =>
          destruct (failRun_finished e j t m x) as (o & w' & E); rewrite E in Heq;
          discriminate
      end].
  inversion Heq; subst; clear Heq.
  apply generateBriefing_ok in Hg as (Hsum & Hruns & b & Hb & Hb1 & Hb2 & Hb3 & Hb4 & Hb5 & _).
  split; [exact Hsum|].
  eexists _, b. split.
  - rewrite getPipelineRun_update, (getPipelineRun_frame i _ w5 Hruns),
      getPipelineRun_update, (getPipelineRun_frame i w2 w4 Hc),
      (getPipelineRun_frame i _ w2 Hr), getPipelineRun_update,
      (getPipelineRun_frame i w w1 Hf), Hr0.
    reflexivity.
  - cbn. repeat split; try (now eexists); assumption.
Qed.

Lemma beforeDelivery_generated (env : Env) (tr : Trigger) (w w3 : World)
    (runId tokens : Z) (br : BriefingResult) :
  beforeDelivery env tr w = (runId, (Generated tokens br, w3)) ->
  summary env = Ok (briefingContent br, briefingTokens br) /\
  exists r3 b,
    getPipelineRun runId w3 = Some r3 /\
    status r3 = running /\
    tokens_used r3 = Some tokens /\ briefing_id r3 = Some (briefingId br) /\
    is_Some (emails_classified r3) /\ is_Some (emails_financial r3) /\
    getBriefing (briefingId br) w3 = Some b /\
    content b = briefingContent br /\ b_tokens_used b = Some (briefingTokens br) /\
    delivered b = 0 /\ delivered_via b = None /\ delivered_at b = None.
Proof.
  unfold beforeDelivery.
  pose proof (createPipelineRun_row (clock env) tr w) as (Hid & r0 & Hr0 & Hst & _).
  destruct (createPipelineRun (clock env) tr w) as [i w1].
  cbn [fst snd] in Hid, Hr0. rewrite <- Hid in Hr0. clear Hid.
  unfold dateNow at 1 2.
  assert (Hstages : forall ps pe u w2,
             pipeline_runs w2 = pipeline_runs w1 -> u_status u = None ->
             (i, runStages env i ps pe (updatePipelineRun i u w2))
               = (runId, (Generated tokens br, w3)) ->
             summary env = Ok (briefingContent br, briefingTokens br) /\
             exists r3 b,
               getPipelineRun runId w3 = Some r3 /\
               status r3 = running /\
               tokens_used r3 = Some tokens /\ briefing_id r3 = Some (briefingId br) /\
               is_Some (emails_classified r3) /\ is_Some (emails_financial r3) /\
               getBriefing (briefingId br) w3 = Some b /\
               content b = briefingContent br /\ b_tokens_used b = Some (briefingTokens br) /\
               delivered b = 0 /\ delivered_via b = None /\ delivered_at b = None).
  { intros ps pe u w2 Hw Hu Heq. inversion Heq as [[Hi Hrun]]. subst i.
    assert (Hrow : getPipelineRun runId (updatePipelineRun runId u w2)
                   = Some (applyUpdate u r0))
      by (now rewrite getPipelineRun_update, (getPipelineRun_frame runId w1 w2 Hw), Hr0).
    destruct (runStages_generated env runId ps pe tokens br _ _ w3 Hrow Hrun)
      as (Hsum & r3 & b & H1 & H2 & _ & H3 & H4 & H5 & H6 & H7).
    split; [exact Hsum|]. exists r3, b.
    split; [exact H1|]. split; [|now repeat split].
    rewrite H2. simpl. now rewrite Hu, Hst. }
  destruct (truthyField (getLastSuccessfulRun w1) finished_at) as [finishedAt|].
  - unfold dateNow. cbn [fst snd].
    match goal with |- context [if ?c then _ else _] => destruct c end.
    + discriminate.
    + apply Hstages; reflexivity.
  - apply Hstages; reflexivity.
Qed.

Lemma deliver_failed (env : Env) (i tokens : Z) (br : BriefingResult) (msg : string)
    (r3 : PipelineRunRow) (b : BriefingRow) (w3 : World) :
  delivery env = Throw msg ->
  getPipelineRun i w3 = Some r3 ->
  getBriefing (briefingId br) w3 = Some b ->
  fst (deliver env i tokens br w3) = Ok tt /\
  emails (snd (deliver env i tokens br w3)) = emails w3 /\
  classifications (snd (deliver env i tokens br w3)) = classifications w3 /\
  exists r' b',
    getPipelineRun i (snd (deliver env i tokens br w3)) = Some r' /\
    status r' = partial /\
    error r' = Some (String.append "Delivery failed: " msg) /\
    tokens_used r' = Some tokens /\
    emails_fetched r' = emails_fetched r3 /\
    emails_classified r' = emails_classified r3 /\
    emails_financial r' = emails_financial r3 /\
    briefing_id r' = briefing_id r3 /\
    is_Some (finished_at r') /\
    getBriefing (briefingId br) (snd (deliver env i tokens br w3)) = Some b' /\
    delivered b' = -1 /\
    content b' = content b /\ b_tokens_used b' = b_tokens_used b /\
    delivered_via b' = delivered_via b /\ delivered_at b' = delivered_at b.
Proof.
  intros Hd Hr Hb. unfold deliver, dateNow. rewrite Hd. cbn [fst snd].
  split; [reflexivity|]. split; [reflexivity|]. split; [reflexivity|].
  eexists _, _. split.
  { rewrite getPipelineRun_update.
    rewrite (getPipelineRun_frame i w3) by reflexivity. rewrite Hr. reflexivity. }
  do 8 (split; [cbn; first [reflexivity | now eexists]|]).
  split.
  { unfold getBriefing, markBriefingFailed, updateBriefing in *.
    cbn [briefings setBriefings setTicks setPipelineRuns updatePipelineRun].
    rewrite find_map_briefing by reflexivity.
    rewrite Hb. reflexivity. }
  cbn. repeat split.
Qed.

End PipelineFacts.

(** C3. When a run has generated its briefing and the delivery then
    fails, the run returns normally and its row ends with status
    [partial], not [failed]; the row records the delivery error, keeps the
    tokens used and the fetched, classified and relevant counts it had
    before the delivery step, and names the briefing; the briefing is
    still stored with its text and tokens and is marked not delivered (the
    delivery flag is -1, no channel and no delivery time); no
    classification is touched. *)
Theorem C3_failed_delivery_is_partial (env : Pipeline.Env) (tr : Trigger) (w w3 : World)
    (runId tokens : Z) (br : Pipeline.BriefingResult) (msg : string) :
  Pipeline.beforeDelivery env tr w = (runId, (Pipeline.Generated tokens br, w3)) ->
  Pipeline.delivery env = Throw msg ->
  fst (Pipeline.runPipeline env tr w) = Ok tt /\
  classifications (snd (Pipeline.runPipeline env tr w)) = classifications w3 /\
  exists before after digest,
    getPipelineRun runId w3 = Some before /\
    getPipelineRun runId (snd (Pipeline.runPipeline env tr w)) = Some after /\
    status after = partial /\
    status after <> failed /\
    error after = Some (String.append "Delivery failed: " msg) /\
    tokens_used before = Some tokens /\
    tokens_used after = Some tokens /\
    emails_fetched after = emails_fetched before /\
    emails_classified after = emails_classified before /\
    emails_financial after = emails_financial before /\
    is_Some (emails_classified after) /\
    is_Some (emails_financial after) /\
    briefing_id after = Some (Pipeline.briefingId br) /\
    getBriefing (Pipeline.briefingId br) (snd (Pipeline.runPipeline env tr w)) = Some digest /\
    content digest = Pipeline.briefingContent br /\
    b_tokens_used digest = Some (Pipeline.briefingTokens br) /\
    delivered digest = -1 /\
    delivered digest <> 1 /\
    delivered_via digest = None /\
    delivered_at digest = None.
Proof.
  intros Hgen Hfail.
  destruct (beforeDelivery_generated env tr w w3 runId tokens br Hgen)
    as (_ & r3 & b & Hr3 & _ & Htok & Hbid & Hcl & Hfin & Hb & Hb1 & Hb2 & _ & Hb4 & Hb5).
  destruct (deliver_failed env runId tokens br msg r3 b w3 Hfail Hr3 Hb)
    as (Hout & _ & Hcls & r' & b' & Hr' & Hst & Herr & Ht' & Hf' & Hc' & Hfi' & Hbid'
        & _ & Hb' & Hd & Hcont & Htoks & Hvia & Hat).
  unfold Pipeline.runPipeline. rewrite Hgen.
  split; [exact Hout|]. split; [exact Hcls|].
  exists r3, r', b'.
  split; [exact Hr3|]. split; [exact Hr'|]. split; [exact Hst|].
  split; [rewrite Hst; discriminate|]. split; [exact Herr|].
  split; [exact Htok|]. split; [exact Ht'|]. split; [exact Hf'|].
  split; [exact Hc'|]. split; [exact Hfi'|].
  split; [now rewrite Hc'|]. split; [now rewrite Hfi'|].
  split; [now rewrite Hbid'|]. split; [exact Hb'|].
  split; [now rewrite Hcont|]. split; [now rewrite Htoks|].
  split; [exact Hd|]. split; [rewrite Hd; discriminate|].
  split; [now rewrite Hvia | now rewrite Hat].
Qed.

(** ** The user rule file *)

Section RuleFileFacts.

Lemma uniqFrom_spec (l seen : list string) :
  NoDup (uniqFrom seen l) /\
  forall x, x ∈ uniqFrom seen l <-> x ∈ l /\ x ∉ seen.
Proof.
  revert seen; induction l as [|y l IH]; intros seen; simpl.
  - split; [constructor|]. intros x. split; [intros H | intros [H _]];
      now apply not_elem_of_nil in H.
  - destruct (bool_decide_reflect (y ∈ seen)) as [Hy|Hy].
    + destruct (IH seen) as [Hnd Hin]. split; [exact Hnd|].
      intros x. rewrite Hin, elem_of_cons. split; [tauto|].
      intros [[->|Hx] Hs]; [contradiction | tauto].
    + destruct (IH (y :: seen)) as [Hnd Hin]. split.
      * constructor; [|exact Hnd]. rewrite Hin, elem_of_cons. tauto.
      * intros x. rewrite !elem_of_cons, Hin, elem_of_cons. split.
        -- intros [->|[Hx Hs]]; [tauto|]. split; [tauto|]. intros Hc. apply Hs. now right.
        -- intros [[->|Hx] Hs]; [now left|].
           destruct (decide (x = y)) as [->|Hne]; [now left|].
           right. split; [exact Hx|]. intros [Hc|Hc]; contradiction.
Qed.

Lemma newSet_NoDup (l : list string) : NoDup (newSet l).
Proof. apply uniqFrom_spec. Qed.

Lemma newSet_elem (l : list string) (x : string) : x ∈ newSet l <-> x ∈ l.
Proof.
  unfold newSet. rewrite (proj2 (uniqFrom_spec l [])). split; [tauto|].
  intros H. split; [exact H | apply not_elem_of_nil].
Qed.

Lemma newSet_normalised (l : list string) :
  Forall RuleFile.lowerCased l -> RuleFile.normalised (newSet l).
Proof.
  intros H. split; [|apply newSet_NoDup].
  rewrite Forall_forall in *. intros x Hx. apply H. now rewrite newSet_elem in Hx.
Qed.

Lemma normalised_distinct (l : list string) :
  RuleFile.normalised l -> RuleFile.distinctIgnoringCase l.
Proof.
  intros [Hl Hnd]. unfold RuleFile.distinctIgnoringCase.
  replace (map toLowerCase l) with l; [exact Hnd|].
  induction Hl as [|x l Hx Hl IH]; [reflexivity|]. simpl.
  apply NoDup_cons in Hnd as [_ Hnd]. now rewrite Hx, <- IH.
Qed.

Lemma lowered_all (l : list string) : Forall RuleFile.lowerCased (map toLowerCase l).
Proof.
  induction l as [|x l IH]; simpl; constructor; [apply toLowerCase_idem | exact IH].
Qed.

Lemma getAllUniqueSenders_lower (w : World) :
  RuleFile.lowerCasedStore w -> Forall RuleFile.lowerCased (getAllUniqueSenders w).
Proof.
  intros Hs. rewrite Forall_forall. intros x Hx.
  unfold getAllUniqueSenders in Hx. rewrite newSet_elem in Hx.
  apply (proj1 (list_elem_of_fmap _ _ _)) in Hx as ([k e] & -> & Hin).
  apply elem_of_map_to_list in Hin. exact (Hs k e Hin).
Qed.

Lemma preFilter_lower (dr : DefaultRules) (l : list string) :
  Forall RuleFile.lowerCased l -> Forall RuleFile.lowerCased (fst (preFilter dr l)).
Proof.
  induction 1 as [|x l Hx Hl IH]; simpl; [constructor|].
  destruct (preFilter dr l) as [known unknown]. simpl in IH.
  destruct (matchesSenderList x (dr_ignore dr)); [exact IH|].
  destruct (matchesSenderList x (dr_financial dr)); simpl; [now constructor | exact IH].
Qed.

Lemma senderBatches_lower (llm : Inference) (fuel : nat) :
  forall (n : nat) (rest acc : list string) (tokens : Z),
    Forall RuleFile.lowerCased acc ->
    Forall RuleFile.lowerCased (fst (senderBatches llm fuel n rest acc tokens)).
Proof.
  induction fuel as [|fuel IH]; intros n rest acc tokens Hacc; [now destruct rest|].
  destruct rest as [|x rest]; [exact Hacc|].
  cbn [senderBatches].
  destruct (classifySenders llm n _) as [|t|t [fin|]]; try (apply IH; exact Hacc).
  apply IH. apply Forall_app. split; [exact Hacc | apply lowered_all].
Qed.

Lemma buildOrganicFilter_normalised (clock : nat -> Z) (dr : DefaultRules)
    (llm : Inference) (w : World) :
  RuleFile.lowerCasedStore w -> RuleFile.normalisedRules (rulesUser w) ->
  RuleFile.normalisedRules (rulesUser (snd (buildOrganicFilter clock dr llm w))).
Proof.
  intros Hstore Hrules. unfold buildOrganicFilter.
  pose proof (getAllUniqueSenders_lower w Hstore) as Hall.
  destruct (getAllUniqueSenders w) as [|s0 rest] eqn:E; [exact Hrules|].
  pose proof (preFilter_lower dr (s0 :: rest) Hall) as Hknown.
  destruct (preFilter dr (s0 :: rest)) as [known unknown]. cbn [fst] in Hknown.
  pose proof (senderBatches_lower llm (length unknown) 0 unknown [] 0 (List.Forall_nil _)) as Hllm.
  destruct (senderBatches llm (length unknown) 0 unknown [] 0) as [llmFinancial tokens].
  cbn [fst] in Hllm.
  assert (Hn : RuleFile.normalised (newSet (known ++ llmFinancial)))
    by (apply newSet_normalised, Forall_app; now split).
  destruct (getSubjectsBySenders (newSet (known ++ llmFinancial)) w) as [|subj subjects].
  - unfold dateNow. cbn. exact Hn.
  - destruct (extractKeywords llm _) as [|t|t sk bk]; unfold dateNow; cbn; exact Hn.
Qed.

Lemma refreshFilter_normalised (clock : nat -> Z) (cfg : AppConfig) (dr : DefaultRules)
    (llm : Inference) (w : World) :
  RuleFile.lowerCasedStore w -> RuleFile.normalisedRules (rulesUser w) ->
  RuleFile.normalisedRules (rulesUser (snd (refreshFilter clock cfg dr llm w))).
Proof.
  intros Hstore Hrules. unfold refreshFilter.
  destruct (rulesUser w) as [u|] eqn:Hu.
  2: { apply buildOrganicFilter_normalised; [exact Hstore | now rewrite Hu]. }
  cbn in Hrules. destruct Hrules as [Hlow Hnd].
  unfold dateNow. cbn [fst snd ticks setTicks].
  destruct (_ - _ <? _); [cbn; rewrite Hu; now split|].
  match goal with
  | |- context [match ?l with [] => _ | _ :: _ => _ end] => destruct l as [|s0 trulyNew]
  end; [cbn; now split|].
  destruct (classifySenders llm 0 _) as [|t|t [fin|]]; cbn;
    apply newSet_normalised; try exact Hlow.
  apply Forall_app. split; [exact Hlow | apply lowered_all].
Qed.

End RuleFileFacts.

(** C9 as amended. The merge of the relevant senders removes entries
    that are exactly equal, and the entries taken from the model's reply
    are lower-cased first.  So when every stored sender address is in
    lower case, as the connector stores it, and the user rule file, if
    there is one, holds a lower-case relevant-sender list without repeated
    entries, as the builder writes it, then after an organic filter build
    and after a periodic refresh the persisted relevant-sender list is
    again lower-case without repeated entries, and so has no two entries
    equal ignoring case. *)
Theorem C9_relevant_senders_normalised (clock : nat -> Z) (config : AppConfig)
    (defaultRules : DefaultRules) (llm : Inference) (w : World) :
  RuleFile.lowerCasedStore w ->
  RuleFile.normalisedRules (rulesUser w) ->
  RuleFile.normalisedRules (rulesUser (snd (buildOrganicFilter clock defaultRules llm w))) /\
  RuleFile.normalisedRules (rulesUser (snd (refreshFilter clock config defaultRules llm w))) /\
  (forall u, rulesUser (snd (buildOrganicFilter clock defaultRules llm w)) = Some u ->
             RuleFile.distinctIgnoringCase (ur_financial u)) /\
  (forall u, rulesUser (snd (refreshFilter clock config defaultRules llm w)) = Some u ->
             RuleFile.distinctIgnoringCase (ur_financial u)).
Proof.
  intros Hstore Hrules.
  pose proof (buildOrganicFilter_normalised clock defaultRules llm w Hstore Hrules) as Hb.
  pose proof (refreshFilter_normalised clock config defaultRules llm w Hstore Hrules) as Hr.
  split; [exact Hb|]. split; [exact Hr|]. split.
  - intros u Hu. rewrite Hu in Hb. now apply normalised_distinct.
  - intros u Hu. rewrite Hu in Hr. now apply normalised_distinct.
Qed.

(** A relevant sender added to the rule file by hand with capitals, and
    the same address found in the inbox and called financial by the model:
    the refresh persists both. *)
Lemma C9_hand_edited_entry :
  option_map ur_financial
    (rulesUser
       (snd (refreshFilter Sample.clock Sample.appConfig Sample.rules Sample.agreeing
               Sample.inboxEdited)))
    = Some ["Billing@Power.Example"; "news@shop.example"; "care@shop.example";
            "billing@power.example"] /\
  ~ AsStated.refreshDeduplicatesIgnoringCase.
Proof.
  split; [vm_compute; reflexivity|].
  intros H.
  specialize (H Sample.clock Sample.appConfig Sample.rules Sample.agreeing
                Sample.inboxEdited Sample.edited
                {| ur_generated_at := 1699000000000; last_refreshed_at := 1700000001000;
                   ur_financial := ["Billing@Power.Example"; "news@shop.example";
                                    "care@shop.example"; "billing@power.example"];
                   ur_ignore := [];
                   pending_review := ["news@shop.example"; "care@shop.example";
                                      "billing@power.example"];
                   ur_subject := []; ur_body := [] |}
                eq_refl).
  assert (Hdue : refreshIntervalDays Sample.appConfig * 86400000
                 <= Sample.clock (ticks Sample.inboxEdited)
                    - last_refreshed_at Sample.edited)
    by (vm_compute; discriminate).
  specialize (H Hdue ltac:(vm_compute; reflexivity)).
  unfold RuleFile.distinctIgnoringCase in H. vm_compute in H.
  apply NoDup_cons in H as [Hnotin _]. apply Hnotin.
  do 2 right. left.
Qed.

(** One keyword, [emi], held by the baseline list and again by the user
    list: a body that mentions it once has one distinct hit and two
    counted hits, and is stored as relevant with confidence 0.70. *)
Lemma C5_repeated_keyword :
  bodyKeywords (mergeRules Sample.rules (rulesUser Sample.inboxGrown))
    = ["emi"; "due"; "emi"] /\
  Tiers.distinctHits "EMI plans for everyone" ["emi"; "due"; "emi"] = 1 /\
  Tiers.entryHits "EMI plans for everyone" ["emi"; "due"; "emi"] = 2 /\
  getClassification "m5"
    (snd (classifyEmails Sample.clock Sample.rules ["m5"] Sample.inboxGrown))
    = Some {| email_id := "m5"; is_financial := 1; category := Some "other_financial";
              confidence := 0.7%Q; classified_by := "rules_keyword";
              classified_at := 1700000000000 |} /\
  ~ AsStated.oneDistinctHitIsNoMatch.
Proof.
  split; [reflexivity|]. split; [vm_compute; reflexivity|].
  split; [vm_compute; reflexivity|]. split; [vm_compute; reflexivity|].
  intros H.
  specialize (H Sample.clock Sample.rules Sample.inboxGrown "m5" "EMI plans for everyone"
                Sample.note
                {| email_id := "m5"; is_financial := 1; category := Some "other_financial";
                   confidence := 0.7%Q; classified_by := "rules_keyword";
                   classified_at := 1700000000000 |}).
  cbv zeta in H.
  destruct H as [Hrel _]; try (vm_compute; reflexivity).
  discriminate Hrel.
Qed.

(** An email decided by the subject tier and one decided by the body
    tier carry the same tag, [rules_keyword]. *)
Lemma C6_shared_keyword_tag :
  Tiers.firstMatch (mergeRules Sample.rules None) Sample.bill = Tiers.SubjectKeyword /\
  Tiers.firstMatch (mergeRules Sample.rules None) Sample.reminder = Tiers.BodyKeyword /\
  option_map classified_by
    (getClassification "m3"
       (snd (classifyEmails Sample.clock Sample.rules ["m3"; "m4"] Sample.inbox)))
    = Some "rules_keyword" /\
  option_map classified_by
    (getClassification "m4"
       (snd (classifyEmails Sample.clock Sample.rules ["m3"; "m4"] Sample.inbox)))
    = Some "rules_keyword" /\
  ~ AsStated.subjectAndBodyTagsDiffer.
Proof.
  split; [vm_compute; reflexivity|]. split; [vm_compute; reflexivity|].
  split; [vm_compute; reflexivity|]. split; [vm_compute; reflexivity|].
  intros H.
  specialize (H Sample.clock Sample.rules Sample.inbox "m3" "m4" Sample.bill Sample.reminder
                {| email_id := "m3"; is_financial := 1; category := Some "bank_alert";
                   confidence := 0.85%Q; classified_by := "rules_keyword";
                   classified_at := 1700000000000 |}
                {| email_id := "m4"; is_financial := 1; category := Some "other_financial";
                   confidence := 0.7%Q; classified_by := "rules_keyword";
                   classified_at := 1700000001000 |}).
  cbv zeta in H.
  apply H; try (vm_compute; reflexivity).
Qed.

(** ** The theorems on the sample data *)

Lemma C1_on_sample :
  exists c,
    getClassification "m1"
      (snd (classifyEmails Sample.clock Sample.rules ["m1"; "m2"] Sample.inbox)) = Some c /\
    is_financial c = 0 /\ confidence c = 1.0%Q.
Proof.
  destruct (C1_tiers_in_order Sample.clock Sample.rules ["m1"; "m2"] Sample.inbox
              "m1" Sample.offer)
    as (c & Hc & _ & _ & _ & _ & _ & Hboth).
  - constructor.
  - vm_compute; reflexivity.
  - vm_compute; reflexivity.
  - exists c. split; [exact Hc|]. apply Hboth; vm_compute; reflexivity.
Defined.

Lemma C3_on_sample :
  fst (Pipeline.runPipeline Sample.undeliverable manual Sample.inbox) = Ok tt.
Proof.
  eapply (C3_failed_delivery_is_partial Sample.undeliverable manual Sample.inbox).
  - vm_compute. reflexivity.
  - reflexivity.
Defined.

Lemma C4_on_sample :
  LlmInterface.callLLM (Ok tt) Sample.flaky 4
    = Some (Ok Sample.answer, [1000; 2000; 4000]).
Proof.
  destruct (C4_retry_with_backoff Sample.flaky 4 3) as [H _].
  - vm_compute. discriminate.
  - intros [|[|[|i]]] Hi; try lia; eexists; split; reflexivity.
  - reflexivity.
  - exact H.
Defined.

Lemma C5_on_sample :
  exists c,
    getClassification "m4"
      (snd (classifyEmails Sample.clock Sample.rules ["m4"] Sample.inbox)) = Some c /\
    is_financial c = 1 /\ confidence c = 0.7%Q.
Proof.
  destruct (C5_body_hits_counted Sample.clock Sample.rules ["m4"] Sample.inbox
              "m4" Sample.reminder)
    as (c & Hc & Htwo & _).
  - constructor.
  - vm_compute; reflexivity.
  - vm_compute; reflexivity.
  - vm_compute; reflexivity.
  - vm_compute; reflexivity.
  - vm_compute; reflexivity.
  - exists c. split; [exact Hc|]. apply Htwo. vm_compute. discriminate.
Defined.

Lemma C6_on_sample :
  exists c,
    getClassification "m3"
      (snd (classifyEmails Sample.clock Sample.rules ["m3"] Sample.inbox)) = Some c /\
    classified_by c = "rules_keyword".
Proof.
  destruct (C6_decided_by_tag Sample.clock Sample.rules ["m3"] Sample.inbox
              "m3" Sample.bill)
    as (c & Hc & Htag & _).
  - constructor.
  - vm_compute; reflexivity.
  - vm_compute; reflexivity.
  - exists c. split; [exact Hc | exact Htag].
Defined.

Lemma C7_on_sample :
  snd (classifyEmails Sample.clock Sample.rules ["m2"] Sample.sorted) = Sample.sorted.
Proof.
  eapply (C7_replay_keeps_stored Sample.clock Sample.rules Sample.sorted "m2").
  vm_compute. reflexivity.
Defined.

Lemma C10_on_sample :
  total (fst (classifyEmails Sample.clock Sample.rules ["m1"; "zz"] Sample.inbox))
    < Z.of_nat (length ["m1"; "zz"]).
Proof.
  eapply (C10_missing_row_skipped Sample.clock Sample.rules ["m1"; "zz"] Sample.inbox "zz").
  - right. left.
  - vm_compute; reflexivity.
  - vm_compute; reflexivity.
Defined.

Lemma C9_on_sample :
  RuleFile.normalisedRules
    (rulesUser (snd (buildOrganicFilter Sample.clock Sample.rules Sample.agreeing
                       Sample.inbox))).
Proof.
  destruct (C9_relevant_senders_normalised Sample.clock Sample.appConfig Sample.rules
              Sample.agreeing Sample.inbox) as (H & _).
  - unfold RuleFile.lowerCasedStore, RuleFile.lowerCased.
    apply (bool_decide_unpack
             (map_Forall (fun (_ : string) (e : EmailRow) => toLowerCase (sender e) = sender e)
                (emails Sample.inbox))).
    vm_compute. exact I.
  - exact I.
  - exact H.
Defined.

(** * Further properties of the embedded code *)

(** ** The inference call: what a result tells about the attempts *)

Section RetryInversion.

Import LlmInterface.

Variable request : Z -> Result LLMResponse.
Variable maxRetries : Z.

(** Every way the loop can end, read back from its result. *)
Lemma attemptLoop_inv (fuel : nat) :
  forall (k : nat) (slept : list Z) (res : Result LLMResponse) (slept' : list Z),
    attemptLoop fuel request maxRetries (Z.of_nat k) slept = Some (res, slept') ->
    (maxRetries < Z.of_nat k /\ res = Throw "Unreachable" /\ slept' = slept) \/
    exists n delays,
      (k <= n)%nat /\ Z.of_nat n <= maxRetries /\
      res = request (Z.of_nat n) /\
      decisive request maxRetries (Z.of_nat n) = true /\
      (forall i, (k <= i < n)%nat ->
         exists e, request (Z.of_nat i) = Throw e /\ isRetryable e = true) /\
      slept' = slept ++ delays /\
      backoff n = backoff k ++ delays.
Proof.
  induction fuel as [|fuel IH]; intros k slept res slept' H; [discriminate|].
  simpl in H. destruct (Z.of_nat k <=? maxRetries) eqn:Hle.
  - apply Z.leb_le in Hle. right.
    destruct (request (Z.of_nat k)) as [r|e] eqn:Hreq.
    + inversion H; subst. exists k, []. rewrite !app_nil_r.
      repeat split; try lia; try congruence;
        try (unfold decisive; now rewrite Hreq); intros i Hi; lia.
    + destruct (negb (isRetryable e) || (Z.of_nat k =? maxRetries)) eqn:Hdec.
      * inversion H; subst. exists k, []. rewrite !app_nil_r.
        repeat split; try lia; try congruence;
          try (unfold decisive; now rewrite Hreq); intros i Hi; lia.
      * apply orb_false_iff in Hdec as [Hr Hne]. apply negb_false_iff in Hr.
        replace (Z.of_nat k + 1) with (Z.of_nat (S k)) in H by lia.
        apply IH in H as [(Hgt & _ & _) | (n & delays & Hkn & Hn & Hres & Hd & Hall & Hs & Hb)].
        -- apply Z.eqb_neq in Hne. lia.
        -- exists n, ((2 ^ Z.of_nat k * 1000) :: delays).
           repeat split; try lia; try assumption.
           ++ intros i Hi. destruct (decide (i = k)) as [->|Hik]; [eauto|].
              apply Hall. lia.
           ++ rewrite Hs, <- app_assoc. reflexivity.
           ++ rewrite Hb. simpl. rewrite <- app_assoc. reflexivity.
  - apply Z.leb_gt in Hle. left. inversion H; subst. now repeat split.
Qed.

End RetryInversion.

Lemma backoff_total (n : nat) :
  Measures.totalDelay (LlmInterface.backoff n) = (2 ^ Z.of_nat n - 1) * 1000.
Proof.
  unfold Measures.totalDelay. induction n as [|n IH]; [reflexivity|].
  simpl LlmInterface.backoff. rewrite foldr_app. simpl foldr.
  assert (Hsum : forall (l : list Z) (a : Z), foldr Z.add a l = foldr Z.add 0 l + a).
  { induction l as [|x l IHl]; intros a; simpl; [lia|]. rewrite IHl. lia. }
  rewrite Hsum, IH.
  replace (Z.of_nat (S n)) with (Z.of_nat n + 1) by lia.
  rewrite Z.pow_add_r by lia. lia.
Qed.

Lemma callLLM_total (provider : Result unit)
    (request : Z -> Result LlmInterface.LLMResponse) (maxRetries : Z) :
  exists res slept, LlmInterface.callLLM provider request maxRetries = Some (res, slept).
Proof.
  unfold LlmInterface.callLLM. destruct provider as [u|e]; [|now eexists _, _].
  destruct (attemptLoop_total request maxRetries (Z.to_nat (maxRetries + 1))
              (S (Z.to_nat (maxRetries + 1))) 0 []) as [[res slept] H]; [lia | lia|].
  now exists res, slept.
Qed.

(** X1. Whatever the attempts do, the call ends, having slept at most
    [maxRetries] times, with the delays 1000, 2000, 4000, ... in that
    order, so it waits at most (2^maxRetries - 1) * 1000 ms in total.  A
    failed provider selection ends the call before any attempt, and a
    negative cap ends it with the error [Unreachable] without any
    attempt. *)
Theorem X1_backoff_is_bounded (provider : Result unit)
    (request : Z -> Result LlmInterface.LLMResponse) (maxRetries : Z) :
  exists res slept,
    LlmInterface.callLLM provider request maxRetries = Some (res, slept) /\
    (exists n,
       slept = LlmInterface.backoff n /\
       Z.of_nat n <= Z.max maxRetries 0 /\
       Measures.totalDelay slept = (2 ^ Z.of_nat n - 1) * 1000 /\
       Measures.totalDelay slept <= (2 ^ Z.max maxRetries 0 - 1) * 1000) /\
    (forall e, provider = Throw e -> res = Throw e /\ slept = []) /\
    (provider = Ok tt -> maxRetries < 0 -> res = Throw "Unreachable" /\ slept = []).
Proof.
  destruct (callLLM_total provider request maxRetries) as (res & slept & H).
  exists res, slept. split; [exact H|].
  unfold LlmInterface.callLLM in H.
  assert (Hbound : forall n, Z.of_nat n <= Z.max maxRetries 0 ->
            Measures.totalDelay (LlmInterface.backoff n)
              <= (2 ^ Z.max maxRetries 0 - 1) * 1000).
  { intros n Hn. rewrite backoff_total.
    assert (2 ^ Z.of_nat n <= 2 ^ Z.max maxRetries 0)
      by (apply Z.pow_le_mono_r; lia). lia. }
  destruct provider as [[]|e0].
  - change 0 with (Z.of_nat 0) in H.
    apply attemptLoop_inv in H
      as [(Hneg & -> & ->) | (n & delays & _ & Hn & Hres & _ & _ & Hs & Hb)].
    + split; [|split].
      * exists 0%nat. repeat split; try reflexivity; try lia.
        apply (Hbound 0%nat). lia.
      * intros e He. discriminate.
      * intros _ _. now split.
    + simpl in Hs, Hb. subst slept. rewrite <- Hb. split; [|split].
      * exists n. split; [reflexivity|]. split; [lia|].
        split; [apply backoff_total | apply Hbound; lia].
      * intros e He. discriminate.
      * intros _ Hneg. lia.
  - inversion H; subst. split; [|split].
    + exists 0%nat. repeat split; try reflexivity; try lia. apply (Hbound 0%nat). lia.
    + intros e He. inversion He; subst. now split.
    + intros He. discriminate.
Qed.

(** X2. With a cap of 0 or more and a provider selected, the call ends
    with the outcome of one of the attempts 0 to [maxRetries]: a response
    returned is the response of the first attempt that did not throw, and
    every attempt before it threw a retryable error; an error thrown is
    the error of an attempt that was not retryable or was the last attempt
    the cap allows. *)
Theorem X2_result_comes_from_an_attempt
    (request : Z -> Result LlmInterface.LLMResponse) (maxRetries : Z) :
  0 <= maxRetries ->
  exists res slept n,
    LlmInterface.callLLM (Ok tt) request maxRetries = Some (res, slept) /\
    Z.of_nat n <= maxRetries /\
    res = request (Z.of_nat n) /\
    slept = LlmInterface.backoff n /\
    (forall i, (i < n)%nat ->
       exists e, request (Z.of_nat i) = Throw e /\ LlmInterface.isRetryable e = true) /\
    (forall e, res = Throw e ->
       LlmInterface.isRetryable e = false \/ Z.of_nat n = maxRetries).
Proof.
  intros Hcap.
  destruct (callLLM_total (Ok tt) request maxRetries) as (res & slept & H).
  exists res, slept. pose proof H as Hrun.
  unfold LlmInterface.callLLM in H.
  change 0 with (Z.of_nat 0) in H.
  apply attemptLoop_inv in H
    as [(Hneg & _ & _) | (n & delays & _ & Hn & Hres & Hdec & Hall & Hs & Hb)];
    [simpl in Hneg; lia|].
  exists n. split; [exact Hrun|]. split; [exact Hn|]. split; [exact Hres|].
  split; [simpl in Hs, Hb; congruence|]. split.
  - intros i Hi. apply Hall. lia.
  - intros e He. unfold LlmInterface.decisive in Hdec. rewrite <- Hres, He in Hdec.
    apply orb_true_iff in Hdec as [Hr|Hl].
    + left. now apply negb_true_iff in Hr.
    + right. now apply Z.eqb_eq in Hl.
Qed.

Lemma X2_on_sample :
  exists res slept n,
    LlmInterface.callLLM (Ok tt) Sample.flaky 4 = Some (res, slept) /\
    Z.of_nat n <= 4 /\ res = Sample.flaky (Z.of_nat n).
Proof.
  destruct (X2_result_comes_from_an_attempt Sample.flaky 4)
    as (res & slept & n & Hrun & Hn & Hres & _).
  - lia.
  - exists res, slept, n. now repeat split.
Defined.

(** ** Keyword and pattern lists *)

Lemma existsb_filter_length {A : Type} (f : A -> bool) (l : list A) :
  existsb f l = true <-> (1 <= length (List.filter f l))%nat.
Proof.
  induction l as [|x l IH]; simpl; [split; [discriminate | lia]|].
  destruct (f x); simpl; [split; [lia | reflexivity]|]. exact IH.
Qed.

Lemma contains_iff_count (text : string) (keywords : list string) :
  containsKeyword text keywords = true <-> 1 <= countKeywordMatches text keywords.
Proof.
  unfold containsKeyword, countKeywordMatches. rewrite existsb_filter_length. lia.
Qed.

(** X3. The number of keyword matches lies between 0 and the length of
    the keyword list, and a text contains a keyword exactly when the
    number of matches is at least 1: the subject tier (one match is
    enough) and the body tier (two matches are needed) test the same
    matches. *)
Theorem X3_contains_iff_one_match (text : string) (keywords : list string) :
  0 <= countKeywordMatches text keywords <= Z.of_nat (length keywords) /\
  (containsKeyword text keywords = true <-> 1 <= countKeywordMatches text keywords).
Proof.
  split; [|apply contains_iff_count].
  unfold countKeywordMatches.
  pose proof (List.filter_length_le
                (fun kw => includes (toLowerCase text) (toLowerCase kw)) keywords). lia.
Qed.

Lemma includes_empty (s : string) : includes s "" = true.
Proof. destruct s; reflexivity. Qed.

Lemma endsWith_empty (s : string) : endsWith s "" = true.
Proof.
  apply endsWith_spec. exists s.
  induction s as [|c s IH]; [reflexivity|].
  change (String c s = String c (String.append s "")). now f_equal.
Qed.

(** X4. A sender list that holds the bare pattern [*] matches every
    address, and a keyword list that holds the empty keyword matches every
    text; an empty sender list matches no address and an empty keyword
    list matches no text. *)
Theorem X4_catch_all_entries (address text : string) (patterns keywords : list string) :
  "*" ∈ patterns ->
  "" ∈ keywords ->
  matchesSenderList address patterns = true /\
  containsKeyword text keywords = true /\
  1 <= countKeywordMatches text keywords /\
  matchesSenderList address [] = false /\
  containsKeyword text [] = false /\
  countKeywordMatches text [] = 0.
Proof.
  intros Hp Hk.
  assert (Hc : containsKeyword text keywords = true).
  { unfold containsKeyword. apply existsb_exists. exists "".
    split; [now apply list_elem_of_In|]. apply includes_empty. }
  split; [|split; [exact Hc|split; [now apply contains_iff_count|now repeat split]]].
  unfold matchesSenderList. apply existsb_exists. exists "*".
  split; [now apply list_elem_of_In|].
  unfold matchesSenderPattern. simpl. apply endsWith_empty.
Qed.

Lemma X4_on_sample :
  matchesSenderList "anyone@example.com" ["billing@shop.example"; "*"] = true.
Proof.
  apply (X4_catch_all_entries "anyone@example.com" "" ["billing@shop.example"; "*"] [""]).
  - apply list_elem_of_In. simpl. tauto.
  - apply list_elem_of_In. simpl. tauto.
Defined.

(** ** Merged rules and categories *)

Lemma existsb_app_l {A : Type} (f : A -> bool) (l l' : list A) :
  existsb f l = true -> existsb f (l ++ l') = true.
Proof. intros H. rewrite existsb_app, H. reflexivity. Qed.

(** X5. Merging never weakens the baseline rules: whatever the user rule
    file holds, a sender matched by a baseline sender list is matched by
    the merged list and a text matched by a baseline keyword list is
    matched by the merged list; without a user rule file the merged lists
    are the baseline lists.  So a message whose sender is on the baseline
    ignore list is stored as not relevant with tag [rules_ignore], whatever
    the user rule file says. *)
Theorem X5_baseline_rules_stay_in_force (clock : nat -> Z) (defaultRules : DefaultRules)
    (ids : list string) (w : World) (emailId : string) (email : EmailRow) :
  emailId ∈ ids ->
  getClassification emailId w = None ->
  emails w !! emailId = Some email ->
  matchesSenderList (sender email) (dr_ignore defaultRules) = true ->
  (exists c,
     getClassification emailId (snd (classifyEmails clock defaultRules ids w)) = Some c /\
     is_financial c = 0 /\ category c = None /\ confidence c = 1.0%Q /\
     classified_by c = "rules_ignore") /\
  (forall user address text,
     let m := mergeRules defaultRules user in
     (matchesSenderList address (dr_ignore defaultRules) = true ->
      matchesSenderList address (ignoreSenders m) = true) /\
     (matchesSenderList address (dr_financial defaultRules) = true ->
      matchesSenderList address (financialSenders m) = true) /\
     (containsKeyword text (dr_subject defaultRules) = true ->
      containsKeyword text (subjectKeywords m) = true) /\
     (countKeywordMatches text (dr_body defaultRules)
      <= countKeywordMatches text (bodyKeywords m))) /\
  mergeRules defaultRules None
    = {| financialSenders := dr_financial defaultRules;
         ignoreSenders := dr_ignore defaultRules;
         subjectKeywords := dr_subject defaultRules;
         bodyKeywords := dr_body defaultRules |}.
Proof.
  intros Hin Hc He Hign. split; [|split].
  - assert (Hm : matchesSenderList (sender email)
                   (ignoreSenders (mergeRules defaultRules (rulesUser w))) = true)
      by (apply existsb_app_l; exact Hign).
    destruct (loop_decides clock defaultRules (mergeRules defaultRules (rulesUser w)) ids
                {| total := 0; financialCount := 0; financialEmailIds := [];
                   tokensUsed := 0 |} w emailId email Hin Hc He) as [at_ Hrow].
    rewrite (firstMatch_ignore _ _ Hm) in Hrow.
    eexists. split; [exact Hrow|]. now repeat split.
  - intros user address text m. repeat split.
    + apply existsb_app_l.
    + apply existsb_app_l.
    + apply existsb_app_l.
    + unfold countKeywordMatches, m, mergeRules, bodyKeywords.
      rewrite List.filter_app, length_app. lia.
  - unfold mergeRules, orEmpty. now rewrite !app_nil_r.
Qed.

Lemma X5_on_sample :
  exists c,
    getClassification "m1"
      (snd (classifyEmails Sample.clock Sample.rules ["m1"] Sample.inboxGrown)) = Some c /\
    is_financial c = 0.
Proof.
  destruct (X5_baseline_rules_stay_in_force Sample.clock Sample.rules ["m1"]
              Sample.inboxGrown "m1" Sample.offer) as ((c & Hc & Hf & _) & _).
  - constructor.
  - vm_compute; reflexivity.
  - vm_compute; reflexivity.
  - vm_compute; reflexivity.
  - exists c. now split.
Defined.

Lemma firstCategory_spec (senderLower subjectLower : string)
    (entries : list (string * CategoryHints)) :
  match firstCategory senderLower subjectLower entries with
  | Some cat =>
      exists before hints after,
        entries = before ++ (cat, hints) :: after /\
        hintsMatch senderLower subjectLower hints = true /\
        Forall (fun entry => hintsMatch senderLower subjectLower (snd entry) = false) before
  | None =>
      Forall (fun entry => hintsMatch senderLower subjectLower (snd entry) = false) entries
  end.
Proof.
  induction entries as [|[cat hints] rest IH]; simpl; [constructor|].
  destruct (hintsMatch senderLower subjectLower hints) eqn:Hm.
  - exists [], hints, rest. now repeat split.
  - destruct (firstCategory senderLower subjectLower rest) as [c|].
    + destruct IH as (before & h & after & -> & Hh & Hb).
      exists ((cat, hints) :: before), h, after. repeat split; [exact Hh|].
      now constructor.
    + now constructor.
Qed.

(** X6. Category detection never returns null.  It returns the first
    category, in the order of the rule file, one of whose sender hints
    occurs in the lower-cased sender or one of whose keyword hints occurs
    in the lower-cased subject; categories listed after it are not
    consulted; when no category matches it returns [other_financial]. *)
Theorem X6_first_category_or_default (sender subject : string)
    (categories : list (string * CategoryHints)) :
  exists cat,
    detectCategory sender subject categories = Some cat /\
    ((exists before hints after,
        categories = before ++ (cat, hints) :: after /\
        hintsMatch (toLowerCase sender) (toLowerCase subject) hints = true /\
        Forall (fun entry =>
                  hintsMatch (toLowerCase sender) (toLowerCase subject) (snd entry) = false)
          before) \/
     (cat = "other_financial" /\
      Forall (fun entry =>
                hintsMatch (toLowerCase sender) (toLowerCase subject) (snd entry) = false)
        categories)).
Proof.
  unfold detectCategory.
  pose proof (firstCategory_spec (toLowerCase sender) (toLowerCase subject) categories) as H.
  destruct (firstCategory (toLowerCase sender) (toLowerCase subject) categories) as [c|].
  - exists c. split; [reflexivity|]. now left.
  - exists "other_financial". split; [reflexivity|]. now right.
Qed.

(** ** The classification loop as a whole *)

Section WholeLoop.

Variable clock : nat -> Z.
Variable defaultRules : DefaultRules.
Variable m : Merged.

Lemma classifyStep_stored (r : ClassifyResult) (w : World) (i : string)
    (c : ClassificationRow) :
  getClassification i w = Some c ->
  classifyStep clock defaultRules m (r, w) i
    = (counted (negb (is_financial c =? 0)) i r, w).
Proof. intros H. unfold classifyStep. now rewrite H. Qed.

Lemma classifyStep_missing (r : ClassifyResult) (w : World) (i : string) :
  getClassification i w = None -> emails w !! i = None ->
  classifyStep clock defaultRules m (r, w) i = (r, w).
Proof.
  intros Hc He. unfold classifyStep. now rewrite Hc, getEmailsByIds_single, He.
Qed.

Lemma counted_consistent (ids : list string) (b : bool) (i : string)
    (r : ClassifyResult) (w : World) :
  Tally.consistent ids r w -> i ∈ ids ->
  (b = true -> exists c, getClassification i w = Some c /\ is_financial c <> 0) ->
  Tally.consistent ids (counted b i r) w.
Proof.
  intros (H1 & H2 & H3 & H4) Hi Hb. unfold Tally.consistent, counted.
  destruct b; simpl.
  - rewrite length_app. simpl.
    split; [lia|]. split; [lia|]. split; [exact H3|].
    intros j Hj. apply elem_of_app in Hj as [Hj|Hj]; [now apply H4|].
    apply list_elem_of_singleton in Hj. subst j. split; [exact Hi | now apply Hb].
  - split; [lia|]. split; [lia|]. split; [exact H3 | exact H4].
Qed.

Lemma classifyStep_consistent (ids : list string) (r : ClassifyResult) (w : World)
    (i : string) :
  Tally.consistent ids r w -> i ∈ ids ->
  Tally.consistent ids (fst (classifyStep clock defaultRules m (r, w) i))
    (snd (classifyStep clock defaultRules m (r, w) i)).
Proof.
  intros Hinv Hi.
  destruct (getClassification i w) as [c|] eqn:Hc.
  - rewrite (classifyStep_stored r w i c Hc). cbn [fst snd].
    apply counted_consistent; [exact Hinv | exact Hi|].
    intros Hb. exists c. split; [exact Hc|].
    apply negb_true_iff, Z.eqb_neq in Hb. exact Hb.
  - destruct (emails w !! i) as [e|] eqn:He.
    + rewrite (classifyStep_fresh clock defaultRules m r w i e Hc He). cbn [fst snd].
      apply counted_consistent; [|exact Hi|].
      * destruct Hinv as (H1 & H2 & H3 & H4).
        split; [exact H1|]. split; [exact H2|]. split; [exact H3|].
        intros j Hj. destruct (H4 j Hj) as (Hjin & c & Hc0 & Hf).
        split; [exact Hjin|]. exists c. split; [|exact Hf].
        unfold getClassification, insertClassification in *. simpl.
        rewrite lookup_insert_ne; [exact Hc0|]. simpl. congruence.
      * intros Hb. eexists. split.
        -- unfold getClassification, insertClassification. simpl. apply lookup_insert_eq.
        -- simpl. rewrite Hb. discriminate.
    + rewrite (classifyStep_missing r w i Hc He). exact Hinv.
Qed.

Lemma loop_consistent (ids0 ids : list string) (r : ClassifyResult) (w : World) :
  Tally.consistent ids0 r w -> (forall i, i ∈ ids -> i ∈ ids0) ->
  Tally.consistent ids0 (fst (classifyLoop clock defaultRules m ids (r, w)))
    (snd (classifyLoop clock defaultRules m ids (r, w))).
Proof.
  revert r w; induction ids as [|i ids IH]; intros r w Hinv Hsub; [exact Hinv|].
  rewrite loop_cons.
  pose proof (classifyStep_consistent ids0 r w i Hinv (Hsub i ltac:(left))) as H.
  destruct (classifyStep clock defaultRules m (r, w) i) as [r1 w1].
  apply IH; [exact H|]. intros j Hj. apply Hsub. now right.
Qed.

(** The counters of a run can be read off the world it leaves. *)
Lemma loop_tally (ids : list string) (r : ClassifyResult) (w : World) :
  fst (classifyLoop clock defaultRules m ids (r, w))
    = Tally.over (snd (classifyLoop clock defaultRules m ids (r, w))) ids r.
Proof.
  revert r w; induction ids as [|i ids IH]; intros r w; [reflexivity|].
  rewrite loop_cons.
  assert (Hstep : forall r1 w1,
             classifyStep clock defaultRules m (r, w) i = (r1, w1) ->
             r1 = Tally.step (snd (classifyLoop clock defaultRules m ids (r1, w1))) r i).
  { intros r1 w1 Hs. unfold Tally.step.
    destruct (getClassification i w) as [c|] eqn:Hc.
    - rewrite (classifyStep_stored r w i c Hc) in Hs. inversion Hs; subst.
      now rewrite (loop_keeps clock defaultRules m ids _ w1 i c Hc).
    - destruct (emails w !! i) as [e|] eqn:He.
      + rewrite (classifyStep_fresh clock defaultRules m r w i e Hc He) in Hs.
        inversion Hs; subst.
        erewrite loop_keeps;
          [|unfold getClassification, insertClassification; simpl; apply lookup_insert_eq].
        simpl. now destruct (Tiers.relevant (Tiers.firstMatch m e)).
      + rewrite (classifyStep_missing r w i Hc He) in Hs. inversion Hs; subst.
        now rewrite (loop_absent clock defaultRules m ids _ w1 i Hc He). }
  destruct (classifyStep clock defaultRules m (r, w) i) as [r1 w1].
  rewrite IH. specialize (Hstep r1 w1 eq_refl).
  unfold Tally.over. simpl fold_left. now rewrite <- Hstep.
Qed.

(** On a world in which every listed id is classified or has no email
    row, the loop only counts. *)
Lemma loop_settled (ids : list string) (r : ClassifyResult) (w : World) :
  (forall i, i ∈ ids -> is_Some (getClassification i w) \/ emails w !! i = None) ->
  classifyLoop clock defaultRules m ids (r, w) = (Tally.over w ids r, w).
Proof.
  revert r; induction ids as [|i ids IH]; intros r Hs; [reflexivity|].
  rewrite loop_cons. unfold Tally.over. simpl fold_left. fold (Tally.over).
  assert (Hstep : classifyStep clock defaultRules m (r, w) i = (Tally.step w r i, w)).
  { unfold Tally.step. destruct (getClassification i w) as [c|] eqn:Hc.
    - now apply classifyStep_stored.
    - destruct (Hs i ltac:(left)) as [[c Hc']|He]; [congruence|].
      now apply classifyStep_missing. }
  rewrite Hstep. apply IH. intros j Hj. apply Hs. now right.
Qed.

Lemma loop_settles (ids : list string) (r : ClassifyResult) (w : World) (i : string) :
  i ∈ ids ->
  is_Some (getClassification i (snd (classifyLoop clock defaultRules m ids (r, w)))) \/
  emails (snd (classifyLoop clock defaultRules m ids (r, w))) !! i = None.
Proof.
  intros Hi. destruct (loop_frame clock defaultRules m ids r w) as (Hem & _).
  rewrite Hem.
  destruct (getClassification i w) as [c|] eqn:Hc.
  - left. exists c. now apply loop_keeps.
  - destruct (emails w !! i) as [e|] eqn:He; [|now right].
    left. destruct (loop_decides clock defaultRules m ids r w i e Hi Hc He) as [at_ H].
    eexists. exact H.
Qed.

(** Where each stored classification comes from. *)
Lemma loop_origin (ids : list string) (r : ClassifyResult) (w : World) (i : string)
    (c : ClassificationRow) :
  getClassification i (snd (classifyLoop clock defaultRules m ids (r, w))) = Some c ->
  getClassification i w = Some c \/
  (getClassification i w = None /\ i ∈ ids /\
   exists e at_, emails w !! i = Some e /\
                 c = Tiers.rowOf defaultRules i e (Tiers.firstMatch m e) at_).
Proof.
  revert r w; induction ids as [|k ids IH]; intros r w H; [now left|].
  rewrite loop_cons in H.
  destruct (getClassification k w) as [ck|] eqn:Hck.
  - rewrite (classifyStep_stored r w k ck Hck) in H.
    apply IH in H as [H | (H1 & H2 & H3)]; [now left|].
    right. split; [exact H1|]. split; [now right | exact H3].
  - destruct (emails w !! k) as [e|] eqn:Hek.
    + rewrite (classifyStep_fresh clock defaultRules m r w k e Hck Hek) in H.
      apply IH in H as [H | (H1 & H2 & e' & at_ & H3 & H4)].
      * unfold getClassification, insertClassification in H. simpl in H.
        destruct (decide (k = i)) as [->|Hne].
        -- rewrite lookup_insert_eq in H. inversion H; subst.
           right. split; [exact Hck|]. split; [now left|]. eauto.
        -- rewrite lookup_insert_ne in H by (simpl; congruence). now left.
      * unfold getClassification, insertClassification in H1. simpl in H1.
        destruct (decide (k = i)) as [->|Hne].
        -- rewrite lookup_insert_eq in H1. discriminate.
        -- rewrite lookup_insert_ne in H1 by (simpl; congruence).
           right. split; [exact H1|]. split; [now right|]. eauto.
    + rewrite (classifyStep_missing r w k Hck Hek) in H.
      apply IH in H as [H | (H1 & H2 & H3)]; [now left|].
      right. split; [exact H1|]. split; [now right | exact H3].
Qed.

End WholeLoop.

Lemma unclassified_elem (w : World) (i : string) :
  i ∈ getUnclassifiedEmailIds w <->
  is_Some (emails w !! i) /\ getClassification i w = None.
Proof.
  unfold getUnclassifiedEmailIds, getClassification. rewrite list_elem_of_fmap. split.
  - intros ([k e] & -> & Hin). apply list_elem_of_In, List.filter_In in Hin as [Hin Hf].
    apply list_elem_of_In, elem_of_map_to_list in Hin. simpl in *.
    split; [now exists e|]. now destruct (classifications w !! k).
  - intros ([e He] & Hc). exists (i, e). split; [reflexivity|].
    apply list_elem_of_In, List.filter_In. split.
    + apply list_elem_of_In, elem_of_map_to_list. exact He.
    + simpl. now rewrite Hc.
Qed.

(** X7. The counters a classification run returns agree with one
    another and with the store: the relevant count is the length of the
    list of relevant ids, it is at most the total, the total is at most
    the number of ids given, no tokens are reported, and every id in the
    list of relevant ids was given and is stored with a relevance flag
    other than 0. *)
Theorem X7_counters_agree (clock : nat -> Z) (defaultRules : DefaultRules)
    (ids : list string) (w : World) :
  let result := fst (classifyEmails clock defaultRules ids w) in
  let w' := snd (classifyEmails clock defaultRules ids w) in
  financialCount result = Z.of_nat (length (financialEmailIds result)) /\
  0 <= financialCount result <= total result /\
  total result <= Z.of_nat (length ids) /\
  tokensUsed result = 0 /\
  forall i, i ∈ financialEmailIds result ->
    i ∈ ids /\ exists c, getClassification i w' = Some c /\ is_financial c <> 0.
Proof.
  intros result w'. subst result w'. rewrite classifyEmails_loop.
  set (m := mergeRules defaultRules (rulesUser w)).
  set (zero := {| total := 0; financialCount := 0; financialEmailIds := [];
                  tokensUsed := 0 |}).
  assert (H0 : Tally.consistent ids zero w).
  { unfold Tally.consistent, zero. simpl. repeat split; try lia.
    all: now apply not_elem_of_nil in H. }
  destruct (loop_consistent clock defaultRules m ids ids zero w H0 (fun i Hi => Hi))
    as (H1 & H2 & H3 & H4).
  pose proof (loop_total clock defaultRules m ids zero w) as Ht.
  pose proof (List.filter_length_le (Tiers.handled w) ids) as Hl.
  split; [exact H1|]. split; [lia|]. split; [rewrite Ht; simpl; lia|].
  split; [exact H3 | exact H4].
Qed.

(** X8. Classifying the ids the store reports as unclassified leaves no
    email unclassified: afterwards every stored email has a
    classification and the list of unclassified ids is empty. *)
Theorem X8_classify_all_leaves_none (clock : nat -> Z) (defaultRules : DefaultRules)
    (w : World) :
  let w' := snd (classifyEmails clock defaultRules (getUnclassifiedEmailIds w) w) in
  getUnclassifiedEmailIds w' = [] /\
  forall i e, emails w' !! i = Some e -> is_Some (getClassification i w').
Proof.
  intros w'. subst w'. rewrite classifyEmails_loop.
  set (m := mergeRules defaultRules (rulesUser w)).
  set (zero := {| total := 0; financialCount := 0; financialEmailIds := [];
                  tokensUsed := 0 |}).
  destruct (loop_frame clock defaultRules m (getUnclassifiedEmailIds w) zero w) as (Hem & _).
  assert (Hall : forall i e,
             emails (snd (classifyLoop clock defaultRules m (getUnclassifiedEmailIds w)
                            (zero, w))) !! i = Some e ->
             is_Some (getClassification i
                        (snd (classifyLoop clock defaultRules m
                                (getUnclassifiedEmailIds w) (zero, w))))).
  { intros i e He. rewrite Hem in He.
    destruct (getClassification i w) as [c|] eqn:Hc.
    - exists c. now apply loop_keeps.
    - assert (Hi : i ∈ getUnclassifiedEmailIds w)
        by (apply unclassified_elem; split; [now exists e | exact Hc]).
      destruct (loop_decides clock defaultRules m _ zero w i e Hi Hc He) as [at_ H].
      eexists. exact H. }
  split; [|exact Hall].
  apply elem_of_nil_inv. intros i Hi. apply unclassified_elem in Hi as [[e He] Hc].
  destruct (Hall i e He) as [c Hc']. congruence.
Qed.

(** X9. A classification run is idempotent as a whole: run again over
    the same ids on the world the first run left, it returns the same
    counters and the same list of relevant ids, and leaves that world as
    it is, without a write or a clock reading. *)
Theorem X9_second_run_changes_nothing (clock : nat -> Z) (defaultRules : DefaultRules)
    (ids : list string) (w : World) :
  classifyEmails clock defaultRules ids (snd (classifyEmails clock defaultRules ids w))
    = classifyEmails clock defaultRules ids w.
Proof.
  rewrite (classifyEmails_loop clock defaultRules ids w).
  set (m := mergeRules defaultRules (rulesUser w)).
  set (zero := {| total := 0; financialCount := 0; financialEmailIds := [];
                  tokensUsed := 0 |}).
  rewrite classifyEmails_loop. fold zero.
  rewrite loop_settled by (intros i Hi; now apply loop_settles).
  rewrite <- loop_tally.
  now destruct (classifyLoop clock defaultRules m ids (zero, w)).
Qed.

(** X10. A classification run writes only for ids it was given that
    have an email row and no classification yet: every classification in
    the store afterwards either was there before, unchanged, or belongs to
    such an id, carries that id, and is the row of the first tier
    matching that email. *)
Theorem X10_writes_only_for_listed_rows (clock : nat -> Z) (defaultRules : DefaultRules)
    (ids : list string) (w : World) (i : string) (c : ClassificationRow) :
  getClassification i (snd (classifyEmails clock defaultRules ids w)) = Some c ->
  getClassification i w = Some c \/
  (getClassification i w = None /\ i ∈ ids /\ email_id c = i /\
   exists e at_,
     emails w !! i = Some e /\
     c = Tiers.rowOf defaultRules i e
           (Tiers.firstMatch (mergeRules defaultRules (rulesUser w)) e) at_).
Proof.
  rewrite classifyEmails_loop. intros H.
  apply loop_origin in H as [H | (H1 & H2 & e & at_ & H3 & H4)]; [now left|].
  right. split; [exact H1|]. split; [exact H2|]. split; [now subst c|]. eauto.
Qed.

Lemma X10_on_sample :
  getClassification "m2" Sample.inbox = None /\ "m2" ∈ ["m2"; "zz"].
Proof.
  destruct (X10_writes_only_for_listed_rows Sample.clock Sample.rules ["m2"; "zz"]
              Sample.inbox "m2"
              {| email_id := "m2"; is_financial := 1; category := Some "bank_alert";
                 confidence := 1.0%Q; classified_by := "rules_sender";
                 classified_at := 1700000000000 |}) as [H | (H1 & H2 & _)].
  - vm_compute. reflexivity.
  - vm_compute in H. discriminate H.
  - now split.
Defined.

(** ** The store *)

Section StoreFacts.

(** X11. Writing a classification.  The write throws the foreign-key
    error and changes nothing when no email with the id is stored.  When
    one is stored the write succeeds: the row written is the one read
    back, a later write for the same email succeeds too and replaces it,
    emails and the classifications of other emails are untouched, and the
    email leaves the list of unclassified ids while every other id stays
    in or out of it as before.  Every write of the classifier is of the
    second kind: it is for an email whose row it has just read. *)
Theorem X11_classification_write_then_read (c c' : ClassificationRow) (w : World) :
  (emails w !! email_id c = None ->
   Schema.insertClassification c w = (Throw Schema.foreignKeyFailed, w)) /\
  (is_Some (emails w !! email_id c) ->
   exists w1,
     Schema.insertClassification c w = (Ok tt, w1) /\
     emails w1 = emails w /\
     getClassification (email_id c) w1 = Some c /\
     (forall j, j <> email_id c -> getClassification j w1 = getClassification j w) /\
     (email_id c ∉ getUnclassifiedEmailIds w1) /\
     (forall j, j ∈ getUnclassifiedEmailIds w1 <->
                j ∈ getUnclassifiedEmailIds w /\ j <> email_id c) /\
     (email_id c' = email_id c ->
      exists w2,
        Schema.insertClassification c' w1 = (Ok tt, w2) /\
        getClassification (email_id c) w2 = Some c')) /\
  (forall clock defaultRules m r i,
     snd (classifyStep clock defaultRules m (r, w) i) = w \/
     exists row,
       email_id row = i /\
       Schema.insertClassification row (setTicks (S (ticks w)) w)
         = (Ok tt, snd (classifyStep clock defaultRules m (r, w) i))).
Proof.
  assert (Hsame : getClassification (email_id c) (insertClassification c w) = Some c)
    by (unfold getClassification, insertClassification; simpl; apply lookup_insert_eq).
  assert (Hother : forall j, j <> email_id c ->
            getClassification j (insertClassification c w) = getClassification j w)
    by (intros j Hj; unfold getClassification, insertClassification; simpl;
        now apply lookup_insert_ne).
  unfold Schema.insertClassification, emailExists. split; [|split].
  - now intros ->.
  - intros [e He]. rewrite He. exists (insertClassification c w).
    split; [reflexivity|]. split; [reflexivity|]. split; [exact Hsame|].
    split; [exact Hother|]. split; [|split].
    + rewrite unclassified_elem, Hsame. intros [_ H]. discriminate.
    + intros j. rewrite !unclassified_elem. split.
      * intros [Hj Hc]. destruct (decide (j = email_id c)) as [->|Hne]; [congruence|].
        rewrite Hother in Hc by exact Hne. now repeat split.
      * intros [[Hj Hc] Hne]. split; [exact Hj|]. now rewrite Hother.
    + intros Hid. exists (insertClassification c' (insertClassification c w)).
      rewrite Hid. change (emails (insertClassification c w)) with (emails w).
      rewrite He. split; [reflexivity|]. rewrite <- Hid.
      unfold getClassification, insertClassification. simpl. apply lookup_insert_eq.
  - intros clock defaultRules m r i.
    destruct (classifyStep_world clock defaultRules m r w i)
      as [H | (_ & [e He] & row & Hid & Hw)]; [now left|].
    right. exists row. split; [exact Hid|]. rewrite Hid.
    change (emails (setTicks (S (ticks w)) w)) with (emails w).
    now rewrite He, Hw.
Qed.

(** X12. Storing an email never replaces a stored one: after
    [insertEmail] the email's id exists, every row stored before is still
    the row read back, the new row is read back exactly when its id was
    free, and no classification changes. *)
Theorem X12_first_stored_email_wins (e : EmailRow) (w : World) :
  emailExists (id e) (insertEmail e w) = true /\
  (forall i old, emails w !! i = Some old -> emails (insertEmail e w) !! i = Some old) /\
  (emails w !! id e = None ->
   emails (insertEmail e w) !! id e = Some e /\
   getEmailsByIds [id e] (insertEmail e w) = [e]) /\
  (forall old, emails w !! id e = Some old ->
     insertEmail e w = w /\ getEmailsByIds [id e] (insertEmail e w) = [old]) /\
  classifications (insertEmail e w) = classifications w.
Proof.
  unfold emailExists, insertEmail.
  destruct (emails w !! id e) as [old|] eqn:He.
  - rewrite He. split; [reflexivity|]. split; [tauto|]. split; [discriminate|].
    split; [|reflexivity]. intros old' Hold. inversion Hold; subst.
    split; [reflexivity|]. now rewrite getEmailsByIds_single, He.
  - split; [simpl; now rewrite lookup_insert_eq|]. split.
    + intros i old Hi. simpl. rewrite lookup_insert_ne; [exact Hi | congruence].
    + split; [|split; [discriminate | reflexivity]].
      intros _. split; [simpl; now rewrite lookup_insert_eq|].
      rewrite getEmailsByIds_single. simpl. now rewrite lookup_insert_eq.
Qed.

Lemma X12_on_sample :
  emails (insertEmail Sample.power Sample.inbox) !! "m6" = Some Sample.power.
Proof.
  destruct (X12_first_stored_email_wins Sample.power Sample.inbox) as (_ & _ & H & _).
  apply H. vm_compute. reflexivity.
Defined.

Lemma insertByReceived_perm (e : EmailRow) (l : list EmailRow) :
  Permutation (insertByReceived e l) (e :: l).
Proof.
  induction l as [|x l IH]; simpl; [reflexivity|].
  destruct (received_at x <? received_at e); [reflexivity|].
  rewrite IH. apply perm_swap.
Qed.

Lemma orderByReceivedDesc_perm (l : list EmailRow) :
  Permutation (orderByReceivedDesc l) l.
Proof.
  unfold orderByReceivedDesc. induction l as [|x l IH]; simpl; [reflexivity|].
  rewrite insertByReceived_perm. now constructor.
Qed.

Lemma insertByReceived_sorted (e : EmailRow) (l : list EmailRow) :
  Order.newestFirst l -> Order.newestFirst (insertByReceived e l).
Proof.
  unfold Order.newestFirst. induction 1 as [|x l Hs IH Hx]; simpl.
  - repeat constructor.
  - destruct (received_at x <? received_at e) eqn:Hlt.
    + apply Z.ltb_lt in Hlt. constructor; [now constructor|].
      constructor; [unfold Order.notOlder; lia|].
      rewrite Forall_forall in *. intros y Hy. specialize (Hx y Hy).
      unfold Order.notOlder in *. lia.
    + apply Z.ltb_ge in Hlt. constructor; [exact IH|].
      rewrite (insertByReceived_perm e l). constructor; [exact Hlt | exact Hx].
Qed.

Lemma orderByReceivedDesc_sorted (l : list EmailRow) :
  Order.newestFirst (orderByReceivedDesc l).
Proof.
  unfold orderByReceivedDesc. induction l as [|x l IH]; simpl; [constructor|].
  now apply insertByReceived_sorted.
Qed.


Lemma omap_length_le {A B : Type} (f : A -> option B) (l : list A) :
  (length (omap f l) <= length l)%nat.
Proof.
  induction l as [|x l IH]; [reflexivity|].
  cbn [omap list_omap]. destruct (f x); cbn [length]; lia.
Qed.

(** X14. Looking emails up by id returns nothing for an empty list of
    ids; otherwise it returns exactly the rows stored under the given
    ids, each once whatever the repetitions in the list, newest first, and
    silently leaves out the ids that have no row. *)
Theorem X14_emails_by_ids (ids : list string) (w : World) :
  getEmailsByIds [] w = [] /\
  (forall row,
     row ∈ getEmailsByIds ids w <-> exists i, i ∈ ids /\ emails w !! i = Some row) /\
  Order.newestFirst (getEmailsByIds ids w) /\
  (length (getEmailsByIds ids w) <= length (newSet ids))%nat.
Proof.
  split; [reflexivity|].
  assert (Hmem : forall row, row ∈ omap (fun i => emails w !! i) (newSet ids) <->
                             exists i, i ∈ ids /\ emails w !! i = Some row).
  { intros row. rewrite list_elem_of_omap. split.
    - intros (i & Hi & He). exists i. split; [|exact He]. now apply newSet_elem.
    - intros (i & Hi & He). exists i. split; [|exact He]. now apply newSet_elem. }
  destruct ids as [|i0 ids].
  - split; [|split; [constructor | simpl; lia]].
    intros row. simpl. split; [intros H; now apply not_elem_of_nil in H|].
    intros (i & Hi & _). now apply not_elem_of_nil in Hi.
  - unfold getEmailsByIds. split; [|split].
    + intros row. rewrite orderByReceivedDesc_perm. apply Hmem.
    + apply orderByReceivedDesc_sorted.
    + rewrite (Permutation_length (orderByReceivedDesc_perm _)).
      apply omap_length_le.
Qed.

End StoreFacts.

(** ** The run table *)

Section RunTableFacts.

Lemma notFinishedLater_refl (a : PipelineRunRow) : Order.notFinishedLater a a.
Proof.
  unfold Order.notFinishedLater, finishedLater.
  destruct (finished_at a); [apply Z.ltb_irrefl | reflexivity].
Qed.

Lemma notFinishedLater_trans (a b c : PipelineRunRow) :
  Order.notFinishedLater a b -> Order.notFinishedLater b c -> Order.notFinishedLater a c.
Proof.
  unfold Order.notFinishedLater, finishedLater.
  destruct (finished_at a), (finished_at b), (finished_at c); try congruence.
  rewrite !Z.ltb_ge. lia.
Qed.

Lemma finishedLater_not (a b : PipelineRunRow) :
  finishedLater (finished_at a) (finished_at b) = true -> Order.notFinishedLater b a.
Proof.
  unfold Order.notFinishedLater, finishedLater.
  destruct (finished_at a), (finished_at b); try congruence.
  rewrite Z.ltb_lt, Z.ltb_ge. lia.
Qed.

(** The running pick: it is the seed or a row of the list, and no row
    of the list, nor the seed, sorts before it. *)
Lemma pickLatest_spec (l : list PipelineRunRow) :
  forall b,
    exists r,
      pickLatest (Some b) l = Some r /\
      (r = b \/ r ∈ l) /\
      Order.notFinishedLater b r /\
      (forall x, x ∈ l -> Order.notFinishedLater x r).
Proof.
  induction l as [|x l IH]; intros b; simpl.
  - exists b. split; [reflexivity|]. split; [now left|].
    split; [apply notFinishedLater_refl|].
    intros x Hx. now apply not_elem_of_nil in Hx.
  - destruct (finishedLater (finished_at x) (finished_at b)) eqn:Hl.
    + destruct (IH x) as (r & Hr & Hin & Hb & Hall). exists r.
      split; [exact Hr|]. split.
      { right. destruct Hin as [->|Hin]; [left | now right]. }
      split.
      { eapply notFinishedLater_trans; [|exact Hb]. now apply finishedLater_not. }
      intros y Hy. apply elem_of_cons in Hy as [->|Hy]; [exact Hb | now apply Hall].
    + destruct (IH b) as (r & Hr & Hin & Hb & Hall). exists r.
      split; [exact Hr|]. split.
      { destruct Hin as [->|Hin]; [now left | right; now right]. }
      split; [exact Hb|].
      intros y Hy. apply elem_of_cons in Hy as [->|Hy]; [|now apply Hall].
      eapply notFinishedLater_trans; [|exact Hb]. exact Hl.
Qed.

Lemma successOrSkipped_spec (s : RunStatus) :
  successOrSkipped s = true <-> s = success \/ s = skipped.
Proof. destruct s; simpl; split; intros H; try tauto; try congruence; destruct H; congruence. Qed.

(** X15. The last-successful-run query answers with a stored run whose
    status is [success] or [skipped] and which no other such run beats on
    [finished_at] (a missing [finished_at] counting as the oldest); it
    answers with nothing exactly when no stored run has one of these two
    statuses, so that [running], [partial] and [failed] runs are never
    returned. *)
Theorem X15_last_successful_run (w : World) :
  (getLastSuccessfulRun w = None <->
   forall r, r ∈ pipeline_runs w -> status r <> success /\ status r <> skipped) /\
  (forall r, getLastSuccessfulRun w = Some r ->
     r ∈ pipeline_runs w /\
     (status r = success \/ status r = skipped) /\
     forall x, x ∈ pipeline_runs w -> status x = success \/ status x = skipped ->
               Order.notFinishedLater x r).
Proof.
  unfold getLastSuccessfulRun.
  set (ok := fun r : PipelineRunRow => successOrSkipped (status r)).
  assert (Hf : forall x, x ∈ List.filter ok (pipeline_runs w) <->
                         x ∈ pipeline_runs w /\ (status x = success \/ status x = skipped)).
  { intros x. rewrite !list_elem_of_In, List.filter_In. unfold ok.
    now rewrite successOrSkipped_spec. }
  destruct (List.filter ok (pipeline_runs w)) as [|b l] eqn:Hl.
  - split.
    + split; [|reflexivity]. intros _ r Hr.
      split; intros Hs; apply (not_elem_of_nil r), Hf; tauto.
    + discriminate.
  - simpl. destruct (pickLatest_spec l b) as (r & Hr & Hin & Hb & Hall).
    rewrite Hr. split.
    + split; [discriminate|]. intros Hnone. exfalso.
      assert (Hbin : b ∈ b :: l) by apply list_elem_of_here.
      apply Hf in Hbin as [Hbin Hs]. destruct (Hnone b Hbin). tauto.
    + intros r' Heq. inversion Heq; subst r'.
      assert (Hrin : r ∈ b :: l).
      { destruct Hin as [->|Hin]; [apply list_elem_of_here | now apply list_elem_of_further]. }
      apply Hf in Hrin as [Hrin Hs]. split; [exact Hrin|]. split; [exact Hs|].
      intros x Hx Hsx. assert (Hxin : x ∈ b :: l) by (apply Hf; tauto).
      apply elem_of_cons in Hxin as [->|Hxin]; [exact Hb | now apply Hall].
Qed.

End RunTableFacts.

(** ** One run of the pipeline *)

Section RunFacts.

Import Pipeline.

Lemma nextRowid_fresh (ids : list Z) (x : Z) : x ∈ ids -> x < nextRowid ids.
Proof. intros H. apply max_bound in H. unfold nextRowid. lia. Qed.

Lemma map_untouched {A} (p : A -> bool) (f : A -> A) (l : list A) :
  (forall x, x ∈ l -> p x = false) ->
  map (fun x => if p x then f x else x) l = l.
Proof.
  induction l as [|a l IH]; intros H; [reflexivity|]. simpl.
  rewrite (H a) by left. f_equal. apply IH. intros x Hx. apply H. now right.
Qed.

(** An update of the last row of the run table, the only one with its
    id. *)
Lemma update_tail (l : list PipelineRunRow) (i : Z) (r : PipelineRunRow) (u : RunUpdate)
    (w : World) :
  (forall x, x ∈ l -> r_id x <> i) -> r_id r = i ->
  pipeline_runs w = l ++ [r] ->
  pipeline_runs (updatePipelineRun i u w) = l ++ [applyUpdate u r].
Proof.
  intros Hl Hr Hw. unfold updatePipelineRun. cbn [pipeline_runs setPipelineRuns].
  rewrite Hw, map_app. f_equal.
  - apply map_untouched. intros x Hx. apply Z.eqb_neq. now apply Hl.
  - simpl. now rewrite (proj2 (Z.eqb_eq _ _) Hr).
Qed.

Lemma updateBriefing_tail (l : list BriefingRow) (i : Z) (b : BriefingRow)
    (f : BriefingRow -> BriefingRow) (w : World) :
  (forall x, x ∈ l -> b_id x <> i) -> b_id b = i ->
  briefings w = l ++ [b] ->
  briefings (updateBriefing i f w) = l ++ [f b].
Proof.
  intros Hl Hb Hw. unfold updateBriefing. cbn [briefings setBriefings].
  rewrite Hw, map_app. f_equal.
  - apply map_untouched. intros x Hx. apply Z.eqb_neq. now apply Hl.
  - simpl. now rewrite (proj2 (Z.eqb_eq _ _) Hb).
Qed.

Lemma fetchMessagesBatched_count (clock : nat -> Z) (msgs : list (string * option EmailRow)) :
  forall (n : Z) (w : World),
    n <= fst (fetchMessagesBatched clock msgs n w) <= n + Z.of_nat (length msgs).
Proof.
  induction msgs as [|[msgId fetched] msgs IH]; intros n w; [simpl; lia|].
  cbn [fetchMessagesBatched length].
  destruct (emailExists msgId w); [specialize (IH n w); lia|].
  destruct fetched as [row|]; [|specialize (IH n w); lia].
  unfold dateNow.
  match goal with
  | |- context [fetchMessagesBatched _ _ _ ?x] => specialize (IH (n + 1) x)
  end.
  lia.
Qed.

Lemma fetchEmails_count (env : Env) (w : World) (fr : FetchResult) (w' : World) :
  fetchEmails env w = (Ok fr, w') -> 0 <= count fr.
Proof.
  unfold fetchEmails. destruct (gmail env) as [e|msgs profile]; [discriminate|].
  pose proof (fetchMessagesBatched_count (clock env) msgs 0 w) as H.
  destruct (fetchMessagesBatched (clock env) msgs 0 w) as [n w1]. cbn [fst] in H.
  destruct profile; [|discriminate]. intros Heq. inversion Heq; subst. simpl. lia.
Qed.

Lemma classifyEmails_counts (clock : nat -> Z) (dr : DefaultRules) (ids : list string)
    (w : World) :
  0 <= financialCount (fst (classifyEmails clock dr ids w))
    <= total (fst (classifyEmails clock dr ids w)).
Proof.
  rewrite classifyEmails_loop.
  set (zero := {| total := 0; financialCount := 0; financialEmailIds := [];
                  tokensUsed := 0 |}).
  assert (H0 : Tally.consistent ids zero w).
  { unfold Tally.consistent, zero. simpl. split; [reflexivity|]. split; [lia|].
    split; [reflexivity|]. intros i Hi. now apply not_elem_of_nil in Hi. }
  destruct (loop_consistent clock dr (mergeRules dr (rulesUser w)) ids ids zero w H0
              (fun i Hi => Hi)) as (H1 & H2 & _).
  lia.
Qed.


Lemma applyUpdate_counters (u : RunUpdate) (r : PipelineRunRow) :
  u_emails_fetched u = None -> u_emails_classified u = None ->
  u_emails_financial u = None ->
  RunLog.countersOk r -> RunLog.countersOk (applyUpdate u r).
Proof.
  intros H1 H2 H3 (a & b & c & Ha & Hb & Hc & Hr). exists a, b, c.
  simpl. rewrite H1, H2, H3. now repeat split.
Qed.

(** The trace of Steps 1 to 3 on the run table and the briefing table,
    when the run's row is the last one and the only one with its id. *)
Lemma runStages_trace (env : Env) (i ps pe : Z) (l : list PipelineRunRow)
    (r : PipelineRunRow) (w : World) :
  (forall x, x ∈ l -> r_id x <> i) -> r_id r = i ->
  pipeline_runs w = l ++ [r] ->
  RunLog.countersOk r ->
  exists r',
    pipeline_runs (snd (runStages env i ps pe w)) = l ++ [r'] /\
    r_id r' = i /\ trigger r' = trigger r /\ started_at r' = started_at r /\
    period_start r' = period_start r /\ period_end r' = period_end r /\
    RunLog.countersOk r' /\
    match fst (runStages env i ps pe w) with
    | Finished (Ok _) =>
        status r' = skipped /\ is_Some (finished_at r') /\
        briefing_id r' = briefing_id r /\ error r' = error r /\
        briefings (snd (runStages env i ps pe w)) = briefings w
    | Finished (Throw msg) =>
        status r' = failed /\ is_Some (finished_at r') /\
        briefing_id r' = briefing_id r /\ error r' = Some msg /\
        briefings (snd (runStages env i ps pe w)) = briefings w
    | Generated tokens br =>
        status r' = status r /\ finished_at r' = finished_at r /\
        briefing_id r' = Some (briefingId br) /\ error r' = error r /\
        tokens_used r' = Some tokens /\
        exists b,
          briefings (snd (runStages env i ps pe w)) = briefings w ++ [b] /\
          b_id b = briefingId br /\
          (forall x, x ∈ briefings w -> b_id x <> b_id b) /\
          delivered b = 0 /\ delivered_via b = None /\ delivered_at b = None /\
          b_period_start b = ps /\ b_period_end b = pe /\ 1 <= email_count b /\
          content b = briefingContent br /\
          summary env = Ok (briefingContent br, briefingTokens br)
    end.
Proof.
  intros Hl Hid Hw Hc. unfold runStages.
  pose proof (fetchEmails_frame env w) as [Hf Hfb].
  pose proof (fetchEmails_count env w) as Hcount.
  destruct (fetchEmails env w) as [[fetchResult|e] w1]; cbn [snd] in Hf, Hfb.
  2:{ unfold failRun, dateNow. cbn [fst snd].
      eexists. split.
      { apply update_tail; [exact Hl | exact Hid|].
        cbn [pipeline_runs setTicks]. now rewrite Hf. }
      cbn. split; [exact Hid|]. do 4 (split; [reflexivity|]).
      split; [apply applyUpdate_counters; [reflexivity .. | exact Hc]|].
      split; [reflexivity|]. split; [now eexists|]. now repeat split. }
  specialize (Hcount fetchResult w1 eq_refl).
  match goal with
  | |- context [refreshFilter ?c ?cfg ?dr ?ll ?x] =>
      pose proof (refreshFilter_frame c cfg dr ll x) as (Hr & Hrb & _);
      destruct (refreshFilter c cfg dr ll x) as [refreshTokens w2]; cbn [snd] in Hr, Hrb
  end.
  match goal with
  | |- context [classifyEmails ?c ?dr ?ll ?x] =>
      pose proof (classifyEmails_frame c dr ll x) as [Hcl Hclb];
      pose proof (classifyEmails_counts c dr ll x) as Hcc;
      destruct (classifyEmails c dr ll x) as [classifyResult w3];
      cbn [fst snd] in Hcl, Hclb, Hcc
  end.
  set (u1 := {| u_status := None; u_finished_at := None; u_period_start := None;
                u_period_end := None; u_emails_fetched := Some (count fetchResult);
                u_emails_classified := None; u_emails_financial := None;
                u_tokens_used := None; u_briefing_id := None; u_error := None |}) in *.
  set (u2 := {| u_status := None; u_finished_at := None; u_period_start := None;
                u_period_end := None; u_emails_fetched := None;
                u_emails_classified := Some (total classifyResult);
                u_emails_financial := Some (financialCount classifyResult);
                u_tokens_used := None; u_briefing_id := None; u_error := None |}).
  assert (H3 : pipeline_runs (updatePipelineRun i u2 w3)
               = l ++ [applyUpdate u2 (applyUpdate u1 r)]).
  { apply update_tail; [exact Hl | exact Hid|].
    rewrite Hcl, Hr. apply update_tail; [exact Hl | exact Hid|]. now rewrite Hf. }
  assert (Hb3 : briefings (updatePipelineRun i u2 w3) = briefings w).
  { cbn [briefings updatePipelineRun setPipelineRuns]. rewrite Hclb, Hrb.
    cbn [briefings updatePipelineRun setPipelineRuns]. exact Hfb. }
  assert (Hc3 : RunLog.countersOk (applyUpdate u2 (applyUpdate u1 r))).
  { exists (count fetchResult), (total classifyResult), (financialCount classifyResult).
    simpl. repeat split; try reflexivity; lia. }
  set (w4 := updatePipelineRun i u2 w3) in *.
  set (r4 := applyUpdate u2 (applyUpdate u1 r)) in *.
  assert (Hid4 : r_id r4 = i) by exact Hid.
  destruct (getFinancialEmailIdsSince ps w4) as [|fid fids] eqn:Hfin.
  - unfold dateNow. cbn [fst snd]. eexists. split.
    { apply update_tail; [exact Hl | exact Hid4|]. exact H3. }
    cbn. split; [exact Hid|]. do 4 (split; [reflexivity|]).
    split; [apply applyUpdate_counters; [reflexivity .. | exact Hc3]|].
    split; [reflexivity|]. split; [now eexists|]. split; [reflexivity|].
    split; [reflexivity | exact Hb3].
  - unfold generateBriefing, dateNow.
    destruct (summary env) as [[txt tok]|e] eqn:Hsum.
    + unfold insertBriefing. cbn [fst snd]. eexists. split.
      { apply update_tail; [exact Hl | exact Hid4|]. exact H3. }
      cbn. split; [exact Hid|]. do 4 (split; [reflexivity|]).
      split; [apply applyUpdate_counters; [reflexivity .. | exact Hc3]|].
      do 5 (split; [reflexivity|]).
      assert (Hb3' : briefings w3 = briefings w) by exact Hb3.
      rewrite Hb3'. eexists. split; [reflexivity|].
      cbn. split; [reflexivity|]. split.
      { intros x Hx.
        assert (Hlt : b_id x < nextRowid (map b_id (briefings w))).
        { apply nextRowid_fresh, list_elem_of_fmap. now exists x. }
        lia. }
      do 5 (split; [reflexivity|]). split; [lia|]. split; reflexivity.
    + unfold failRun, dateNow. cbn [fst snd]. eexists. split.
      { apply update_tail; [exact Hl | exact Hid4|]. exact H3. }
      cbn. split; [exact Hid|]. do 4 (split; [reflexivity|]).
      split; [apply applyUpdate_counters; [reflexivity .. | exact Hc3]|].
      split; [reflexivity|]. split; [now eexists|]. split; [reflexivity|].
      split; [reflexivity | exact Hb3].
Qed.


(** The trace of a whole run: one row is appended to the run table, and
    its final status tells how the call ended and what became of the
    briefing table. *)
Lemma runPipeline_trace (env : Env) (tr : Trigger) (w : World) :
  exists r,
    pipeline_runs (snd (runPipeline env tr w)) = pipeline_runs w ++ [r] /\
    r_id r = nextRowid (map r_id (pipeline_runs w)) /\
    trigger r = tr /\ started_at r = clock env (ticks w) /\
    period_start r
      = Some (periodStartOf env (getLastSuccessfulRun w) (clock env (S (ticks w)))) /\
    period_end r = Some (clock env (S (ticks w))) /\
    RunLog.countersOk r /\
    match status r with
    | running => False
    | skipped =>
        fst (runPipeline env tr w) = Ok tt /\ is_Some (finished_at r) /\
        briefing_id r = None /\ error r = None /\
        briefings (snd (runPipeline env tr w)) = briefings w
    | failed =>
        is_Some (finished_at r) /\ briefing_id r = None /\
        briefings (snd (runPipeline env tr w)) = briefings w /\
        exists msg, fst (runPipeline env tr w) = Throw msg /\ error r = Some msg
    | success =>
        fst (runPipeline env tr w) = Ok tt /\ is_Some (finished_at r) /\
        error r = None /\ delivery env = Ok tt /\
        exists b tokens,
          briefings (snd (runPipeline env tr w)) = briefings w ++ [b] /\
          briefing_id r = Some (b_id b) /\
          delivered b = 1 /\ delivered_via b = Some (channel (config env)) /\
          is_Some (delivered_at b) /\
          Some (b_period_start b) = period_start r /\
          Some (b_period_end b) = period_end r /\
          1 <= email_count b /\ summary env = Ok (content b, tokens)
    | partial =>
        fst (runPipeline env tr w) = Ok tt /\ is_Some (finished_at r) /\
        exists b tokens msg,
          delivery env = Throw msg /\
          error r = Some (String.append "Delivery failed: " msg) /\
          briefings (snd (runPipeline env tr w)) = briefings w ++ [b] /\
          briefing_id r = Some (b_id b) /\
          delivered b = -1 /\ delivered_via b = None /\ delivered_at b = None /\
          Some (b_period_start b) = period_start r /\
          Some (b_period_end b) = period_end r /\
          1 <= email_count b /\ summary env = Ok (content b, tokens)
    end.
Proof.
  pattern (runPipeline env tr w).
  match goal with |- ?Q _ => set (P := Q) end.
  unfold runPipeline, beforeDelivery.
  set (i := nextRowid (map r_id (pipeline_runs w))).
  set (now := clock env (S (ticks w))).
  set (r0 := {| r_id := i; started_at := clock env (ticks w); finished_at := None;
                status := running; trigger := tr; period_start := None;
                period_end := None; emails_fetched := Some 0;
                emails_classified := Some 0; emails_financial := Some 0;
                tokens_used := Some 0; briefing_id := None; error := None |}).
  assert (Hcreate : exists w1,
             createPipelineRun (clock env) tr w = (i, w1) /\
             pipeline_runs w1 = pipeline_runs w ++ [r0] /\
             briefings w1 = briefings w /\ ticks w1 = S (ticks w)).
  { eexists. split; [reflexivity|]. now repeat split. }
  destruct Hcreate as (w1 & Hcr & Hw1 & Hb1 & Ht1). rewrite Hcr.
  pose proof (getLastSuccessfulRun_create (clock env) tr w) as Hlast.
  rewrite Hcr in Hlast. cbn [snd] in Hlast. clear Hcr.
  unfold dateNow at 1 2. cbn [ticks setTicks]. rewrite Ht1. fold now.
  assert (Hl : forall x, x ∈ pipeline_runs w -> r_id x <> i).
  { intros x Hx. assert (r_id x < i); [|lia].
    apply nextRowid_fresh, list_elem_of_fmap. now exists x. }
  assert (Hc0 : RunLog.countersOk r0) by (exists 0, 0, 0; simpl; repeat split; lia).
  rewrite Hlast. set (last := getLastSuccessfulRun w).
  set (ps := periodStartOf env last now).
  set (u0 := {| u_status := None; u_finished_at := None;
                u_period_start := Some ps; u_period_end := Some now;
                u_emails_fetched := None; u_emails_classified := None;
                u_emails_financial := None; u_tokens_used := None;
                u_briefing_id := None; u_error := None |}).
  assert (Hstages : forall w2,
            pipeline_runs w2 = pipeline_runs w ++ [r0] -> briefings w2 = briefings w ->
            P (match runStages env i ps now (updatePipelineRun i u0 w2) with
               | (Finished outcome, w3) => (outcome, w3)
               | (Generated totalTokens briefingResult, w3) =>
                   deliver env i totalTokens briefingResult w3
               end)).
  { intros w2 Hw2 Hb2. unfold P.
    assert (Hu : pipeline_runs (updatePipelineRun i u0 w2)
                 = pipeline_runs w ++ [applyUpdate u0 r0])
      by (apply update_tail; [exact Hl | reflexivity | exact Hw2]).
    assert (Hcu : RunLog.countersOk (applyUpdate u0 r0))
      by (apply applyUpdate_counters; [reflexivity .. | exact Hc0]).
    destruct (runStages_trace env i ps now (pipeline_runs w) (applyUpdate u0 r0)
                (updatePipelineRun i u0 w2) Hl eq_refl Hu Hcu)
      as (r3 & H3 & Hid3 & Htr & Hst & Hps & Hpe & Hc3 & Hcase).
    destruct (runStages env i ps now (updatePipelineRun i u0 w2))
      as [[[[]|msg]|tokens br] w3]; cbn [fst snd] in H3, Hcase |- *.
    - destruct Hcase as (Hs & Hfi & Hbi & Her & Hbr). exists r3.
      split; [exact H3|]. split; [exact Hid3|]. split; [exact Htr|]. split; [exact Hst|].
      split; [rewrite Hps; reflexivity|]. split; [rewrite Hpe; reflexivity|].
      split; [exact Hc3|]. rewrite Hs.
      split; [reflexivity|]. split; [exact Hfi|]. split; [now rewrite Hbi|].
      split; [now rewrite Her | now rewrite Hbr].
    - destruct Hcase as (Hs & Hfi & Hbi & Her & Hbr). exists r3.
      split; [exact H3|]. split; [exact Hid3|]. split; [exact Htr|]. split; [exact Hst|].
      split; [rewrite Hps; reflexivity|]. split; [rewrite Hpe; reflexivity|].
      split; [exact Hc3|]. rewrite Hs.
      split; [exact Hfi|]. split; [now rewrite Hbi|]. split; [now rewrite Hbr|].
      exists msg. now split.
    - destruct Hcase as (Hs & Hfi & Hbi & Her & Htok & b & Hbr & Hbid & Hfresh & Hd & Hvia
                         & Hat & Hbps & Hbpe & Hec & Hco & Hsum).
      change (briefings (updatePipelineRun i u0 w2)) with (briefings w2) in Hbr, Hfresh.
      rewrite Hb2 in Hbr, Hfresh.
      unfold deliver. destruct (delivery env) as [[]|msg] eqn:Hdel.
      + unfold markBriefingDelivered, dateNow. cbn [fst snd]. eexists. split.
        { apply update_tail; [exact Hl | exact Hid3|]. exact H3. }
        cbn. split; [exact Hid3|]. split; [exact Htr|]. split; [exact Hst|].
        split; [rewrite Hps; reflexivity|]. split; [rewrite Hpe; reflexivity|].
        split; [apply applyUpdate_counters; [reflexivity .. | exact Hc3]|].
        split; [reflexivity|]. split; [now eexists|]. split; [now rewrite Her|].
        split; [reflexivity|].
        eexists _, (briefingTokens br). split.
        { apply (updateBriefing_tail (briefings w) (briefingId br) b).
          - intros x Hx. rewrite <- Hbid. now apply Hfresh.
          - exact Hbid.
          - exact Hbr. }
        cbn. rewrite Hbi, Hbid, Hps, Hpe, Hbps, Hbpe, Hco.
        do 4 (split; [first [reflexivity | now eexists]|]).
        split; [now eexists|]. now repeat split.
      + unfold markBriefingFailed, dateNow. cbn [fst snd]. eexists. split.
        { apply update_tail; [exact Hl | exact Hid3|]. exact H3. }
        cbn. split; [exact Hid3|]. split; [exact Htr|]. split; [exact Hst|].
        split; [rewrite Hps; reflexivity|]. split; [rewrite Hpe; reflexivity|].
        split; [apply applyUpdate_counters; [reflexivity .. | exact Hc3]|].
        split; [reflexivity|]. split; [now eexists|].
        eexists _, (briefingTokens br), msg. split; [reflexivity|]. split; [reflexivity|].
        split.
        { apply (updateBriefing_tail (briefings w) (briefingId br) b).
          - intros x Hx. rewrite <- Hbid. now apply Hfresh.
          - exact Hbid.
          - exact Hbr. }
        cbn. rewrite Hbi, Hbid, Hps, Hpe, Hbps, Hbpe, Hco, Hvia, Hat.
        now repeat split. }
  destruct (truthyField last finished_at) as [finishedAt|].
  - unfold dateNow. cbn [fst snd].
    match goal with |- context [if ?c then _ else _] => destruct c end.
    + unfold P. cbn [fst snd]. eexists. split.
      { apply update_tail; [exact Hl | | exact Hw1]; reflexivity. }
      cbn. split; [reflexivity|]. split; [reflexivity|]. split; [reflexivity|].
      split; [reflexivity|]. split; [reflexivity|].
      split; [exists 0, 0, 0; simpl; repeat split; lia|].
      split; [reflexivity|]. split; [now eexists|]. now repeat split.
    + apply Hstages; [exact Hw1 | exact Hb1].
  - apply Hstages; [exact Hw1 | exact Hb1].
Qed.

End RunFacts.

Section RunTheorems.

Import Pipeline.

(** X16. Every call of the pipeline appends exactly one row to the run
    table and leaves the earlier rows as they were.  The row has a fresh
    id, the trigger of the call and the time of the call as its start; it
    is finished ([running] is never left behind, [finished_at] is set);
    its counters are set, not negative, with no more relevant emails than
    classified ones.  The call throws exactly when the row is [failed],
    and then the row's error is the message thrown. *)
Theorem X16_one_finished_run_per_call (env : Env) (tr : Trigger) (w : World) :
  exists r,
    pipeline_runs (snd (runPipeline env tr w)) = pipeline_runs w ++ [r] /\
    (forall x, x ∈ pipeline_runs w -> r_id x < r_id r) /\
    trigger r = tr /\ started_at r = clock env (ticks w) /\
    RunLog.terminal (status r) /\ is_Some (finished_at r) /\
    RunLog.countersOk r /\
    match fst (runPipeline env tr w) with
    | Throw msg => status r = failed /\ error r = Some msg
    | Ok _ => status r = success \/ status r = partial \/ status r = skipped
    end.
Proof.
  destruct (runPipeline_trace env tr w)
    as (r & Hruns & Hid & Htr & Hst & _ & _ & Hc & Hcase).
  exists r. split; [exact Hruns|]. split.
  { intros x Hx. rewrite Hid. apply nextRowid_fresh, list_elem_of_fmap. now exists x. }
  split; [exact Htr|]. split; [exact Hst|].
  unfold RunLog.terminal.
  destruct (status r).
  - destruct Hcase.
  - destruct Hcase as (Ho & Hf & _). rewrite Ho.
    split; [discriminate|]. split; [exact Hf|]. split; [exact Hc | now left].
  - destruct Hcase as (Ho & Hf & _). rewrite Ho.
    split; [discriminate|]. split; [exact Hf|]. split; [exact Hc | now right; right].
  - destruct Hcase as (Ho & Hf & _). rewrite Ho.
    split; [discriminate|]. split; [exact Hf|]. split; [exact Hc | now right; left].
  - destruct Hcase as (Hf & _ & _ & msg & Ho & He). rewrite Ho.
    split; [discriminate|]. split; [exact Hf|]. split; [exact Hc | now split].
Qed.

(** X17. What a run does to the briefing table can be read off its
    final status.  A [success] or [partial] run appended exactly one
    briefing, the one its row names, covering the run's own period and at
    least one email; after [success] the briefing is marked delivered
    through the configured channel, after [partial] it is marked failed
    (flag -1) with no channel and no delivery time.  A [skipped] or
    [failed] run left the briefing table as it was and names no
    briefing.  Earlier briefings are never touched. *)
Theorem X17_briefing_follows_status (env : Env) (tr : Trigger) (w : World) :
  exists r,
    pipeline_runs (snd (runPipeline env tr w)) = pipeline_runs w ++ [r] /\
    match status r with
    | running => False
    | success =>
        exists b,
          briefings (snd (runPipeline env tr w)) = briefings w ++ [b] /\
          briefing_id r = Some (b_id b) /\
          delivered b = 1 /\ delivered_via b = Some (channel (config env)) /\
          is_Some (delivered_at b) /\
          Some (b_period_start b) = period_start r /\
          Some (b_period_end b) = period_end r /\ 1 <= email_count b
    | partial =>
        exists b,
          briefings (snd (runPipeline env tr w)) = briefings w ++ [b] /\
          briefing_id r = Some (b_id b) /\
          delivered b = -1 /\ delivered_via b = None /\ delivered_at b = None /\
          Some (b_period_start b) = period_start r /\
          Some (b_period_end b) = period_end r /\ 1 <= email_count b
    | skipped | failed =>
        briefings (snd (runPipeline env tr w)) = briefings w /\ briefing_id r = None
    end.
Proof.
  destruct (runPipeline_trace env tr w) as (r & Hruns & _ & _ & _ & _ & _ & _ & Hcase).
  exists r. split; [exact Hruns|].
  destruct (status r).
  - exact Hcase.
  - destruct Hcase as (_ & _ & _ & _ & b & tokens & H1 & H2 & H3 & H4 & H5 & H6 & H7 & H8 & _).
    exists b. now repeat split.
  - destruct Hcase as (_ & _ & H1 & _ & H2). now split.
  - destruct Hcase as (_ & _ & b & tokens & msg & _ & _ & H1 & H2 & H3 & H4 & H5 & H6 & H7
                       & H8 & _).
    exists b. now repeat split.
  - destruct Hcase as (_ & H1 & H2 & _). now split.
Qed.


Lemma pickLatest_app (l1 l2 : list PipelineRunRow) :
  forall best, pickLatest best (l1 ++ l2) = pickLatest (pickLatest best l1) l2.
Proof. induction l1 as [|x l1 IH]; intros best; [reflexivity|]. simpl. apply IH. Qed.

Lemma getLastSuccessfulRun_failed (w w' : World) (r : PipelineRunRow) :
  pipeline_runs w' = pipeline_runs w ++ [r] ->
  successOrSkipped (status r) = false ->
  getLastSuccessfulRun w' = getLastSuccessfulRun w.
Proof.
  intros Hw Hs. unfold getLastSuccessfulRun. rewrite Hw, List.filter_app. simpl.
  rewrite Hs. now rewrite app_nil_r.
Qed.

Lemma getLastSuccessfulRun_latest (w w' : World) (r : PipelineRunRow) :
  pipeline_runs w' = pipeline_runs w ++ [r] ->
  successOrSkipped (status r) = true ->
  RunLog.latest r w ->
  getLastSuccessfulRun w' = Some r.
Proof.
  intros Hw Hs Hlate. unfold getLastSuccessfulRun. rewrite Hw, List.filter_app. simpl.
  rewrite Hs, pickLatest_app.
  set (ok := fun x : PipelineRunRow => successOrSkipped (status x)).
  destruct (List.filter ok (pipeline_runs w)) as [|b l] eqn:Hl; [reflexivity|].
  simpl. destruct (pickLatest_spec l b) as (x & Hx & Hin & _). rewrite Hx. simpl.
  assert (Hxin : x ∈ List.filter ok (pipeline_runs w)).
  { rewrite Hl. destruct Hin as [->|Hin]; [left | now right]. }
  apply list_elem_of_In, List.filter_In in Hxin as [Hxin Hok].
  apply list_elem_of_In in Hxin. now rewrite (Hlate x Hxin Hok).
Qed.

(** X18. Which run the next call takes as its reference.  A run that
    ends [failed] or [partial] is never the reference, so the
    last-successful-run query answers after it as it did before it, and
    the next call computes its period as if that run had not happened.  A
    run that ends [success] or [skipped] and finished later than every
    earlier such run is the reference afterwards. *)
Theorem X18_reference_run_after_a_call (env : Env) (tr : Trigger) (w : World) :
  exists r,
    pipeline_runs (snd (runPipeline env tr w)) = pipeline_runs w ++ [r] /\
    (status r = failed \/ status r = partial ->
     getLastSuccessfulRun (snd (runPipeline env tr w)) = getLastSuccessfulRun w) /\
    (status r = success \/ status r = skipped ->
     RunLog.latest r w ->
     getLastSuccessfulRun (snd (runPipeline env tr w)) = Some r).
Proof.
  destruct (runPipeline_trace env tr w) as (r & Hruns & _).
  exists r. split; [exact Hruns|]. split.
  - intros Hs. apply (getLastSuccessfulRun_failed w _ r Hruns).
    destruct Hs as [-> | ->]; reflexivity.
  - intros Hs Hlate. apply (getLastSuccessfulRun_latest w _ r Hruns); [|exact Hlate].
    destruct Hs as [-> | ->]; reflexivity.
Qed.

(** X19. The periods of consecutive runs join up.  When a call ends
    [success] or [skipped], finished later than every earlier such run
    and read a clock other than 0, then the next call, whatever its
    trigger and whatever happens during it, records as the start of its
    period the end of the period of the first. *)
Theorem X19_next_period_starts_where_the_last_ended (env env2 : Env) (tr tr2 : Trigger)
    (w : World) (r : PipelineRunRow) :
  pipeline_runs (snd (runPipeline env tr w)) = pipeline_runs w ++ [r] ->
  status r = success \/ status r = skipped ->
  RunLog.latest r w ->
  clock env (S (ticks w)) <> 0 ->
  exists r2,
    pipeline_runs (snd (runPipeline env2 tr2 (snd (runPipeline env tr w))))
      = pipeline_runs w ++ [r; r2] /\
    period_start r2 = period_end r /\
    period_end r = Some (clock env (S (ticks w))).
Proof.
  intros Hruns Hs Hlate Hnz.
  destruct (runPipeline_trace env tr w) as (r' & Hruns' & _ & _ & _ & _ & Hpe & _).
  assert (r' = r).
  { rewrite Hruns in Hruns'. apply app_inj_tail in Hruns' as [_ H]. now symmetry. }
  subst r'.
  assert (Hlast : getLastSuccessfulRun (snd (runPipeline env tr w)) = Some r).
  { apply (getLastSuccessfulRun_latest w _ r Hruns); [|exact Hlate].
    destruct Hs as [-> | ->]; reflexivity. }
  destruct (runPipeline_trace env2 tr2 (snd (runPipeline env tr w)))
    as (r2 & Hruns2 & _ & _ & _ & Hps2 & _).
  exists r2. split; [|split; [|exact Hpe]].
  - rewrite Hruns2, Hruns, <- app_assoc. reflexivity.
  - rewrite Hps2, Hlast. unfold periodStartOf, truthyField. rewrite Hpe.
    apply Z.eqb_neq in Hnz. now rewrite Hnz.
Qed.


Lemma X19_on_sample :
  exists r2,
    pipeline_runs
      (snd (runPipeline Scenario.offline catchup
              (snd (runPipeline Scenario.online manual Scenario.morning))))
      = pipeline_runs Scenario.morning ++ [Scenario.firstRun; r2] /\
    period_start r2 = period_end Scenario.firstRun /\
    period_end Scenario.firstRun = Some 1700000001000.
Proof.
  apply (X19_next_period_starts_where_the_last_ended Scenario.online Scenario.offline
           manual catchup Scenario.morning Scenario.firstRun).
  - vm_compute. reflexivity.
  - left. reflexivity.
  - intros x Hx _. apply list_elem_of_singleton in Hx. subst x. reflexivity.
  - vm_compute. discriminate.
Defined.

Lemma createPipelineRun_tail (clock : nat -> Z) (tr : Trigger) (w : World) :
  exists w1,
    createPipelineRun clock tr w = (nextRowid (map r_id (pipeline_runs w)), w1) /\
    pipeline_runs w1
      = pipeline_runs w ++
        [{| r_id := nextRowid (map r_id (pipeline_runs w)); started_at := clock (ticks w);
            finished_at := None; status := running; trigger := tr;
            period_start := None; period_end := None; emails_fetched := Some 0;
            emails_classified := Some 0; emails_financial := Some 0;
            tokens_used := Some 0; briefing_id := None; error := None |}] /\
    ticks w1 = S (ticks w) /\
    emails w1 = emails w /\ classifications w1 = classifications w /\
    briefings w1 = briefings w /\ rulesUser w1 = rulesUser w.
Proof. eexists. split; [reflexivity|]. now repeat split. Qed.

(** X20. A scheduled call on a day that already has a finished
    [success] or [skipped] run does nothing but log itself: it returns
    normally, fetches, classifies, generates and delivers nothing, so that
    emails, classifications, briefings and the user rules are as before,
    and it appends one [skipped] run whose counters are 0 and whose period
    ends at the time of the call. *)
Theorem X20_scheduled_run_once_a_day (env : Env) (w : World) (last : PipelineRunRow)
    (finishedAt : Z) :
  getLastSuccessfulRun w = Some last ->
  finished_at last = Some finishedAt -> finishedAt <> 0 ->
  toDateString env finishedAt = toDateString env (clock env (S (S (S (ticks w))))) ->
  fst (runPipeline env scheduled w) = Ok tt /\
  emails (snd (runPipeline env scheduled w)) = emails w /\
  classifications (snd (runPipeline env scheduled w)) = classifications w /\
  briefings (snd (runPipeline env scheduled w)) = briefings w /\
  rulesUser (snd (runPipeline env scheduled w)) = rulesUser w /\
  exists r,
    pipeline_runs (snd (runPipeline env scheduled w)) = pipeline_runs w ++ [r] /\
    status r = skipped /\ trigger r = scheduled /\
    finished_at r = Some (clock env (S (ticks w))) /\
    period_end r = Some (clock env (S (ticks w))) /\
    emails_fetched r = Some 0 /\ emails_classified r = Some 0 /\
    emails_financial r = Some 0 /\ tokens_used r = Some 0 /\
    briefing_id r = None /\ error r = None.
Proof.
  intros Hlast Hfin Hnz Hdate.
  pattern (runPipeline env scheduled w).
  match goal with |- ?Q _ => set (P := Q) end.
  unfold runPipeline, beforeDelivery.
  destruct (createPipelineRun_tail (clock env) scheduled w)
    as (w1 & Hcr & Hw1 & Ht1 & He1 & Hc1 & Hb1 & Hu1).
  pose proof (getLastSuccessfulRun_create (clock env) scheduled w) as Hl.
  rewrite Hcr in Hl |- *. cbn [snd] in Hl. rewrite Hl, Hlast.
  unfold dateNow. cbn [ticks setTicks fst snd]. rewrite Ht1.
  unfold truthyField. rewrite Hfin.
  apply Z.eqb_neq in Hnz. rewrite Hnz, <- Hdate, String.eqb_refl.
  cbn [andb isScheduled]. unfold P. cbn [fst snd].
  split; [reflexivity|]. split; [exact He1|]. split; [exact Hc1|].
  split; [exact Hb1|]. split; [exact Hu1|].
  eexists. split.
  { apply update_tail; [| |exact Hw1]; [|reflexivity].
    intros x Hx. assert (r_id x < nextRowid (map r_id (pipeline_runs w))); [|lia].
    apply nextRowid_fresh, list_elem_of_fmap. now exists x. }
  cbn. now repeat split.
Qed.

Lemma X20_on_sample :
  fst (runPipeline Scenario.online scheduled Scenario.morning) = Ok tt.
Proof.
  apply (X20_scheduled_run_once_a_day Scenario.online Scenario.morning
           (Sample.pastRun 1699980000000) 1699900060000).
  - vm_compute. reflexivity.
  - reflexivity.
  - discriminate.
  - vm_compute. reflexivity.
Defined.

End RunTheorems.

(** ** Fetching *)

Section FetchFacts.

Import Pipeline.

Lemma insertEmail_store (e : EmailRow) (w : World) :
  classifications (insertEmail e w) = classifications w /\
  rulesUser (insertEmail e w) = rulesUser w /\
  ticks (insertEmail e w) = ticks w /\
  (forall i old, emails w !! i = Some old -> emails (insertEmail e w) !! i = Some old).
Proof.
  unfold insertEmail. destruct (emails w !! id e) eqn:He; [now repeat split|].
  cbn. split; [reflexivity|]. split; [reflexivity|]. split; [reflexivity|].
  intros i old Hi. rewrite lookup_insert_ne; [exact Hi | congruence].
Qed.

Lemma fetchMessagesBatched_store (clock : nat -> Z)
    (msgs : list (string * option EmailRow)) :
  forall (n : Z) (w : World),
    classifications (snd (fetchMessagesBatched clock msgs n w)) = classifications w /\
    rulesUser (snd (fetchMessagesBatched clock msgs n w)) = rulesUser w /\
    (forall i old, emails w !! i = Some old ->
       emails (snd (fetchMessagesBatched clock msgs n w)) !! i = Some old).
Proof.
  induction msgs as [|[msgId fetched] msgs IH]; intros n w; [now repeat split|].
  cbn [fetchMessagesBatched]. destruct (emailExists msgId w); [apply IH|].
  destruct fetched as [row|]; [|apply IH].
  unfold dateNow.
  match goal with
  | |- context [fetchMessagesBatched _ _ ?k (insertEmail ?e ?x)] =>
      destruct (IH k (insertEmail e x)) as (H1 & H2 & H3);
      destruct (insertEmail_store e x) as (H4 & H5 & _ & H6)
  end.
  rewrite H1, H2, H4, H5. split; [reflexivity|]. split; [reflexivity|].
  intros i old Hi. apply H3, H6. exact Hi.
Qed.

Lemma fetchMessagesBatched_growth (clock : nat -> Z)
    (msgs : list (string * option EmailRow)) :
  Mailbox.answersInKind msgs ->
  forall (n : Z) (w : World),
    fst (fetchMessagesBatched clock msgs n w) - n
      = Z.of_nat (size (emails (snd (fetchMessagesBatched clock msgs n w))))
        - Z.of_nat (size (emails w)).
Proof.
  induction msgs as [|[msgId fetched] msgs IH]; intros Hk n w; [simpl; lia|].
  assert (Hk' : Mailbox.answersInKind msgs).
  { intros i row Hi. apply Hk. now right. }
  cbn [fetchMessagesBatched]. unfold emailExists.
  destruct (emails w !! msgId) as [old|] eqn:He; [now apply IH|].
  destruct fetched as [row|]; [|now apply IH].
  unfold dateNow.
  assert (Hid : id row = msgId) by (apply Hk; left).
  match goal with
  | |- context [fetchMessagesBatched _ _ ?k (insertEmail ?e ?x)] =>
      specialize (IH Hk' k (insertEmail e x));
      assert (Hsize : size (emails (insertEmail e x)) = S (size (emails w)))
  end.
  { unfold insertEmail. cbn [id withFetchedAt emails setTicks]. rewrite Hid, He.
    cbn [emails setEmails]. now apply map_size_insert_None. }
  rewrite Hsize in IH. lia.
Qed.

(** X21. Fetching a list of messages only ever adds to the store: every
    email stored before is read back unchanged, and classifications and
    user rules are not touched.  The count returned is between 0 and the
    number of messages listed; when the mail service answers each request
    with the message asked for, the count is exactly the number of emails
    the store has gained, so that a message listed twice, or already
    stored, is counted once or not at all. *)
Theorem X21_fetch_only_adds (clock : nat -> Z) (messages : list (string * option EmailRow))
    (w : World) :
  let fetched := fst (fetchMessagesBatched clock messages 0 w) in
  let w' := snd (fetchMessagesBatched clock messages 0 w) in
  (forall i old, emails w !! i = Some old -> emails w' !! i = Some old) /\
  classifications w' = classifications w /\ rulesUser w' = rulesUser w /\
  0 <= fetched <= Z.of_nat (length messages) /\
  (Mailbox.answersInKind messages ->
   Z.of_nat (size (emails w')) = Z.of_nat (size (emails w)) + fetched).
Proof.
  intros fetched w'. subst fetched w'.
  destruct (fetchMessagesBatched_store clock messages 0 w) as (H1 & H2 & H3).
  pose proof (fetchMessagesBatched_count clock messages 0 w) as H4.
  split; [exact H3|]. split; [exact H1|]. split; [exact H2|]. split; [lia|].
  intros Hk. pose proof (fetchMessagesBatched_growth clock messages Hk 0 w). lia.
Qed.


(** X22. When the mail service fails during a manual or catch-up call,
    at the listing or at the closing profile request, the call throws the
    service's error and the run is recorded as [failed] with that error
    and with all counters 0, also when messages were stored before the
    profile request failed.  Nothing is classified and no briefing is
    generated; the user rules are not touched, and after a failed listing
    the email store is untouched as well. *)
Theorem X22_fetch_failure_fails_the_run (env : Env) (tr : Trigger) (w : World)
    (msg : string) :
  tr <> scheduled ->
  gmail env = ListingThrows msg \/ (exists messages, gmail env = Listed messages (Throw msg)) ->
  fst (runPipeline env tr w) = Throw msg /\
  classifications (snd (runPipeline env tr w)) = classifications w /\
  briefings (snd (runPipeline env tr w)) = briefings w /\
  rulesUser (snd (runPipeline env tr w)) = rulesUser w /\
  (gmail env = ListingThrows msg -> emails (snd (runPipeline env tr w)) = emails w) /\
  exists r,
    pipeline_runs (snd (runPipeline env tr w)) = pipeline_runs w ++ [r] /\
    status r = failed /\ error r = Some msg /\ is_Some (finished_at r) /\
    emails_fetched r = Some 0 /\ emails_classified r = Some 0 /\
    emails_financial r = Some 0 /\ tokens_used r = Some 0 /\ briefing_id r = None.
Proof.
  intros Htr Hgmail.
  pattern (runPipeline env tr w).
  match goal with |- ?Q _ => set (P := Q) end.
  unfold runPipeline, beforeDelivery.
  destruct (createPipelineRun_tail (clock env) tr w)
    as (w1 & Hcr & Hw1 & Ht1 & He1 & Hc1 & Hb1 & Hu1).
  rewrite Hcr. set (i := nextRowid (map r_id (pipeline_runs w))) in *.
  match type of Hw1 with _ = _ ++ [?row] => set (r0 := row) in * end.
  assert (Hl : forall x, x ∈ pipeline_runs w -> r_id x <> i).
  { intros x Hx. assert (r_id x < i); [|lia].
    apply nextRowid_fresh, list_elem_of_fmap. now exists x. }
  assert (Hsched : isScheduled tr = false) by (destruct tr; [congruence | reflexivity ..]).
  unfold dateNow at 1 2. cbn [ticks setTicks].
  assert (Hstages : forall ps pe u w2,
             pipeline_runs w2 = pipeline_runs w1 -> emails w2 = emails w ->
             classifications w2 = classifications w -> briefings w2 = briefings w ->
             rulesUser w2 = rulesUser w ->
             u_status u = None -> u_finished_at u = None -> u_error u = None ->
             u_emails_fetched u = None -> u_emails_classified u = None ->
             u_emails_financial u = None -> u_tokens_used u = None ->
             u_briefing_id u = None ->
             P (let (p, w3) := runStages env i ps pe (updatePipelineRun i u w2) in
                match p with
                | Finished outcome => (outcome, w3)
                | Generated totalTokens briefingResult =>
                    deliver env i totalTokens briefingResult w3
                end)).
  { intros ps pe u w2 Hr2 He2 Hc2 Hb2 Hu2 U1 U2 U3 U4 U5 U6 U7 U8.
    assert (Hrow : pipeline_runs (updatePipelineRun i u w2)
                   = pipeline_runs w ++ [applyUpdate u r0])
      by (apply update_tail; [exact Hl | reflexivity | now rewrite Hr2]).
    unfold runStages, fetchEmails.
    destruct Hgmail as [Hg | [messages Hg]]; rewrite Hg.
    - unfold failRun, dateNow, P. cbn [fst snd].
      split; [reflexivity|]. split; [exact Hc2|]. split; [exact Hb2|].
      split; [exact Hu2|]. split; [intros _; exact He2|].
      eexists. split; [apply update_tail; [exact Hl | | exact Hrow]; reflexivity|].
      cbn. rewrite U4, U5, U6, U8. cbn. split; [reflexivity|].
      split; [reflexivity|]. split; [now eexists|]. now repeat split.
    - match goal with
      | |- context [fetchMessagesBatched ?c ?m ?k ?x] =>
          destruct (fetchMessagesBatched_store c m k x) as (F1 & F2 & _);
          destruct (fetchMessagesBatched_frame c m k x) as (F3 & F4);
          destruct (fetchMessagesBatched c m k x) as [fetchedCount w3]
      end.
      cbn [snd] in F1, F2, F3, F4.
      unfold failRun, dateNow, P. cbn [fst snd].
      split; [reflexivity|]. split; [rewrite <- Hc2; exact F1|].
      split; [rewrite <- Hb2; exact F4|]. split; [rewrite <- Hu2; exact F2|].
      split; [intros Hg'; congruence|].
      eexists. split.
      { apply update_tail; [exact Hl | |]; [|cbn [pipeline_runs setTicks];
                                             rewrite F3; exact Hrow]. reflexivity. }
      cbn. rewrite U4, U5, U6, U8. cbn. split; [reflexivity|].
      split; [reflexivity|]. split; [now eexists|]. now repeat split. }
  destruct (truthyField (getLastSuccessfulRun w1) finished_at) as [finishedAt|].
  - unfold dateNow. cbn [fst snd]. rewrite Hsched, andb_false_r.
    apply Hstages; try reflexivity; assumption.
  - apply Hstages; try reflexivity; assumption.
Qed.

Lemma X22_on_sample :
  fst (runPipeline Scenario.offline catchup Scenario.morning) = Throw "network unreachable".
Proof.
  apply (X22_fetch_failure_fails_the_run Scenario.offline catchup Scenario.morning
           "network unreachable").
  - discriminate.
  - left. reflexivity.
Defined.

End FetchFacts.

(** ** The rule file *)

Section RuleUpkeep.

Ltac fields :=
  cbn [fst snd rulesUser setRulesUser setTicks ticks withRefreshed withFinancial
       withPending ur_generated_at last_refreshed_at ur_financial ur_ignore
       pending_review ur_subject ur_body Z.add].

(** X23. A refresh of an existing rule file never loses a rule.  The
    file still exists afterwards; its generation time, its ignore list and
    its subject and body keywords are untouched; every relevant sender it
    held is still held; what was added to the relevant senders is what was
    appended to the review list, all in lower case.  While the refresh
    interval has not passed since the last refresh nothing at all changes
    in the file and no tokens are used; once it has passed, the time of
    the last refresh is moved to the second clock reading of the call.
    Emails and classifications are never touched. *)
Theorem X23_refresh_keeps_the_rule_file (clock : nat -> Z) (config : AppConfig)
    (defaultRules : DefaultRules) (llm : Inference) (w : World) (u : UserRules) :
  rulesUser w = Some u ->
  let tokens := fst (refreshFilter clock config defaultRules llm w) in
  let w' := snd (refreshFilter clock config defaultRules llm w) in
  let age := clock (ticks w) - last_refreshed_at u in
  let interval := refreshIntervalDays config * 86400000 in
  emails w' = emails w /\ classifications w' = classifications w /\
  exists u' added,
    rulesUser w' = Some u' /\
    ur_generated_at u' = ur_generated_at u /\ ur_ignore u' = ur_ignore u /\
    ur_subject u' = ur_subject u /\ ur_body u' = ur_body u /\
    pending_review u' = pending_review u ++ added /\
    Forall RuleFile.lowerCased added /\
    (forall s, s ∈ ur_financial u' <-> s ∈ ur_financial u \/ s ∈ added) /\
    (age < interval -> u' = u /\ tokens = 0) /\
    (interval <= age -> last_refreshed_at u' = clock (S (ticks w))).
Proof.
  intros Hu tokens w' age interval. subst tokens w' age interval.
  destruct (refreshFilter_frame clock config defaultRules llm w) as (_ & _ & He & Hc).
  split; [exact He|]. split; [exact Hc|]. clear He Hc.
  unfold refreshFilter. rewrite Hu. unfold dateNow. cbn [fst snd ticks setTicks].
  destruct (clock (ticks w) - last_refreshed_at u <? refreshIntervalDays config * 86400000)
    eqn:Hdue.
  - apply Z.ltb_lt in Hdue. exists u, []. cbn [fst snd rulesUser setTicks].
    split; [exact Hu|]. do 4 (split; [reflexivity|]).
    split; [now rewrite app_nil_r|]. split; [constructor|].
    split; [|split; [now split | lia]].
    intros s. split; [now left|]. intros [H|H]; [exact H | now apply not_elem_of_nil in H].
  - apply Z.ltb_ge in Hdue.
    match goal with
    | |- context [match ?l with [] => _ | _ :: _ => _ end] => destruct l as [|s0 trulyNew]
    end.
    + eexists _, []. cbn. split; [reflexivity|]. do 4 (split; [reflexivity|]).
      split; [now rewrite app_nil_r|]. split; [constructor|].
      split; [|split; [lia | reflexivity]].
      intros s. split; [now left|]. intros [H|H]; [exact H | now apply not_elem_of_nil in H].
    + destruct (classifySenders llm 0 _) as [|t|t [fin|]].
      1,2,4: eexists _, []; fields; split; [reflexivity|]; do 4 (split; [reflexivity|]);
        (split; [fields; symmetry; apply app_nil_r|]); (split; [apply List.Forall_nil|]);
        (split; [|split; [lia | reflexivity]]);
        intros s; fields; rewrite newSet_elem; split; [now left|];
        intros [H|H]; [exact H | now apply not_elem_of_nil in H].
      eexists _, (map toLowerCase fin). fields. split; [reflexivity|].
      do 5 (split; [reflexivity|]). split; [apply lowered_all|].
      split; [|split; [lia | reflexivity]].
      intros s. fields. rewrite newSet_elem. apply elem_of_app.
Qed.

Lemma X23_on_sample :
  exists u',
    rulesUser (snd (refreshFilter Sample.clock Sample.appConfig Sample.rules Sample.agreeing
                      Sample.inboxEdited)) = Some u' /\
    "Billing@Power.Example" ∈ ur_financial u'.
Proof.
  destruct (X23_refresh_keeps_the_rule_file Sample.clock Sample.appConfig Sample.rules
              Sample.agreeing Sample.inboxEdited Sample.edited eq_refl)
    as (_ & _ & u' & added & Hu' & _ & _ & _ & _ & _ & _ & Hin & _).
  exists u'. split; [exact Hu'|]. apply Hin. left. left.
Defined.


Lemma preFilter_spec (dr : DefaultRules) (l : list string) (s : string) :
  (s ∈ fst (preFilter dr l) <->
   s ∈ l /\ matchesSenderList s (dr_ignore dr) = false /\
   matchesSenderList s (dr_financial dr) = true) /\
  (s ∈ snd (preFilter dr l) <->
   s ∈ l /\ matchesSenderList s (dr_ignore dr) = false /\
   matchesSenderList s (dr_financial dr) = false).
Proof.
  induction l as [|x l IH]; simpl.
  - split; split; intros H; try (now apply not_elem_of_nil in H);
      destruct H as [H _]; now apply not_elem_of_nil in H.
  - destruct (preFilter dr l) as [known unknown]. cbn [fst snd] in IH.
    destruct IH as [IH1 IH2].
    destruct (matchesSenderList x (dr_ignore dr)) eqn:Hi; cbn [fst snd].
    + rewrite IH1, IH2, !elem_of_cons. split; split; try tauto.
      all: intros [[->|H] [H1 H2]]; [congruence | tauto].
    + destruct (matchesSenderList x (dr_financial dr)) eqn:Hf; cbn [fst snd];
        rewrite ?elem_of_cons, IH1, IH2, ?elem_of_cons; split; split; try tauto.
      all: try (intros [->|H]; tauto).
      all: intros [[->|H] [H1 H2]]; first [congruence | tauto].
Qed.

Lemma senderBatches_elem (llm : Inference) (s : string) (fuel : nat) :
  forall (n : nat) (rest acc : list string) (tokens : Z),
    s ∈ fst (senderBatches llm fuel n rest acc tokens) <->
    s ∈ acc \/
    exists k batch tok fin x,
      Batching.slicesFrom fuel 100 rest !! k = Some batch /\
      classifySenders llm (n + k) batch = Parsed tok (Some fin) /\
      x ∈ fin /\ s = toLowerCase x.
Proof.
  induction fuel as [|fuel IH]; intros n rest acc tokens.
  - assert (E : fst (senderBatches llm 0 n rest acc tokens) = acc) by now destruct rest.
    rewrite E. split; [now left|]. intros [H | (k & b & _ & _ & _ & H & _)]; [exact H|].
    discriminate.
  - destruct rest as [|x0 rest].
    { cbn [senderBatches fst]. split; [now left|].
      intros [H | (k & b & _ & _ & _ & H & _)]; [exact H | discriminate]. }
    cbn [senderBatches Batching.slicesFrom].
    set (batch := take SENDER_BATCH_SIZE (x0 :: rest)).
    set (others := drop SENDER_BATCH_SIZE (x0 :: rest)).
    assert (Hshift : forall acc' tokens',
               (s ∈ acc' <-> s ∈ acc \/
                  exists tok fin x, classifySenders llm n batch = Parsed tok (Some fin) /\
                                    x ∈ fin /\ s = toLowerCase x) ->
               (s ∈ fst (senderBatches llm fuel (S n) others acc' tokens') <->
                s ∈ acc \/
                exists k b tok fin x,
                  (batch :: Batching.slicesFrom fuel 100 others) !! k = Some b /\
                  classifySenders llm (n + k) b = Parsed tok (Some fin) /\
                  x ∈ fin /\ s = toLowerCase x)).
    { intros acc' tokens' Hacc. rewrite IH, Hacc. split.
      - intros [[H | (tok & fin & x & H1 & H2 & H3)] | (k & b & tok & fin & x & H1 & H2 & H3)].
        + now left.
        + right. exists 0%nat, batch, tok, fin, x. rewrite Nat.add_0_r. now repeat split.
        + right. exists (S k), b, tok, fin, x.
          replace (n + S k)%nat with (S n + k)%nat by lia. now repeat split.
      - intros [H | (k & b & tok & fin & x & H1 & H2 & H3)]; [now left; left|].
        destruct k as [|k].
        + left. right. inversion H1; subst b. rewrite Nat.add_0_r in H2.
          now exists tok, fin, x.
        + right. exists k, b, tok, fin, x.
          replace (S n + k)%nat with (n + S k)%nat by lia. now repeat split. }
    destruct (classifySenders llm n batch) as [|t|t [fin|]] eqn:Hreply; apply Hshift.
    1,2,4: split; [now left|];
      intros [H | (tok & fin' & x & H1 & _)]; [exact H | discriminate].
    rewrite elem_of_app, list_elem_of_fmap. split.
    + intros [H | (x & -> & Hx)]; [now left|]. right. now exists t, fin, x.
    + intros [H | (tok & fin' & x & H1 & H2 & H3)]; [now left|].
      inversion H1; subst. right. now exists x.
Qed.

Lemma getAllUniqueSenders_nil (w : World) : getAllUniqueSenders w = [] <-> emails w = ∅.
Proof.
  unfold getAllUniqueSenders. split.
  - intros H. apply map_to_list_empty_iff.
    destruct (map_to_list (emails w)) as [|kv l]; [reflexivity|]. exfalso.
    apply (not_elem_of_nil (sender (snd kv))). rewrite <- H. apply newSet_elem. left.
  - intros ->. now rewrite map_to_list_empty.
Qed.

(** X24. The first build of the rule file.  On a store without emails
    it writes nothing and uses no tokens.  Otherwise it writes a file whose
    two times are the two clock readings of the call, whose ignore and
    review lists are empty and whose relevant senders are free of
    duplicates.  The relevant senders are exactly the stored senders that
    the baseline rules call relevant and do not ignore, which are in it
    whatever the model answers, together with the answers of the model,
    lower-cased: the senders named as relevant in the reply to a batch
    of the unknown senders, which are the stored senders that no baseline
    list matches.  Emails and classifications are never touched. *)
Theorem X24_first_build_of_the_rule_file (clock : nat -> Z) (defaultRules : DefaultRules)
    (llm : Inference) (w : World) :
  let tokens := fst (buildOrganicFilter clock defaultRules llm w) in
  let w' := snd (buildOrganicFilter clock defaultRules llm w) in
  let stored (s : string) := exists i e, emails w !! i = Some e /\ sender e = s in
  let known (s : string) :=
    stored s /\
    matchesSenderList s (dr_ignore defaultRules) = false /\
    matchesSenderList s (dr_financial defaultRules) = true in
  let unknownSenders := snd (preFilter defaultRules (getAllUniqueSenders w)) in
  emails w' = emails w /\ classifications w' = classifications w /\
  (forall s, s ∈ unknownSenders <->
     stored s /\
     matchesSenderList s (dr_ignore defaultRules) = false /\
     matchesSenderList s (dr_financial defaultRules) = false) /\
  (emails w = ∅ -> w' = w /\ tokens = 0) /\
  (emails w <> ∅ ->
   exists u,
     rulesUser w' = Some u /\
     ur_generated_at u = clock (ticks w) /\ last_refreshed_at u = clock (S (ticks w)) /\
     ur_ignore u = [] /\ pending_review u = [] /\ NoDup (ur_financial u) /\
     (forall s, s ∈ ur_financial u <-> known s \/ Batching.answered llm unknownSenders s)).
Proof.
  intros tokens w' stored known unknownSenders. subst tokens w'.
  destruct (buildOrganicFilter_frame clock defaultRules llm w) as (_ & _ & He & Hc).
  split; [exact He|]. split; [exact Hc|]. clear He Hc.
  assert (Hstored : forall s, s ∈ getAllUniqueSenders w <-> stored s).
  { intros s. unfold stored, getAllUniqueSenders. rewrite newSet_elem, list_elem_of_fmap.
    split.
    - intros ([i e] & Hs & Hi). exists i, e.
      split; [now apply elem_of_map_to_list | now symmetry].
    - intros (i & e & Hi & Hs). exists (i, e).
      split; [now symmetry | now apply elem_of_map_to_list]. }
  split.
  { intros s. unfold unknownSenders.
    now rewrite (proj2 (preFilter_spec defaultRules (getAllUniqueSenders w) s)), Hstored. }
  assert (Hk : forall s,
             known s <-> s ∈ fst (preFilter defaultRules (getAllUniqueSenders w))).
  { intros s. unfold known.
    now rewrite (proj1 (preFilter_spec defaultRules (getAllUniqueSenders w) s)), Hstored. }
  subst unknownSenders. clear Hstored.
  unfold buildOrganicFilter.
  destruct (getAllUniqueSenders w) as [|s0 rest] eqn:Hall.
  { split; [now split|]. intros Hne. now apply getAllUniqueSenders_nil in Hall. }
  split.
  { intros Hempty. apply getAllUniqueSenders_nil in Hempty. congruence. }
  intros _.
  destruct (preFilter defaultRules (s0 :: rest)) as [knownFinancial unknown].
  cbn [fst] in Hk. cbn [snd].
  assert (Hans : forall s,
             s ∈ fst (senderBatches llm (length unknown) 0 unknown [] 0) <->
             Batching.answered llm unknown s).
  { intros s. rewrite senderBatches_elem. unfold Batching.answered, Batching.slices.
    split.
    - intros [H | H]; [now apply not_elem_of_nil in H | exact H].
    - intros H. right. exact H. }
  destruct (senderBatches llm (length unknown) 0 unknown [] 0) as [llmFinancial t].
  cbn [fst] in Hans.
  assert (Hfin : forall tok sk bk,
            exists u,
              rulesUser
                (snd (let '(generated, w1) := dateNow clock w in
                      let '(refreshed, w2) := dateNow clock w1 in
                      (tok : Z,
                       setRulesUser
                         (Some {| ur_generated_at := generated;
                                  last_refreshed_at := refreshed;
                                  ur_financial := newSet (knownFinancial ++ llmFinancial);
                                  ur_ignore := []; pending_review := [];
                                  ur_subject := sk; ur_body := bk |}) w2))) = Some u /\
              ur_generated_at u = clock (ticks w) /\
              last_refreshed_at u = clock (S (ticks w)) /\
              ur_ignore u = [] /\ pending_review u = [] /\ NoDup (ur_financial u) /\
              (forall s, s ∈ ur_financial u <->
                         known s \/ Batching.answered llm unknown s)).
  { intros tok sk bk. unfold dateNow. eexists. split; [reflexivity|].
    cbn [ur_generated_at last_refreshed_at ur_ignore pending_review ur_financial].
    do 4 (split; [reflexivity|]). split; [apply newSet_NoDup|].
    intros s. now rewrite newSet_elem, elem_of_app, Hk, Hans. }
  destruct (getSubjectsBySenders (newSet (knownFinancial ++ llmFinancial)) w)
    as [|subj subjects].
  - apply Hfin.
  - destruct (extractKeywords llm _) as [|tk|tk sk bk]; apply Hfin.
Qed.

Lemma slicesFrom_concat {A : Type} (size : nat) :
  (0 < size)%nat ->
  forall (fuel : nat) (l : list A),
    (length l <= fuel)%nat -> concat (Batching.slicesFrom fuel size l) = l.
Proof.
  intros Hs. induction fuel as [|fuel IH]; intros l Hl.
  - destruct l; [reflexivity | simpl in Hl; lia].
  - destruct l as [|x l]; [reflexivity|].
    cbn [Batching.slicesFrom concat]. rewrite IH; [apply take_drop|].
    rewrite length_drop. simpl in *. lia.
Qed.

Lemma slicesFrom_sizes {A : Type} (size : nat) :
  (0 < size)%nat ->
  forall (fuel : nat) (l : list A),
    Forall (fun b => (1 <= length b <= size)%nat) (Batching.slicesFrom fuel size l).
Proof.
  intros Hs. induction fuel as [|fuel IH]; intros l; [constructor|].
  destruct l as [|x l]; [constructor|].
  cbn [Batching.slicesFrom]. constructor; [|apply IH].
  rewrite length_take. simpl. lia.
Qed.

Lemma senderBatches_fold (llm : Inference) (fuel : nat) :
  forall (n : nat) (rest acc : list string) (tokens : Z),
    senderBatches llm fuel n rest acc tokens
      = snd (fold_left (Batching.absorb llm)
               (Batching.slicesFrom fuel SENDER_BATCH_SIZE rest) (n, (acc, tokens))).
Proof.
  induction fuel as [|fuel IH]; intros n rest acc tokens; [now destruct rest|].
  destruct rest as [|x rest]; [reflexivity|].
  cbn [senderBatches Batching.slicesFrom fold_left]. unfold Batching.absorb at 2.
  destruct (classifySenders llm n _) as [|t|t [fin|]]; apply IH.
Qed.

Lemma slicesFrom_lookup {A : Type} (size : nat) :
  forall (fuel : nat) (l : list A) (k : nat) (b : list A),
    Batching.slicesFrom fuel size l !! k = Some b ->
    b = take size (drop (size * k) l).
Proof.
  induction fuel as [|fuel IH]; intros l k b H; [discriminate|].
  destruct l as [|x l]; [discriminate|].
  cbn [Batching.slicesFrom] in H. destruct k as [|k].
  - inversion H. now rewrite Nat.mul_0_r.
  - cbn [lookup list_lookup] in H. apply IH in H. rewrite H, drop_drop.
    do 2 f_equal. lia.
Qed.

(** X25. The unknown senders are put to the model in consecutive
    batches that lose and repeat nothing: the batches, in order, make up
    the list of unknown senders, each holds between 1 and 100 senders, and
    the senders found and the tokens used are what the replies to these
    batches add up to, a failed call adding nothing.  The batch number
    [k], counted from 0, is the slice of the list from index [100 * k] to
    index [100 * k + 100]. *)
Theorem X25_sender_batches_cover_the_list (llm : Inference) (unknownSenders : list string) :
  concat (Batching.slices 100 unknownSenders) = unknownSenders /\
  (forall k batch, Batching.slices 100 unknownSenders !! k = Some batch ->
     batch = take 100 (drop (100 * k) unknownSenders)) /\
  Forall (fun batch => (1 <= length batch <= 100)%nat)
    (Batching.slices 100 unknownSenders) /\
  senderBatches llm (length unknownSenders) 0 unknownSenders [] 0
    = snd (fold_left (Batching.absorb llm) (Batching.slices 100 unknownSenders)
             (0%nat, ([], 0))).
Proof.
  unfold Batching.slices. split; [|split; [|split]].
  - apply slicesFrom_concat; lia.
  - apply slicesFrom_lookup.
  - apply slicesFrom_sizes. lia.
  - apply senderBatches_fold.
Qed.

End RuleUpkeep.

(** ** The scheduler *)

Section SchedulerFacts.

Import Pipeline.

(** X26. What the catch-up check at startup does.  Without an earlier
    [success] or [skipped] run it starts nothing: the store is left
    exactly as it was, so a first briefing waits for the schedule.  When
    the reference run finished on today's date it starts nothing either.
    Otherwise it runs the pipeline once with the trigger [catchup]: one
    finished run is appended, whose period starts where the reference
    run's period ended (when that end is set and not 0). *)
Theorem X26_catch_up_at_startup (env : Env) (w : World) :
  (getLastSuccessfulRun w = None -> Scheduler.checkCatchUp env w = w) /\
  (forall lastRun,
     getLastSuccessfulRun w = Some lastRun ->
     toDateString env (default 0 (finished_at lastRun))
       = toDateString env (clock env (ticks w)) ->
     Scheduler.checkCatchUp env w = setTicks (S (ticks w)) w) /\
  (forall lastRun,
     getLastSuccessfulRun w = Some lastRun ->
     toDateString env (default 0 (finished_at lastRun))
       <> toDateString env (clock env (ticks w)) ->
     exists r,
       pipeline_runs (Scheduler.checkCatchUp env w) = pipeline_runs w ++ [r] /\
       trigger r = catchup /\ RunLog.terminal (status r) /\
       is_Some (finished_at r) /\
       started_at r = clock env (S (S (ticks w))) /\
       (forall periodEnd, period_end lastRun = Some periodEnd -> periodEnd <> 0 ->
          period_start r = Some periodEnd)).
Proof.
  unfold Scheduler.checkCatchUp. split; [|split].
  - now intros ->.
  - intros lastRun -> Hd. unfold dateNow. rewrite Hd, String.eqb_refl. reflexivity.
  - intros lastRun Hlast Hd. rewrite Hlast. unfold dateNow.
    apply String.eqb_neq in Hd. rewrite Hd.
    set (w2 := setTicks (S (ticks (setTicks (S (ticks w)) w))) (setTicks (S (ticks w)) w)).
    destruct (runPipeline_trace env catchup w2)
      as (r & Hruns & _ & Htr & Hst & Hps & _ & _ & Hcase).
    exists r. split; [exact Hruns|]. split; [exact Htr|].
    unfold RunLog.terminal.
    assert (Hfin : status r <> running /\ is_Some (finished_at r)).
    { destruct (status r).
      - destruct Hcase.
      - destruct Hcase as (_ & H & _). now split.
      - destruct Hcase as (_ & H & _). now split.
      - destruct Hcase as (_ & H & _). now split.
      - destruct Hcase as (H & _). now split. }
    split; [apply Hfin|]. split; [apply Hfin|]. split; [exact Hst|].
    intros periodEnd Hpe Hnz. rewrite Hps.
    change (getLastSuccessfulRun w2) with (getLastSuccessfulRun w). rewrite Hlast.
    unfold periodStartOf, truthyField. rewrite Hpe.
    apply Z.eqb_neq in Hnz. now rewrite Hnz.
Qed.

End SchedulerFacts.

(** ** Provider selection *)

Section RouterFacts.

Import LlmRouter.

Lemma resolveProvider_ok (config : ModelsConfig) (env : Environment) (name : string)
    (p : ProviderInfo) :
  resolveProvider config env name = Ok p ->
  (name = "ollama" /\ type p = ollama /\ model p = ollamaModel config /\
   baseUrl p = Some (ollamaBaseUrl config) /\ apiKey p = None) \/
  (name = "anthropic" /\ type p = anthropic /\ model p = anthropicModel config /\
   apiKey p = ANTHROPIC_API_KEY env) \/
  (name = "openai" /\ type p = openai /\ model p = openaiModel config /\
   apiKey p = OPENAI_API_KEY env).
Proof.
  unfold resolveProvider.
  destruct (String.eqb_spec name "ollama") as [->|_].
  { intros H. inversion H; subst. left. now repeat split. }
  destruct (String.eqb_spec name "anthropic") as [->|_].
  { intros H. inversion H; subst. right. left. now repeat split. }
  destruct (String.eqb_spec name "openai") as [->|_]; [|discriminate].
  intros H. inversion H; subst. right. right. now repeat split.
Qed.

(** X27. Which provider is selected.  A cloud provider chosen as the
    primary one is only ever returned with a key that is set and not
    empty.  A local primary provider that answers the probe is returned
    with the configured address and model.  When it does not answer, the
    fallback is returned as configured, without a second probe and without
    a look at its key: a cloud fallback is returned even when its key is
    missing, and a fallback that names the local provider again is
    returned although the probe failed.  A provider that is returned is
    always the primary one or, for a local primary, the fallback. *)
Theorem X27_provider_selection (config : ModelsConfig) (env : Environment)
    (isOllamaRunning : bool) :
  (forall p, selectProvider config env isOllamaRunning = Ok p ->
     provider config <> "ollama" ->
     present (apiKey p) = true /\
     ((provider config = "anthropic" /\ type p = anthropic /\
       model p = anthropicModel config) \/
      (provider config = "openai" /\ type p = openai /\ model p = openaiModel config))) /\
  (provider config = "ollama" -> isOllamaRunning = true ->
   selectProvider config env isOllamaRunning
     = Ok {| type := ollama; model := ollamaModel config;
             baseUrl := Some (ollamaBaseUrl config); apiKey := None |}) /\
  (provider config = "ollama" -> isOllamaRunning = false ->
   (fallback config = Some "anthropic" ->
    selectProvider config env isOllamaRunning
      = Ok {| type := anthropic; model := anthropicModel config;
              baseUrl := None; apiKey := ANTHROPIC_API_KEY env |}) /\
   (fallback config = Some "openai" ->
    selectProvider config env isOllamaRunning
      = Ok {| type := openai; model := openaiModel config;
              baseUrl := None; apiKey := OPENAI_API_KEY env |}) /\
   (fallback config = Some "ollama" ->
    selectProvider config env isOllamaRunning
      = Ok {| type := ollama; model := ollamaModel config;
              baseUrl := Some (ollamaBaseUrl config); apiKey := None |}) /\
   (present (fallback config) = false ->
    exists msg, selectProvider config env isOllamaRunning = Throw msg)).
Proof.
  unfold selectProvider. split; [|split].
  - intros p H Hne. apply (proj2 (String.eqb_neq _ _)) in Hne. rewrite Hne in H.
    destruct (resolveProvider config env (provider config)) as [q|e] eqn:Hq;
      [|discriminate].
    apply resolveProvider_ok in Hq as [(Hn & _) | [(Hn & Ht & Hm & Hk) | (Hn & Ht & Hm & Hk)]].
    + rewrite Hn in Hne. discriminate.
    + rewrite Hn in H. cbn [String.eqb Ascii.eqb Bool.eqb orb andb] in H.
      destruct (present (apiKey q)) eqn:Hp; [|discriminate].
      inversion H; subst p. split; [exact Hp|]. left. now repeat split.
    + rewrite Hn in H. cbn [String.eqb Ascii.eqb Bool.eqb orb andb] in H.
      destruct (present (apiKey q)) eqn:Hp; [|discriminate].
      inversion H; subst p. split; [exact Hp|]. right. now repeat split.
  - intros -> ->. reflexivity.
  - intros -> ->. cbn [String.eqb Ascii.eqb Bool.eqb].
    split; [|split; [|split]].
    + intros ->. reflexivity.
    + intros ->. reflexivity.
    + intros ->. reflexivity.
    + intros Hf. destruct (fallback config) as [name|]; [|now eexists].
      rewrite Hf. now eexists.
Qed.

End RouterFacts.

(** ** Requests to the mail service *)

Section GmailRetry.

Import GmailApi.

Context {T : Type}.
Variable fn : Z -> Outcome T.
Variable maxRetries : Z.

Lemma retryLoop_inv (fuel : nat) :
  forall (k : nat) (slept : list Z) (out : Outcome T) (slept' : list Z),
    retryLoop fuel fn maxRetries (Z.of_nat k) slept = Some (out, slept') ->
    (maxRetries < Z.of_nat k /\ out = Thrown unreachable /\ slept' = slept) \/
    exists n delays,
      (k <= n)%nat /\ Z.of_nat n <= maxRetries /\
      out = fn (Z.of_nat n) /\
      (forall e, out = Thrown e -> retryable e = false \/ Z.of_nat n = maxRetries) /\
      (forall i, (k <= i < n)%nat ->
         exists e, fn (Z.of_nat i) = Thrown e /\ retryable e = true) /\
      slept' = slept ++ delays /\
      LlmInterface.backoff n = LlmInterface.backoff k ++ delays.
Proof.
  induction fuel as [|fuel IH]; intros k slept out slept' H; [discriminate|].
  simpl in H. destruct (Z.of_nat k <=? maxRetries) eqn:Hle.
  - apply Z.leb_le in Hle. right.
    destruct (fn (Z.of_nat k)) as [v|e] eqn:Hfn.
    + inversion H; subst. exists k, []. rewrite !app_nil_r.
      split; [lia|]. split; [exact Hle|]. split; [now symmetry|].
      split; [discriminate|]. split; [intros i Hi; lia | now split].
    + destruct (negb (retryable e) || (Z.of_nat k =? maxRetries)) eqn:Hdec.
      * inversion H; subst. exists k, []. rewrite !app_nil_r.
        split; [lia|]. split; [exact Hle|]. split; [now symmetry|].
        split; [|split; [intros i Hi; lia | now split]].
        intros e' He'. inversion He'; subst e'.
        apply orb_true_iff in Hdec as [Hr|Hl].
        -- left. now apply negb_true_iff in Hr.
        -- right. now apply Z.eqb_eq in Hl.
      * apply orb_false_iff in Hdec as [Hr Hne]. apply negb_false_iff in Hr.
        replace (Z.of_nat k + 1) with (Z.of_nat (S k)) in H by lia.
        apply IH in H as [(Hgt & _ & _) | (n & delays & Hkn & Hn & Hout & Hd & Hall & Hs & Hb)].
        -- apply Z.eqb_neq in Hne. lia.
        -- exists n, ((2 ^ Z.of_nat k * 1000) :: delays).
           split; [lia|]. split; [exact Hn|]. split; [exact Hout|]. split; [exact Hd|].
           split; [|split].
           ++ intros i Hi. destruct (decide (i = k)) as [->|Hik]; [eauto|].
              apply Hall. lia.
           ++ rewrite Hs, <- app_assoc. reflexivity.
           ++ rewrite Hb. simpl. rewrite <- app_assoc. reflexivity.
  - apply Z.leb_gt in Hle. left. inversion H; subst. now repeat split.
Qed.

Lemma retryLoop_total (n : nat) :
  forall (fuel : nat) (attempt : Z) (slept : list Z),
    (n < fuel)%nat -> maxRetries - attempt < Z.of_nat n ->
    exists res, retryLoop fuel fn maxRetries attempt slept = Some res.
Proof.
  induction n as [|n IH]; intros fuel attempt slept Hfuel Hrem.
  - destruct fuel as [|fuel]; [lia|]. simpl.
    assert (Hc : (attempt <=? maxRetries) = false) by (apply Z.leb_gt; lia).
    rewrite Hc. now eexists.
  - destruct fuel as [|fuel]; [lia|]. simpl.
    destruct (attempt <=? maxRetries); [|now eexists].
    destruct (fn attempt) as [v|e]; [now eexists|].
    destruct (negb (retryable e) || (attempt =? maxRetries)); [now eexists|].
    apply IH; lia.
Qed.

End GmailRetry.

(** X28. A request to the mail service always ends.  With a cap of 0
    or more it ends with the outcome of one of the attempts 0 to
    [maxRetries]: the first that returned, or that threw an error whose
    status is not 429, 500, 502 or 503, or else the last attempt the cap
    allows; every attempt before it threw one of these four statuses, and
    the waits between the attempts are 1000 ms, 2000 ms, 4000 ms and so
    on.  An error that carries no numeric status is never retried.  With a
    negative cap no attempt is made and the error is [Unreachable]. *)
Theorem X28_mail_request_retry {T : Type} (fn : Z -> GmailApi.Outcome T) (maxRetries : Z) :
  exists out slept,
    GmailApi.fetchWithRetry fn maxRetries = Some (out, slept) /\
    (maxRetries < 0 -> out = GmailApi.Thrown GmailApi.unreachable /\ slept = []) /\
    (0 <= maxRetries ->
     exists n,
       Z.of_nat n <= maxRetries /\ out = fn (Z.of_nat n) /\
       slept = LlmInterface.backoff n /\
       (forall i, (i < n)%nat ->
          exists e status,
            fn (Z.of_nat i) = GmailApi.Thrown e /\ GmailApi.statusOrCode e = Some status /\
            (status = 429 \/ status = 500 \/ status = 502 \/ status = 503)) /\
       (forall e, out = GmailApi.Thrown e ->
          GmailApi.retryable e = false \/ Z.of_nat n = maxRetries)).
Proof.
  unfold GmailApi.fetchWithRetry.
  destruct (retryLoop_total fn maxRetries (Z.to_nat (maxRetries + 1)) (S (Z.to_nat (maxRetries + 1))) 0 [])
    as [[out slept] H]; [lia | lia|].
  exists out, slept. split; [exact H|].
  change 0 with (Z.of_nat 0) in H.
  apply retryLoop_inv in H
    as [(Hneg & -> & ->) | (n & delays & _ & Hn & Hout & Hd & Hall & Hs & Hb)].
  - split; [now split | simpl in Hneg; lia].
  - split; [lia|]. intros _. exists n. split; [exact Hn|]. split; [exact Hout|].
    split; [simpl in Hs, Hb; congruence|]. split; [|exact Hd].
    intros i Hi. destruct (Hall i ltac:(lia)) as (e & He & Hr). exists e.
    unfold GmailApi.retryable in Hr.
    destruct (GmailApi.statusOrCode e) as [status|]; [|discriminate].
    exists status. split; [exact He|]. split; [reflexivity|].
    repeat (apply orb_true_iff in Hr as [Hr|Hr]); apply Z.eqb_eq in Hr; tauto.
Qed.

(** ** Messages *)

Section TextFacts.

Import JsText.

Lemma append_cons (c : ascii) (s t : string) :
  String.append (String c s) t = String c (String.append s t).
Proof. reflexivity. Qed.

Lemma append_nil_r (s : string) : String.append s EmptyString = s.
Proof. induction s as [|c s IH]; [reflexivity|]. now rewrite append_cons, IH. Qed.

Lemma append_assoc (a b c : string) :
  String.append (String.append a b) c = String.append a (String.append b c).
Proof. induction a as [|x a IH]; [reflexivity|]. now rewrite !append_cons, IH. Qed.

Lemma truthy_spec (s : string) : truthy s = true <-> s <> EmptyString.
Proof. destruct s; simpl; split; congruence. Qed.

Lemma trimStart_length (s : string) : (String.length (trimStart s) <= String.length s)%nat.
Proof.
  induction s as [|c s IH]; [reflexivity|]. simpl.
  destruct (isSpace c); simpl; lia.
Qed.

Lemma trimEnd_length (s : string) : (String.length (trimEnd s) <= String.length s)%nat.
Proof.
  induction s as [|c s IH]; [reflexivity|]. simpl.
  destruct (trimEnd s) as [|d r]; [destruct (isSpace c)|]; simpl in *; lia.
Qed.

Lemma trim_length (s : string) : (String.length (trim s) <= String.length s)%nat.
Proof.
  unfold trim. pose proof (trimEnd_length (trimStart s)). pose proof (trimStart_length s). lia.
Qed.

Lemma joined_app (a b : list string) :
  joined (a ++ b) = String.append (joined a) (joined b).
Proof.
  unfold joined. induction a as [|x a IH]; [reflexivity|]. simpl.
  now rewrite IH, append_assoc.
Qed.

End TextFacts.

Section SplitFacts.

Import JsText Whatsapp.

Lemma splitBeforeHeadings_joined (rest : string) :
  forall current, joined (splitBeforeHeadings current rest) = String.append current rest.
Proof.
  induction rest as [|c rest IH]; intros current.
  - unfold joined. simpl. now rewrite !append_nil_r.
  - cbn [splitBeforeHeadings].
    destruct (headingAt (String c rest) && truthy current).
    + change (joined (current :: splitBeforeHeadings (String c EmptyString) rest))
        with (String.append current
                (joined (splitBeforeHeadings (String c EmptyString) rest))).
      now rewrite IH.
    + rewrite IH, append_assoc. reflexivity.
Qed.

Variable maxLength : nat.
Variable all : list string.

Lemma pack_invariant (secs : list string) :
  forall (pieces : list string) (current : string),
    (forall s, s ∈ secs -> s ∈ all) ->
    Forall (fun p => p <> EmptyString /\ fits maxLength all p) pieces ->
    fits maxLength all current ->
    exists pieces' current',
      fold_left (packSection maxLength) secs (map trim pieces, current)
        = (map trim pieces', current') /\
      String.append (joined pieces') current'
        = String.append (String.append (joined pieces) current) (joined secs) /\
      Forall (fun p => p <> EmptyString /\ fits maxLength all p) pieces' /\
      fits maxLength all current'.
Proof.
  induction secs as [|sec secs IH]; intros pieces current Hsub Hp Hc.
  - exists pieces, current. split; [reflexivity|]. split; [|now split].
    unfold joined at 3. simpl. now rewrite append_nil_r.
  - assert (Hsec : sec ∈ all) by (apply Hsub; left).
    assert (Hsub' : forall s, s ∈ secs -> s ∈ all) by (intros s Hs; apply Hsub; now right).
    cbn [fold_left packSection].
    destruct (maxLength <? String.length current + String.length sec)%nat eqn:Hover.
    + destruct (truthy current) eqn:Ht.
      * destruct (IH (pieces ++ [current]) sec Hsub') as (pieces' & current' & H1 & H2 & H3);
          [|now right|].
        { apply Forall_app. split; [exact Hp|]. constructor; [|constructor].
          split; [now apply truthy_spec | exact Hc]. }
        exists pieces', current'. rewrite map_app in H1. split; [exact H1|].
        split; [|exact H3]. rewrite H2, joined_app.
        change (joined (sec :: secs)) with (String.append sec (joined secs)).
        unfold joined at 2. simpl. rewrite append_nil_r, !append_assoc. reflexivity.
      * destruct (IH pieces sec Hsub' Hp) as (pieces' & current' & H1 & H2 & H3);
          [now right|].
        exists pieces', current'. split; [exact H1|]. split; [|exact H3].
        rewrite H2. destruct current; [|discriminate].
        change (joined (sec :: secs)) with (String.append sec (joined secs)).
        rewrite append_nil_r, !append_assoc. reflexivity.
    + apply Nat.ltb_ge in Hover.
      destruct (IH pieces (String.append current sec) Hsub' Hp)
        as (pieces' & current' & H1 & H2 & H3).
      { left. rewrite length_append. exact Hover. }
      exists pieces', current'. split; [exact H1|]. split; [|exact H3].
      rewrite H2. change (joined (sec :: secs)) with (String.append sec (joined secs)).
      rewrite !append_assoc. reflexivity.
Qed.

End SplitFacts.

(** X29. Splitting a briefing into messages loses nothing but white
    space at the ends of a message.  A text within the limit is sent as it
    is, untrimmed.  A longer text is cut only where the heading pattern
    matches and the pieces, in order, make up the text; each message is
    one piece, trimmed; no piece is empty; a piece exceeds the limit only
    if it is a single section that does so by itself, such a section being
    sent whole. *)
Theorem X29_split_message (text : string) (maxLength : nat) :
  JsText.joined (Whatsapp.sections text) = text /\
  ((String.length text <= maxLength)%nat ->
   Whatsapp.splitMessage text maxLength = [text]) /\
  ((maxLength < String.length text)%nat ->
   exists pieces,
     Whatsapp.splitMessage text maxLength = map JsText.trim pieces /\
     JsText.joined pieces = text /\
     Forall (fun piece =>
               piece <> EmptyString /\
               ((String.length piece <= maxLength)%nat \/
                (piece ∈ Whatsapp.sections text /\
                 (maxLength < String.length piece)%nat)))
       pieces /\
     Forall (fun message =>
               (String.length message <= maxLength)%nat \/
               exists section,
                 section ∈ Whatsapp.sections text /\ message = JsText.trim section)
       (Whatsapp.splitMessage text maxLength)).
Proof.
  assert (Hsec : JsText.joined (Whatsapp.sections text) = text)
    by apply splitBeforeHeadings_joined.
  split; [exact Hsec|]. unfold Whatsapp.splitMessage. split.
  - intros Hle. apply Nat.leb_le in Hle. now rewrite Hle.
  - intros Hgt. apply Nat.leb_gt in Hgt. rewrite Hgt.
    destruct (pack_invariant maxLength (Whatsapp.sections text) (Whatsapp.sections text)
                [] EmptyString (fun s Hs => Hs) (List.Forall_nil _))
      as (pieces & current & Hrun & Hjoin & Hp & Hc); [left; simpl; lia|].
    change (map JsText.trim []) with (@nil string) in Hrun. rewrite Hrun.
    change (JsText.joined []) with EmptyString in Hjoin. simpl in Hjoin.
    rewrite Hsec in Hjoin.
    assert (Hfinal : exists pieces',
               (if JsString.truthy current
                then map JsText.trim pieces ++ [JsText.trim current]
                else map JsText.trim pieces) = map JsText.trim pieces' /\
               JsText.joined pieces' = text /\
               Forall (fun p => p <> EmptyString /\
                                ((String.length p <= maxLength)%nat \/
                                 p ∈ Whatsapp.sections text)) pieces').
    { destruct (JsString.truthy current) eqn:Ht.
      - exists (pieces ++ [current]). rewrite map_app. split; [reflexivity|]. split.
        + rewrite joined_app. unfold JsText.joined at 2. simpl.
          now rewrite append_nil_r.
        + apply Forall_app. split; [exact Hp|]. constructor; [|constructor].
          split; [now apply truthy_spec | exact Hc].
      - exists pieces. split; [reflexivity|]. split; [|exact Hp].
        destruct current; [|discriminate]. now rewrite append_nil_r in Hjoin. }
    destruct Hfinal as (pieces' & -> & Hj & Hok). exists pieces'.
    split; [reflexivity|]. split; [exact Hj|]. split.
    + eapply Forall_impl; [exact Hok|]. intros p [Hne [Hl|Hin]]; (split; [exact Hne|]).
      * now left.
      * destruct (le_lt_dec (String.length p) maxLength); [now left | now right].
    + apply Forall_fmap. eapply Forall_impl; [exact Hok|].
      intros p [_ [Hl|Hin]]; simpl.
      * left. pose proof (trim_length p). lia.
      * right. now exists p.
Qed.

(** ** The sender of a message *)

Section SenderFacts.

Import JsText GmailHeaders.

Lemma isSpace_lower (c : ascii) : isSpace (lowerAscii c) = isSpace c.
Proof. destruct c as [[] [] [] [] [] [] [] []]; reflexivity. Qed.

Lemma trimStart_lower (s : string) : trimStart (toLowerCase s) = toLowerCase (trimStart s).
Proof.
  induction s as [|c s IH]; [reflexivity|]. simpl. rewrite isSpace_lower.
  destruct (isSpace c); [exact IH | reflexivity].
Qed.

Lemma trimEnd_lower (s : string) : trimEnd (toLowerCase s) = toLowerCase (trimEnd s).
Proof.
  induction s as [|c s IH]; [reflexivity|]. simpl. rewrite IH, isSpace_lower.
  destruct (trimEnd s) as [|d r]; simpl; [destruct (isSpace c)|]; reflexivity.
Qed.

Lemma trim_lower (s : string) : trim (toLowerCase s) = toLowerCase (trim s).
Proof. unfold trim. now rewrite trimStart_lower, trimEnd_lower. Qed.

Lemma trimEnd_idem (s : string) : trimEnd (trimEnd s) = trimEnd s.
Proof.
  induction s as [|c s IH]; [reflexivity|]. simpl.
  destruct (trimEnd s) as [|d r] eqn:E.
  - destruct (isSpace c) eqn:Hc; [reflexivity|]. simpl. now rewrite Hc.
  - change (trimEnd (String c (String d r)))
      with (match trimEnd (String d r) with
            | EmptyString => if isSpace c then EmptyString else String c EmptyString
            | String d' r' => String c (String d' r')
            end).
    now rewrite IH.
Qed.

(** A text that does not begin with white space. *)
Lemma trimStart_fixed (s : string) :
  match s with String c _ => isSpace c = false | EmptyString => True end ->
  trimStart s = s.
Proof. destruct s as [|c s]; [reflexivity|]. simpl. now intros ->. Qed.

Lemma trimStart_head (s : string) :
  match trimStart s with String c _ => isSpace c = false | EmptyString => True end.
Proof.
  induction s as [|c s IH]; [exact I|]. simpl.
  destruct (isSpace c) eqn:Hc; [exact IH | exact Hc].
Qed.

Lemma trimEnd_head (s : string) :
  match s with String c _ => isSpace c = false | EmptyString => True end ->
  match trimEnd s with String c _ => isSpace c = false | EmptyString => True end.
Proof.
  destruct s as [|c s]; [trivial|]. intros Hc. simpl.
  destruct (trimEnd s); [now rewrite Hc | exact Hc].
Qed.

Lemma trim_idem (s : string) : trim (trim s) = trim s.
Proof.
  unfold trim.
  rewrite (trimStart_fixed (trimEnd (trimStart s)))
    by apply trimEnd_head, trimStart_head.
  apply trimEnd_idem.
Qed.

Lemma upToClose_found (addr rest : string) :
  has (fun c => Ascii.eqb c greaterThan || isLineTerminator c) addr = false ->
  upToClose (String.append addr (String greaterThan rest)) = Some addr.
Proof.
  induction addr as [|c addr IH]; [reflexivity|]. simpl. intros H.
  apply orb_false_iff in H as [Hc H]. apply orb_false_iff in Hc as [Hg Hl].
  change (upToClose (String c (String.append addr (String greaterThan rest))) = Some (String c addr)).
  simpl. rewrite Hg, Hl, (IH H). reflexivity.
Qed.

Lemma matchAngle_none (s : string) :
  has (fun c => Ascii.eqb c lessThan) s = false -> matchAngle s = None.
Proof.
  induction s as [|c s IH]; [reflexivity|]. simpl. intros H.
  apply orb_false_iff in H as [Hc H]. rewrite Hc. now apply IH.
Qed.

Lemma matchAngle_found (name addr rest : string) :
  has (fun c => Ascii.eqb c lessThan) name = false ->
  addr <> EmptyString ->
  has (fun c => Ascii.eqb c greaterThan || isLineTerminator c) addr = false ->
  matchAngle
    (String.append name (String lessThan (String.append addr (String greaterThan rest))))
    = Some addr.
Proof.
  intros Hname Hne Haddr. induction name as [|c name IH].
  - change (matchAngle (String lessThan (String.append addr (String greaterThan rest)))
            = Some addr).
    simpl. destruct addr as [|a addr]; [contradiction|].
    simpl in Haddr. apply orb_false_iff in Haddr as [Ha Haddr].
    apply orb_false_iff in Ha as [_ Hl].
    change (match group (String a (String.append addr (String greaterThan rest))) with
            | Some g => Some g
            | None => matchAngle (String a (String.append addr (String greaterThan rest)))
            end = Some (String a addr)).
    unfold group. rewrite Hl, (upToClose_found addr rest Haddr). reflexivity.
  - simpl in Hname. apply orb_false_iff in Hname as [Hc Hname].
    change (matchAngle
              (String c (String.append name
                           (String lessThan (String.append addr (String greaterThan rest)))))
            = Some addr).
    simpl. rewrite Hc. now apply IH.
Qed.

Lemma extractSenderAddress_lower (from : string) :
  RuleFile.lowerCased (extractSenderAddress from).
Proof.
  unfold RuleFile.lowerCased, extractSenderAddress.
  now rewrite <- trim_lower, toLowerCase_idem.
Qed.

End SenderFacts.

(** X30. The sender address taken from a [From] header is in lower
    case and carries no white space at its ends, whatever the header
    holds.  For a header of the form [name <address> rest], where the name
    holds no [<] and the address is not empty and holds no [>] and no line
    break, it is the address, lower-cased and trimmed; for a header with
    no [<] it is the whole header, lower-cased and trimmed.  So storing
    rows whose sender was taken this way keeps every stored sender in
    lower case, for one row and for a whole fetch. *)
Theorem X30_sender_address_is_normalised (from : string) :
  toLowerCase (GmailHeaders.extractSenderAddress from)
    = GmailHeaders.extractSenderAddress from /\
  JsText.trim (GmailHeaders.extractSenderAddress from)
    = GmailHeaders.extractSenderAddress from /\
  (GmailHeaders.has (fun c => Ascii.eqb c GmailHeaders.lessThan) from = false ->
   GmailHeaders.extractSenderAddress from = JsText.trim (toLowerCase from)) /\
  (forall name addr rest,
     from = String.append name
              (String GmailHeaders.lessThan
                 (String.append addr (String GmailHeaders.greaterThan rest))) ->
     GmailHeaders.has (fun c => Ascii.eqb c GmailHeaders.lessThan) name = false ->
     addr <> EmptyString ->
     GmailHeaders.has
       (fun c => Ascii.eqb c GmailHeaders.greaterThan || GmailHeaders.isLineTerminator c)
       addr = false ->
     GmailHeaders.extractSenderAddress from = JsText.trim (toLowerCase addr)) /\
  (forall row w,
     sender row = GmailHeaders.extractSenderAddress from ->
     RuleFile.lowerCasedStore w -> RuleFile.lowerCasedStore (insertEmail row w)) /\
  (forall clock messages n w,
     GmailHeaders.sendersExtracted messages ->
     RuleFile.lowerCasedStore w ->
     RuleFile.lowerCasedStore (snd (Pipeline.fetchMessagesBatched clock messages n w))).
Proof.
  split; [apply extractSenderAddress_lower|].
  split; [unfold GmailHeaders.extractSenderAddress; apply trim_idem|].
  split.
  { intros H. unfold GmailHeaders.extractSenderAddress. now rewrite matchAngle_none. }
  split.
  { intros name addr rest -> Hn Hne Ha. unfold GmailHeaders.extractSenderAddress.
    now rewrite matchAngle_found. }
  assert (Hone : forall row w,
            RuleFile.lowerCased (sender row) ->
            RuleFile.lowerCasedStore w -> RuleFile.lowerCasedStore (insertEmail row w)).
  { intros row w Hs Hw. unfold insertEmail.
    destruct (emails w !! id row) eqn:He; [exact Hw|].
    intros i e. cbn [emails setEmails]. destruct (decide (i = id row)) as [->|Hne].
    - rewrite lookup_insert_eq. intros Heq. inversion Heq; subst. exact Hs.
    - rewrite lookup_insert_ne by congruence. apply Hw. }
  split.
  { intros row w Hs. apply Hone. rewrite Hs. apply extractSenderAddress_lower. }
  intros clock messages. induction messages as [|[msgId fetched] messages IH];
    intros n w Hx Hw; [exact Hw|].
  assert (Hx' : GmailHeaders.sendersExtracted messages).
  { intros i row Hi. apply (Hx i row). now right. }
  cbn [Pipeline.fetchMessagesBatched].
  destruct (emailExists msgId w); [now apply IH|].
  destruct fetched as [row|]; [|now apply IH].
  unfold dateNow. apply IH; [exact Hx'|].
  apply Hone.
  - destruct (Hx msgId row ltac:(left)) as [from' Hs]. cbn [sender Pipeline.withFetchedAt].
    rewrite Hs. apply extractSenderAddress_lower.
  - exact Hw.
Qed.

(** ** The period of a run *)

Section PeriodFacts.

Import Pipeline.



(** The run that onboarding writes, and any run written the same way:
    a row created and then updated with a period end that is a clock
    reading other than 0. *)
Lemma periodsRecorded_written (clock : nat -> Z) (tr : Trigger) (u : RunUpdate)
    (w : World) (T : Z) :
  RunLog.periodsRecorded w = true ->
  u_period_end u = Some T -> T <> 0 ->
  RunLog.periodsRecorded
    (updatePipelineRun (fst (createPipelineRun clock tr w)) u
       (snd (createPipelineRun clock tr w))) = true.
Proof.
  intros Hw Hu Hnz.
  destruct (createPipelineRun_tail clock tr w) as (w1 & Hcr & Hw1 & _).
  rewrite Hcr. cbn [fst snd].
  match type of Hw1 with _ = _ ++ [?row] => set (r0 := row) in * end.
  assert (Hl : forall x, x ∈ pipeline_runs w ->
                         r_id x <> nextRowid (map r_id (pipeline_runs w))).
  { intros x Hx. assert (r_id x < nextRowid (map r_id (pipeline_runs w))); [|lia].
    apply nextRowid_fresh, list_elem_of_fmap. now exists x. }
  unfold RunLog.periodsRecorded.
  rewrite (update_tail (pipeline_runs w) _ r0 u w1 Hl eq_refl Hw1), forallb_app.
  apply andb_true_iff. split; [exact Hw|].
  cbn [forallb]. rewrite andb_true_r. unfold RunLog.periodRecorded.
  cbn [period_end applyUpdate orKeep]. rewrite Hu. cbn [orKeep].
  apply Z.eqb_neq in Hnz. rewrite Hnz. apply orb_true_r.
Qed.

End PeriodFacts.


